(** * ccc-voice-agent: extraction service, batch orchestrator and request checks

  A shallow embedding of the TypeScript sources

  - [src/services/dataExtraction.ts]  (class [DataExtractionService]),
  - the extraction router             ([POST /batch], [GET /schemas]),
  - [src/routes/transcription.ts]     (the multer upload filter),
  - [src/routes/auth.ts]              (the in-memory user store),
  - the server entry point            (the rate limiter configuration),

  followed by the properties of the specification that concern them.

  Remote calls, the clock, the bcrypt hash and the order in which
  concurrently running promises settle are supplied by the environment:
  they appear as arguments of the definitions, so every function below
  computes. *)

From Stdlib Require Import ZArith QArith String Ascii List Lia Permutation.
From stdpp Require Import base list strings gmap pretty.
Import ListNotations.

Open Scope string_scope.
Open Scope list_scope.

(* ================================================================== *)
(** ** JavaScript values and control effects *)
(* ================================================================== *)

Module Js.

(** What [JSON.parse] produces.  A number is the rational its literal
    denotes; the members of an object are kept in source order. *)
#[local] Set Warnings "-register-all".
Inductive Json : Type :=
| JNull
| JBool (b : bool)
| JNumber (q : Q)
| JString (s : string)
| JArray (items : list Json)
| JObject (members : list (string * Json)).

(** [ToBoolean]: null, false, 0 and the empty string are falsy. *)
Definition truthy (v : Json) : bool :=
  match v with
  | JNull => false
  | JBool b => b
  | JNumber q => negb (Qeq_bool q 0)
  | JString s => negb (String.eqb s "")
  | JArray _ | JObject _ => true
  end.

(** [v || d], where [None] stands for [undefined]. *)
Definition or_else (v : option Json) (d : Json) : Json :=
  match v with
  | Some x => if truthy x then x else d
  | None => d
  end.

(** First member of an object with the given key. *)
Fixpoint assoc (k : string) (members : list (string * Json)) : option Json :=
  match members with
  | [] => None
  | (k', v) :: rest => if String.eqb k k' then Some v else assoc k rest
  end.

(** A thrown value: an [Error] with its message, or anything else. *)
Inductive Thrown : Type :=
| ThrownError (message : string)
| ThrownOther.

(** [error instanceof Error ? error.message : fallback] *)
Definition message_or (fallback : string) (e : Thrown) : string :=
  match e with
  | ThrownError m => m
  | ThrownOther => fallback
  end.

(** [obj.name] for a name that no prototype defines: reading from [null]
    throws a [TypeError], an object answers with its member, any other
    value with [undefined]. *)
Definition get_own (name : string) (v : Json) : Thrown + option Json :=
  match v with
  | JNull =>
      inl (ThrownError ("Cannot read properties of null (reading '" +:+ name +:+ "')"))
  | JObject members => inr (assoc name members)
  | _ => inr None
  end.

(** [haystack.includes(needle)] *)
Fixpoint includes (needle haystack : string) : bool :=
  if String.prefix needle haystack then true
  else match haystack with
       | EmptyString => false
       | String _ rest => includes needle rest
       end.

(** *** [parseInt(s)] with the default radix *)

Definition is_space (c : ascii) : bool :=
  let n := nat_of_ascii c in
  (n =? 32)%nat || ((9 <=? n)%nat && (n <=? 13)%nat).

Fixpoint skip_space (s : string) : string :=
  match s with
  | String c rest => if is_space c then skip_space rest else s
  | EmptyString => s
  end.

Definition digit_of (radix : Z) (c : ascii) : option Z :=
  let n := Z.of_nat (nat_of_ascii c) in
  let d := if (48 <=? n)%Z && (n <=? 57)%Z then Some (n - 48)%Z
           else if (97 <=? n)%Z && (n <=? 122)%Z then Some (n - 87)%Z
           else if (65 <=? n)%Z && (n <=? 90)%Z then Some (n - 55)%Z
           else None in
  match d with
  | Some v => if (v <? radix)%Z then Some v else None
  | None => None
  end.

(** Longest prefix of digits, accumulated left to right; [None] when
    there is no digit at all. *)
Fixpoint digits (radix : Z) (acc : option Z) (s : string) : option Z :=
  match s with
  | String c rest =>
      match digit_of radix c with
      | Some d => digits radix (Some (from_option id 0%Z acc * radix + d)%Z) rest
      | None => acc
      end
  | EmptyString => acc
  end.

Definition strip_hex (s : string) : option string :=
  match s with
  | String "0" (String "x" rest) => Some rest
  | String "0" (String "X" rest) => Some rest
  | _ => None
  end.

(** The result is [None] where JavaScript answers [NaN]. *)
Definition parseInt (s : string) : option Z :=
  let s := skip_space s in
  let '(sign, s) :=
    match s with
    | String "-" rest => ((-1)%Z, rest)
    | String "+" rest => (1%Z, rest)
    | _ => (1%Z, s)
    end in
  let magnitude :=
    match strip_hex s with
    | Some rest => digits 16 None rest
    | None => digits 10 None s
    end in
  Z.mul sign <$> magnitude.

(** [process.env.NAME || fallback]: unset and empty are both falsy. *)
Definition env_or (v : option string) (fallback : string) : string :=
  match v with
  | Some s => if String.eqb s "" then fallback else s
  | None => fallback
  end.

(** [n || fallback] on a number: [NaN] and 0 are falsy. *)
Definition num_or (n : option Z) (fallback : Z) : Z :=
  match n with
  | Some v => if (v =? 0)%Z then fallback else v
  | None => fallback
  end.

(** *** Code that logs events and may throw *)

Section Effects.
Context {E : Type}.

(** A computation reads the log so far and returns a value or a thrown
    exception, with the extended log. *)
Definition Eff (A : Type) : Type := list E -> (Thrown + A) * list E.

Definition ret {A} (a : A) : Eff A := fun log => (inr a, log).

Definition bind {A B} (m : Eff A) (k : A -> Eff B) : Eff B :=
  fun log =>
    match m log with
    | (inr a, log') => k a log'
    | (inl e, log') => (inl e, log')
    end.

Definition throw {A} (e : Thrown) : Eff A := fun log => (inl e, log).

Definition emit (ev : E) : Eff unit := fun log => (inr tt, log ++ [ev]).

(** Lift a pure computation that may throw. *)
Definition lift {A} (r : Thrown + A) : Eff A := fun log => (r, log).

(** [try { body } catch (error) { handler }] *)
Definition try_catch {A} (body : Eff A) (handler : Thrown -> Eff A) : Eff A :=
  fun log =>
    match body log with
    | (inr a, log') => (inr a, log')
    | (inl e, log') => handler e log'
    end.
End Effects.

Arguments Eff : clear implicits.

End Js.

Import Js.

Declare Scope eff_scope.
Delimit Scope eff_scope with eff.
Notation "x <- m ;; k" := (bind m (fun x => k))
(at level 100, m at next level, right associativity) : eff_scope.
Notation "m ;;; k" := (bind m (fun _ => k))
(at level 100, right associativity) : eff_scope.

Open Scope Z_scope.

(* ================================================================== *)
(** ** src/services/dataExtraction.ts *)
(* ================================================================== *)

Module DataExtraction.

Inductive ExtractionType : Type :=
| repair_details
| parts_inventory
| labor_hours
| customer_info
| damage_assessment
| custom.

Record CustomSchema : Type := {
  fields : list string;
  description : string
}.

Record ExtractionRequest : Type := {
  transcription : string;
  extractionType : ExtractionType;
  customSchema : option CustomSchema;
  userId : string
}.

(** An element of [BatchExtractionRequest.transcriptions]. *)
Record Item : Type := {
  id : string;
  text : string
}.

Record BatchExtractionRequest : Type := {
  transcriptions : list Item;
  b_extractionType : ExtractionType;
  b_customSchema : option CustomSchema;
  b_userId : string
}.

Record Tokens : Type := {
  prompt : Z;
  completion : Z;
  total : Z
}.

(** [confidence] is declared a number, but the success path stores
    whatever the parsed output holds under that name. *)
Record ExtractionResult : Type := {
  success : bool;
  extractedData : Json;
  confidence : Json;
  r_extractionType : ExtractionType;
  processingTime : Z;
  tokens : option Tokens
}.

Record BatchExtractionResult : Type := {
  r_id : string;
  result : ExtractionResult;
  error : option string
}.

(** *** The remote provider's answer *)

Record Message : Type := { content : option string }.
Record Choice : Type := { message : option Message }.
Record Usage : Type := {
  prompt_tokens : option Z;
  completion_tokens : option Z;
  total_tokens : option Z
}.
Record ChatCompletion : Type := {
  choices : list Choice;
  usage : option Usage
}.

(** What the environment contributes to one [extractData] call: the clock
    reading at entry, the provider's reaction to the prompt (a rejection or
    a completion) and the last clock reading of the call. *)
Record CallEnv : Type := {
  startTime : Z;
  respond : string -> Thrown + ChatCompletion;
  endTime : Z
}.

(** The only observable action of [extractData]. *)
Inductive Event : Type :=
| RemoteCall (prompt : string).

(** *** buildExtractionPrompt *)

(** The file holds two revisions of the class.  They differ in
    [buildExtractionPrompt] only: the earlier one switches on the
    extraction type, the later one sends one comprehensive field list for
    every type but [custom]. *)
Inductive Revision : Type :=
| PerType
| Comprehensive.

Definition dq : string := String (ascii_of_nat 34) EmptyString.

Definition type_name (t : ExtractionType) : string :=
  match t with
  | repair_details => "repair_details"
  | parts_inventory => "parts_inventory"
  | labor_hours => "labor_hours"
  | customer_info => "customer_info"
  | damage_assessment => "damage_assessment"
  | custom => "custom"
  end.

Definition basePrompt (transcription : string) : string :=
  "Extract structured data from the following automotive repair transcription. Return your response as a valid JSON object.

Transcription:
" +:+ dq +:+ transcription +:+ dq +:+ "

".

Definition customPrompt (schema : CustomSchema) : string :=
  "Extract the following custom fields based on this schema:
Description: " +:+ description schema +:+ "
Fields to extract: " +:+ String.concat ", " (fields schema) +:+ "

Format your response as JSON using the field names provided. Include a "
  +:+ dq +:+ "confidence" +:+ dq +:+ " field (0.0-1.0).".

Definition repairDetailsPrompt : string :=
  "Extract the following repair details:
- vehicle_info: Year, make, model, VIN if mentioned
- problem_description: What the customer reported as the issue
- diagnosis: What the technician found during inspection
- repairs_performed: Specific repair work done
- parts_used: Parts replaced or installed
- labor_time: Time spent on different tasks
- recommendations: Future maintenance suggestions

Format your response as JSON with these exact field names. Include a "
  +:+ dq +:+ "confidence" +:+ dq
  +:+ " field (0.0-1.0) indicating your confidence in the extraction.".

Definition partsInventoryPrompt : string :=
  "Extract parts and inventory information:
- part_numbers: Specific part numbers mentioned
- part_descriptions: Description of parts used
- quantities: How many of each part
- suppliers: Where parts were sourced from
- costs: Part costs if mentioned
- installation_notes: Any special installation requirements

Format your response as JSON with these exact field names. Include a "
  +:+ dq +:+ "confidence" +:+ dq +:+ " field (0.0-1.0).".

Definition laborHoursPrompt : string :=
  "Extract labor and time information:
- tasks_performed: List of specific tasks done
- time_per_task: Time spent on each task
- total_hours: Total labor time
- technician_notes: Any notes about the work performed
- difficulty_level: How complex the work was (easy/medium/hard)

Format your response as JSON with these exact field names. Include a "
  +:+ dq +:+ "confidence" +:+ dq +:+ " field (0.0-1.0).".

Definition customerInfoPrompt : string :=
  "Extract customer and vehicle information:
- customer_name: Customer's name if mentioned
- contact_info: Phone, email, or address if mentioned
- vehicle_year: Year of the vehicle
- vehicle_make: Make/brand of the vehicle
- vehicle_model: Model of the vehicle
- vin: VIN number if mentioned
- mileage: Current mileage if mentioned
- service_requests: What services were requested

Format your response as JSON with these exact field names. Include a "
  +:+ dq +:+ "confidence" +:+ dq +:+ " field (0.0-1.0).".

Definition comprehensivePrompt : string :=
  "Extract ALL available information from the transcription. Include any fields that apply, leave others empty ("
  +:+ dq +:+ dq +:+ "):

CUSTOMER INFORMATION:
- customer_name: Customer's name if mentioned
- contact_info: Phone, email, or address if mentioned
- service_requests: What services were requested

VEHICLE INFORMATION:
- vin: VIN number if mentioned
- vehicle_type: Standard, Commercial, etc.
- type: Pickup, Sedan, SUV, etc.
- year: Vehicle year
- make: Vehicle manufacturer (e.g., Chevrolet, Ford)
- model: Full model name and trim
- body_style: Body style description (e.g., " +:+ dq +:+ "2-Door Pickup" +:+ dq +:+ ")
- engine: Engine specifications
- interior_color: Interior color
- exterior_color: Exterior color
- paint_code: Paint code if mentioned
- trim_code: Trim code if mentioned
- license_plate: License plate number
- license_state: License plate state
- license_expiration: License expiration date
- job_number: Job or work order number
- production_date: Vehicle production date
- mileage_in: Mileage when vehicle arrived
- mileage_out: Mileage when vehicle completed
- fuel_level: Fuel level (Full, Half, Quarter, etc.)

DAMAGE & ASSESSMENT:
- repairable_condition: Overall vehicle condition (Good, Fair, Poor)
- primary_impact: Primary point of impact
- secondary_impact: Secondary point of impact if any
- drivable_status: Whether vehicle is drivable
- impact_notes: Description of damage areas and impact details
- prior_damage_notes: Any prior damage noted
- problem_description: What the customer reported as the issue
- diagnosis: What the technician found during inspection

REPAIR WORK:
- repairs_performed: Specific repair work done
- labor_type: Type of labor required (body, mechanical, paint)
- tasks_performed: List of specific tasks done
- time_per_task: Time spent on each task
- total_hours: Total labor time
- labor_time: Time spent on different tasks
- difficulty_level: How complex the work was (easy/medium/hard)
- technician_notes: Any notes about the work performed

PARTS & OPERATIONS:
- parts_used: Parts replaced or installed
- part_numbers: Specific part numbers mentioned
- part_descriptions: Description of parts used
- quantities: How many of each part
- suppliers: Where parts were sourced from
- costs: Part costs if mentioned
- installation_notes: Any special installation requirements
- paint_needed: Whether paint is needed and type/code
- operation_notes: Additional operation notes
- estimate_line: Estimate line item number
- operation_type: Type of operation (Replace, Repair, Refinish)
- operation_description: Description of repair operation
- quantity: Quantity of parts or hours
- unit_price: Unit price for parts or hourly rate
- estimated_total: Total estimated cost

RECOMMENDATIONS:
- recommendations: Future maintenance suggestions

Format your response as JSON with these exact field names. Leave fields empty ("
  +:+ dq +:+ dq +:+ ") if not mentioned in the transcription. Include a "
  +:+ dq +:+ "confidence" +:+ dq
  +:+ " field (0.0-1.0) indicating your confidence in the extraction.".

Definition missingSchemaMessage : string :=
  "Custom schema is required for custom extraction type".

(** [!customSchema] holds for an absent schema only: a schema is an
    object, and every object is truthy. *)
Definition buildExtractionPrompt (rev : Revision) (transcription : string)
    (extractionType : ExtractionType) (customSchema : option CustomSchema)
  : Thrown + string :=
  match rev with
  | PerType =>
      match extractionType with
      | repair_details => inr (basePrompt transcription +:+ repairDetailsPrompt)
      | parts_inventory => inr (basePrompt transcription +:+ partsInventoryPrompt)
      | labor_hours => inr (basePrompt transcription +:+ laborHoursPrompt)
      | customer_info => inr (basePrompt transcription +:+ customerInfoPrompt)
      | custom =>
          match customSchema with
          | None => inl (ThrownError missingSchemaMessage)
          | Some schema => inr (basePrompt transcription +:+ customPrompt schema)
          end
      | damage_assessment =>
          inl (ThrownError ("Unsupported extraction type: " +:+ type_name extractionType))
      end
  | Comprehensive =>
      match extractionType with
      | custom =>
          match customSchema with
          | None => inl (ThrownError missingSchemaMessage)
          | Some schema => inr (basePrompt transcription +:+ customPrompt schema)
          end
      | _ => inr (basePrompt transcription +:+ comprehensivePrompt)
      end
  end.

(** *** extractData *)

Section Service.

(** [JSON.parse] belongs to the runtime: a thrown [SyntaxError] or the
    parsed value. *)
Variable JSON_parse : string -> Thrown + Json.
Variable rev : Revision.

(** [await this.openai.chat.completions.create({... content: prompt ...})] *)
Definition chat_completions_create (env : CallEnv) (prompt : string)
  : Eff Event ChatCompletion :=
  (emit (RemoteCall prompt) ;;; lift (respond env prompt))%eff.

(** [completion.choices[0]?.message?.content] *)
Definition responseText_of (completion : ChatCompletion) : option string :=
  match choices completion with
  | [] => None
  | choice :: _ =>
      match message choice with
      | None => None
      | Some m => content m
      end
  end.

(** [usage?.field || 0] *)
Definition token_count (usage : option Usage) (field : Usage -> option Z) : Z :=
  match usage with
  | Some u => num_or (field u) 0
  | None => 0
  end.

(** The [try] block. *)
Definition extractData_try (env : CallEnv) (request : ExtractionRequest)
  : Eff Event ExtractionResult :=
  (prompt <- lift (buildExtractionPrompt rev (transcription request)
                     (extractionType request) (customSchema request)) ;;
   completion <- chat_completions_create env prompt ;;
   match responseText_of completion with
   | None | Some EmptyString =>
       throw (ThrownError "No response from extraction model")
   | Some responseText =>
       extractedData <- lift (JSON_parse responseText) ;;
       let processingTime := endTime env - startTime env in
       given <- lift (get_own "confidence" extractedData) ;;
       ret {| success := true;
              extractedData := extractedData;
              confidence := or_else given (JNumber (4 # 5));
              r_extractionType := extractionType request;
              processingTime := processingTime;
              tokens := Some {| prompt := token_count (usage completion) prompt_tokens;
                                completion := token_count (usage completion) completion_tokens;
                                total := token_count (usage completion) total_tokens |} |}
   end)%eff.

(** The [catch] block. *)
Definition extractData_catch (env : CallEnv) (request : ExtractionRequest)
    (error : Thrown) : Eff Event ExtractionResult :=
  let processingTime := endTime env - startTime env in
  ret {| success := false;
         extractedData :=
           JObject [("error", JString (message_or "Unknown extraction error" error))];
         confidence := JNumber 0;
         r_extractionType := extractionType request;
         processingTime := processingTime;
         tokens := None |}.

Definition extractData (env : CallEnv) (request : ExtractionRequest)
  : Eff Event ExtractionResult :=
  try_catch (extractData_try env request) (extractData_catch env request).

(** *** extractDataBatch *)

(** What can be observed of a batch run: the callback of [batch.map] is
    entered for item [k], item [k] issues a remote call, the promise of item
    [k] settles, the loop sleeps. *)
Inductive BatchEvent : Type :=
| Started (k : nat)
| Called (k : nat) (prompt : string)
| Settled (k : nat)
| Delay (ms : Z).

Definition maxConcurrent : nat := 3.

(** The asynchronous callback given to [batch.map]. *)
Definition processItem (request : BatchExtractionRequest) (env : CallEnv)
    (item : Item) : Eff Event BatchExtractionResult :=
  try_catch
    (result <- extractData env
                 {| transcription := text item;
                    extractionType := b_extractionType request;
                    customSchema := b_customSchema request;
                    userId := b_userId request |} ;;
     ret {| r_id := id item; result := result; error := None |})%eff
    (fun error =>
       ret {| r_id := id item;
              result := {| success := false;
                           extractedData := JObject [];
                           confidence := JNumber 0;
                           r_extractionType := b_extractionType request;
                           processingTime := 0;
                           tokens := None |};
              error := Some (message_or "Unknown error" error) |}).

(** [Promise.all]: one slot per promise.  Settlement notifications arrive in
    the order the environment chooses.  A fulfilment fills the slot of its
    promise, once, and decrements the count of outstanding promises; the
    first rejection rejects the whole; when nothing is outstanding the
    slots, in the order of the promises, are the value.  The answer is
    [None] when the notifications end with promises still outstanding: the
    combined promise never settles.  The second component lists the
    notifications consumed. *)
Fixpoint all_settle {A : Type} (promises : list (Thrown + A))
    (values : list (option A)) (remaining : nat) (order seen : list nat)
  : option ((Thrown + list A) * list nat) :=
  if (remaining =? 0)%nat then Some (inr (omap Datatypes.id values), seen)
  else
    match order with
    | [] => None
    | j :: order' =>
        match promises !! j, values !! j with
        | Some (inr v), Some None =>
            all_settle promises (<[j := Some v]> values) (pred remaining)
              order' (seen ++ [j])
        | Some (inl e), Some None => Some (inl e, seen ++ [j])
        | _, _ => all_settle promises values remaining order' seen
        end
    end.

Definition Promise_all {A : Type} (promises : list (Thrown + A))
    (order : list nat) : option ((Thrown + list A) * list nat) :=
  all_settle promises (replicate (length promises) None) (length promises)
    order [].

(** The environment of a batch: what each item's call meets, indexed by
    the item's position, and for the chunk starting at [i] with [n] items
    the order in which its promises settle (positions within the chunk). *)
Record BatchEnv : Type := {
  callEnv : nat -> CallEnv;
  settleOrder : nat -> nat -> list nat
}.

(** Entering the callback for the items of one chunk, left to right: each
    runs up to its first suspension, which issues its remote call. *)
Definition dispatch (request : BatchExtractionRequest) (benv : BatchEnv)
    (i : nat) (batch : list Item)
  : list ((Thrown + BatchExtractionResult) * list Event) :=
  imap (fun j item => processItem request (callEnv benv (i + j)%nat) item []) batch.

Definition dispatch_events (i : nat)
    (started : list ((Thrown + BatchExtractionResult) * list Event))
  : list BatchEvent :=
  concat (imap (fun j run =>
                  Started (i + j)%nat
                    :: map (fun ev => match ev with
                                      | RemoteCall p => Called (i + j)%nat p
                                      end) (snd run))
               started).

(** The [for] loop, from index [i] with the results and the trace so far.
    [None]: out of fuel, or a chunk that never settles. *)
Fixpoint batch_loop (request : BatchExtractionRequest) (benv : BatchEnv)
    (fuel i : nat) (results : list BatchExtractionResult)
    (trace : list BatchEvent)
  : option ((Thrown + list BatchExtractionResult) * list BatchEvent) :=
  match fuel with
  | O => None
  | S fuel' =>
      let len := length (transcriptions request) in
      if (i <? len)%nat then
        let batch := take maxConcurrent (drop i (transcriptions request)) in
        let started := dispatch request benv i batch in
        let trace := trace ++ dispatch_events i started in
        match Promise_all (map fst started) (settleOrder benv i (length batch)) with
        | None => None
        | Some (settled, seen) =>
            let trace := trace ++ map (fun j => Settled (i + j)%nat) seen in
            match settled with
            | inl e => Some (inl e, trace)
            | inr batchResults =>
                let results := results ++ batchResults in
                let trace :=
                  if (i + maxConcurrent <? len)%nat
                  then trace ++ [Delay 1000] else trace in
                batch_loop request benv fuel' (i + maxConcurrent)%nat results trace
            end
        end
      else Some (inr results, trace)
  end.

(** The loop tests its condition at most [len + 1] times: that is the
    fuel. *)
Definition extractDataBatch (request : BatchExtractionRequest) (benv : BatchEnv)
  : option ((Thrown + list BatchExtractionResult) * list BatchEvent) :=
  batch_loop request benv (S (length (transcriptions request))) 0%nat [] [].

End Service.

(** *** validateExtractionResult *)

(** [Object.keys(v)] for a truthy value: the keys of an object, the indices
    of an array or of a string, nothing for a number or a boolean. *)
Definition object_keys (v : Json) : list string :=
  match v with
  | JObject members => map fst members
  | JArray items => map pretty (seq 0 (length items))
  | JString s => map pretty (seq 0 (String.length s))
  | JNull | JBool _ | JNumber _ => []
  end.

(** The static utility.  [above_threshold v] is [v > 0.3] as the runtime
    evaluates it, on doubles; it is the only part left to the runtime. *)
Definition validateExtractionResult (above_threshold : Json -> bool)
    (result : ExtractionResult) (expectedFields : list string) : bool :=
  if negb (success result) || negb (truthy (extractedData result)) then false
  else
    let extractedFields := object_keys (extractedData result) in
    let hasRequiredFields :=
      existsb (fun field => existsb (String.eqb field) extractedFields)
              expectedFields in
    hasRequiredFields && above_threshold (confidence result).

End DataExtraction.

(* ================================================================== *)
(** ** HTTP responses and request-body validation *)
(* ================================================================== *)

Module Http.

(** A JSON response: the status and the body handed to [res.json]. *)
Record Response : Type := {
  status : Z;
  body : Json
}.

(** [res.status(code).json({ error })]; the [details] of a validation
    error, zod's list of issues, are left out. *)
Definition error_response (code : Z) (error : string) : Response :=
  {| status := code; body := JObject [("error", JString error)] |}.

(** *** The zod schemas used by the routers

    [None] stands for a thrown [ZodError]. *)

(** [z.string()] *)
Definition z_string (v : option Json) : option string :=
  match v with
  | Some (JString s) => Some s
  | _ => None
  end.

(** [z.string().min(n)] *)
Definition z_string_min (n : nat) (v : option Json) : option string :=
  match z_string v with
  | Some s => if (n <=? String.length s)%nat then Some s else None
  | None => None
  end.

(** [z.array(z.string())] *)
Definition z_string_array (v : option Json) : option (list string) :=
  match v with
  | Some (JArray items) => mapM (fun item => z_string (Some item)) items
  | _ => None
  end.

(** [z.object({...})] accepts objects only and reads the members it names. *)
Definition z_object (v : Json) : option (list (string * Json)) :=
  match v with
  | JObject members => Some members
  | _ => None
  end.

End Http.

(* ================================================================== *)
(** ** The extraction router: POST /batch and GET /schemas *)
(* ================================================================== *)

Module ExtractionRoute.

Import Http.
Import DataExtraction.

Record BatchData : Type := {
  v_transcriptions : list Item;
  v_extractionType : ExtractionType;
  v_customSchema : option CustomSchema
}.

(** [z.enum([...]).default('repair_details')] *)
Definition z_extractionType (v : option Json) : option ExtractionType :=
  match v with
  | None => Some repair_details
  | Some (JString s) =>
      List.find (fun t => String.eqb (type_name t) s)
        [repair_details; parts_inventory; labor_hours; customer_info;
         damage_assessment; custom]
  | Some _ => None
  end.

(** [z.object({ fields: z.array(z.string()), description: z.string() }).optional()] *)
Definition z_customSchema (v : option Json) : option (option CustomSchema) :=
  match v with
  | None => Some None
  | Some j =>
      match z_object j with
      | Some members =>
          match z_string_array (assoc "fields" members),
                z_string (assoc "description" members) with
          | Some fs, Some d => Some (Some {| fields := fs; description := d |})
          | _, _ => None
          end
      | None => None
      end
  end.

(** [z.object({ id: z.string(), text: z.string().min(10) })] *)
Definition z_item (v : Json) : option Item :=
  match z_object v with
  | Some members =>
      match z_string (assoc "id" members),
            z_string_min 10 (assoc "text" members) with
      | Some i, Some t => Some {| id := i; text := t |}
      | _, _ => None
      end
  | None => None
  end.

(** [z.array(item).min(1).max(10)] *)
Definition z_transcriptions (v : option Json) : option (list Item) :=
  match v with
  | Some (JArray elements) =>
      match mapM z_item elements with
      | Some items =>
          if (1 <=? length items)%nat && (length items <=? 10)%nat
          then Some items else None
      | None => None
      end
  | _ => None
  end.

(** [batchExtractionSchema.parse(req.body)] *)
Definition batchExtractionSchema_parse (reqBody : Json) : option BatchData :=
  match z_object reqBody with
  | Some members =>
      match z_transcriptions (assoc "transcriptions" members),
            z_extractionType (assoc "extractionType" members),
            z_customSchema (assoc "customSchema" members) with
      | Some ts, Some t, Some cs =>
          Some {| v_transcriptions := ts; v_extractionType := t;
                  v_customSchema := cs |}
      | _, _, _ => None
      end
  | None => None
  end.

(** [new DataExtractionService()] *)
Definition new_DataExtractionService (OPENAI_API_KEY : option string)
  : Thrown + unit :=
  match OPENAI_API_KEY with
  | Some (String _ _) => inr tt
  | _ => inl (ThrownError "OPENAI_API_KEY environment variable is required")
  end.

(** The [catch] of the batch handler for an error that is no [ZodError]. *)
Definition batch_failure (error : Thrown) : Response :=
  match error with
  | ThrownError m =>
      if includes "rate limit" m
      then error_response 429 "Rate limit exceeded for batch extraction"
      else error_response 500 "Batch data extraction failed"
  | ThrownOther => error_response 500 "Batch data extraction failed"
  end.

(** A result as [res.json] serialises it: [tokens] and [error] are left
    out when undefined. *)
Definition json_of_result (r : ExtractionResult) : Json :=
  JObject
    ([("success", JBool (success r));
      ("extractedData", extractedData r);
      ("confidence", confidence r);
      ("extractionType", JString (type_name (r_extractionType r)));
      ("processingTime", JNumber (inject_Z (processingTime r)))]
     ++ match tokens r with
        | Some t => [("tokens", JObject [("prompt", JNumber (inject_Z (prompt t)));
                                         ("completion", JNumber (inject_Z (completion t)));
                                         ("total", JNumber (inject_Z (total t)))])]
        | None => []
        end).

Definition json_of_batch_result (r : BatchExtractionResult) : Json :=
  JObject
    ([("id", JString (r_id r)); ("result", json_of_result (result r))]
     ++ match error r with
        | Some e => [("error", JString e)]
        | None => []
        end).

(** [router.post('/batch', ...)], in the later of the two revisions of the
    router (no check of [req.user], the user id fixed to ['test-user']; the
    earlier one answers 401 without a user and has no [damage_assessment]
    in its enumeration, and validates the batch in the same way).  [timestamp] is the ISO rendering
    of the clock at response time.  [None]: the handler never responds. *)
Definition post_batch (JSON_parse : string -> Thrown + Json) (rev : Revision)
    (OPENAI_API_KEY : option string) (benv : BatchEnv) (timestamp : string)
    (reqBody : Json)
  : option (Response * list BatchEvent) :=
  match batchExtractionSchema_parse reqBody with
  | None => Some (error_response 400 "Invalid batch extraction request", [])
  | Some validatedData =>
      match new_DataExtractionService OPENAI_API_KEY with
      | inl e => Some (batch_failure e, [])
      | inr _ =>
          match extractDataBatch JSON_parse rev
                  {| transcriptions := v_transcriptions validatedData;
                     b_extractionType := v_extractionType validatedData;
                     b_customSchema := v_customSchema validatedData;
                     b_userId := "test-user" |} benv with
          | None => None
          | Some (inl e, trace) => Some (batch_failure e, trace)
          | Some (inr batchResults, trace) =>
              Some ({| status := 200;
                       body := JObject
                         [("success", JBool true);
                          ("results", JArray (map json_of_batch_result batchResults));
                          ("metadata", JObject
                             [("extractionType",
                               JString (type_name (v_extractionType validatedData)));
                              ("batchSize",
                               JNumber (inject_Z (Z.of_nat (length (v_transcriptions validatedData)))));
                              ("timestamp", JString timestamp);
                              ("userId", JString "test-user")])] |},
                    trace)
          end
      end
  end.

(** *** GET /schemas *)

Definition strings (names : list string) : Json := JArray (map JString names).

Definition schemas : Json :=
  JObject
    [("comprehensive", JObject
        [("description",
          JString "Extract all available automotive repair and assessment information");
         ("categories", JObject
            [("customer_information",
              strings ["customer_name"; "contact_info"; "service_requests"]);
             ("vehicle_information",
              strings ["vin"; "vehicle_type"; "type"; "year"; "make"; "model";
                       "body_style"; "engine"; "interior_color"; "exterior_color";
                       "paint_code"; "trim_code"; "license_plate"; "license_state";
                       "license_expiration"; "job_number"; "production_date";
                       "mileage_in"; "mileage_out"; "fuel_level"]);
             ("damage_assessment",
              strings ["repairable_condition"; "primary_impact"; "secondary_impact";
                       "drivable_status"; "impact_notes"; "prior_damage_notes";
                       "problem_description"; "diagnosis"]);
             ("repair_work",
              strings ["repairs_performed"; "labor_type"; "tasks_performed";
                       "time_per_task"; "total_hours"; "labor_time";
                       "difficulty_level"; "technician_notes"]);
             ("parts_operations",
              strings ["parts_used"; "part_numbers"; "part_descriptions"; "quantities";
                       "suppliers"; "costs"; "installation_notes"; "paint_needed";
                       "operation_notes"; "estimate_line"; "operation_type";
                       "operation_description"; "quantity"; "unit_price";
                       "estimated_total"]);
             ("recommendations", strings ["recommendations"])]);
         ("total_fields", JNumber 47)]);
     ("custom", JObject
        [("description", JString "Define your own extraction schema");
         ("fields", strings ["custom_fields_defined_by_user"])])].

(** [router.get('/schemas', ...)] *)
Definition get_schemas : Response :=
  {| status := 200;
     body := JObject [("success", JBool true);
                      ("schemas", schemas);
                      ("message", JString "Available extraction schemas")] |}.

(** Reading the catalogue back from a response body. *)
Definition member (name : string) (v : option Json) : option Json :=
  match v with
  | Some (JObject members) => assoc name members
  | _ => None
  end.

Definition comprehensive_of (r : Response) : option Json :=
  member "comprehensive" (member "schemas" (Some (body r))).

Definition categories_of (r : Response) : list (string * list Json) :=
  match member "categories" (comprehensive_of r) with
  | Some (JObject cats) =>
      map (fun c => (fst c, match snd c with JArray names => names | _ => [] end))
          cats
  | _ => []
  end.

Definition category_names (r : Response) : list string :=
  map fst (categories_of r).

Definition listed_fields (r : Response) : list Json :=
  concat (map snd (categories_of r)).

(** *** POST /extract *)

Record ExtractBody : Type := {
  e_transcription : string;
  e_extractionType : ExtractionType;
  e_customSchema : option CustomSchema
}.

(** [extractionRequestSchema.parse(req.body)] *)
Definition extractionRequestSchema_parse (reqBody : Json) : option ExtractBody :=
  match z_object reqBody with
  | Some members =>
      match z_string_min 10 (assoc "transcription" members),
            z_extractionType (assoc "extractionType" members),
            z_customSchema (assoc "customSchema" members) with
      | Some tr, Some t, Some cs =>
          Some {| e_transcription := tr; e_extractionType := t;
                  e_customSchema := cs |}
      | _, _, _ => None
      end
  | None => None
  end.

(** The [catch] of the extract handler for an error that is no [ZodError]. *)
Definition extract_failure (error : Thrown) : Response :=
  match error with
  | ThrownError m =>
      if includes "rate limit" m
      then error_response 429 "Rate limit exceeded for extraction service"
      else error_response 500 "Data extraction failed"
  | ThrownOther => error_response 500 "Data extraction failed"
  end.

(** [router.post('/extract', ...)], later revision.  The response wraps the
    whole [ExtractionResult] under [extractedData], next to a [success]
    of its own. *)
Definition post_extract (JSON_parse : string -> Thrown + Json) (rev : Revision)
    (OPENAI_API_KEY : option string) (env : CallEnv) (timestamp : string)
    (reqBody : Json)
  : Response * list Event :=
  match extractionRequestSchema_parse reqBody with
  | None => (error_response 400 "Invalid extraction request", [])
  | Some validatedData =>
      match new_DataExtractionService OPENAI_API_KEY with
      | inl e => (extract_failure e, [])
      | inr _ =>
          match extractData JSON_parse rev env
                  {| transcription := e_transcription validatedData;
                     extractionType := e_extractionType validatedData;
                     customSchema := e_customSchema validatedData;
                     userId := "test-user" |} [] with
          | (inl e, log) => (extract_failure e, log)
          | (inr extractedData, log) =>
              ({| status := 200;
                  body := JObject
                    [("success", JBool true);
                     ("extractedData", json_of_result extractedData);
                     ("metadata", JObject
                        [("extractionType",
                          JString (type_name (e_extractionType validatedData)));
                         ("transcriptionLength",
                          JNumber (inject_Z (Z.of_nat
                            (String.length (e_transcription validatedData)))));
                         ("timestamp", JString timestamp);
                         ("userId", JString "test-user")])] |},
               log)
          end
      end
  end.

(** *** GET /schemas, earlier revision *)

Definition schema_entry (description : string) (names : list string) : Json :=
  JObject [("description", JString description); ("fields", strings names)].

Definition schemas_per_type : Json :=
  JObject
    [("repair_details",
      schema_entry "Extract repair work details, issues, and solutions"
        ["vehicle_info"; "problem_description"; "diagnosis"; "repairs_performed";
         "parts_used"; "labor_time"; "recommendations"]);
     ("parts_inventory",
      schema_entry "Extract parts information and inventory details"
        ["part_numbers"; "part_descriptions"; "quantities"; "suppliers"; "costs";
         "installation_notes"]);
     ("labor_hours",
      schema_entry "Extract labor time and work breakdown"
        ["tasks_performed"; "time_per_task"; "total_hours"; "technician_notes";
         "difficulty_level"]);
     ("customer_info",
      schema_entry "Extract customer and vehicle information"
        ["customer_name"; "contact_info"; "vehicle_year"; "vehicle_make";
         "vehicle_model"; "vin"; "mileage"; "service_requests"]);
     ("custom",
      schema_entry "Define your own extraction schema"
        ["custom_fields_defined_by_user"])].

(** [router.get('/schemas', ...)] of the earlier revision; [user] is
    [req.user]. *)
Definition get_schemas_per_type (user : option string) : Response :=
  match user with
  | None => error_response 401 "User not authenticated"
  | Some _ =>
      {| status := 200;
         body := JObject [("success", JBool true);
                          ("schemas", schemas_per_type);
                          ("message", JString "Available extraction schemas")] |}
  end.

(** The field names a response lists for one extraction type. *)
Definition fields_of_type (r : Response) (t : ExtractionType) : list Json :=
  match member "fields" (member (type_name t) (member "schemas" (Some (body r)))) with
  | Some (JArray names) => names
  | _ => []
  end.

End ExtractionRoute.

(* ================================================================== *)
(** ** The error middleware *)
(* ================================================================== *)

Module ErrorHandler.

Import Http.

(** The error taxonomy of the specification. *)
Inductive ErrorKind : Type :=
| ValidationError
| AuthError
| RateLimitError
| UnsupportedMediaError
| ProviderError
| NotFoundError
| InternalError.

Definition status_of (kind : ErrorKind) : Z :=
  match kind with
  | ValidationError => 400
  | AuthError => 401
  | RateLimitError => 429
  | UnsupportedMediaError => 400
  | ProviderError => 500
  | NotFoundError => 404
  | InternalError => 500
  end.

(** Modelled from the spec: [./middleware/errorHandler], the error
    middleware the server installs after the routers, is not among the
    sources.  It is handed the error alone.  By the specification a
    violation of the type or the size rule of an upload is an
    [UnsupportedMediaError], and an error of no other kind is an
    [InternalError], the catch-all.  The two violations reach the
    middleware as the error of the upload's file filter and as the size
    error of multer; they are told by their messages. *)
Definition kind_of (err : Thrown) : ErrorKind :=
  match err with
  | ThrownError m =>
      if String.eqb m "Invalid file type. Only audio files are allowed."
         || String.eqb m "File too large"
      then UnsupportedMediaError
      else InternalError
  | ThrownOther => InternalError
  end.

(** Modelled from the spec: [./middleware/errorHandler] again.  By the
    specification every error response has the shape [{ error }], and its
    status is the one the taxonomy gives the kind of the error. *)
Definition errorHandler (err : Thrown) : Response :=
  error_response (status_of (kind_of err)) (message_or "Internal server error" err).

End ErrorHandler.

(* ================================================================== *)
(** ** src/services/speechToText.ts and src/routes/transcription.ts *)
(* ================================================================== *)

Module Transcription.

Import Http.
Import ErrorHandler.

Inductive Model : Type :=
| fal_whisper
| google
| azure.

Definition model_name (m : Model) : string :=
  match m with
  | fal_whisper => "fal-whisper"
  | google => "google"
  | azure => "azure"
  end.

Record TranscriptionOptions : Type := {
  language : option string;
  model : Model;
  timestamp : bool;
  speakerDiarization : bool
}.

(** The uploaded part: [size] is the length of its content. *)
Record File : Type := {
  mimetype : string;
  originalname : string;
  size : Z
}.

(** The text fields of the multipart form. *)
Record Form : Type := {
  f_language : option string;
  f_model : option string;
  f_timestamp : option string;
  f_speakerDiarization : option string
}.

Record Segment : Type := {
  s_text : string;
  s_start : Q;
  s_end : Q;
  s_speaker : option string
}.

(** What the service returns. *)
Record TranscriptionResult : Type := {
  text : string;
  t_language : option string;
  t_confidence : option Q;
  segments : option (list Segment);
  t_model : string;
  wordCount : Z
}.

(** A chunk of the remote answer: its text, the two ends of its
    [timestamp] and its speaker. *)
Record Chunk : Type := {
  c_text : string;
  c_from : Q;
  c_to : Q;
  c_speaker : option string
}.

(** The [data] of the remote transcription's answer. *)
Record WhisperData : Type := {
  w_text : string;
  inferred_languages : list string;
  chunks : list Chunk
}.

(** The two remote steps of a transcription as the environment answers
    them: storing the audio, which yields its URL, and the transcription of
    the stored audio. *)
Record Remote : Type := {
  storage_upload : Thrown + string;
  subscribe : string -> Thrown + WhisperData
}.

(** The server sends the audio to the storage of the provider, and asks for
    the transcription of what it stored. *)
Inductive Event : Type :=
| StorageUpload (fileName : string)
| Subscribe (audio_url : string).

(** *** The multer configuration *)

Definition allowedMimeTypes : list string :=
  ["audio/mpeg"; "audio/wav"; "audio/mp3"; "audio/mp4"; "audio/m4a";
   "audio/webm"; "audio/flac"].

(** [allowedMimeTypes.includes(file.mimetype)] *)
Definition allowed (mime : string) : bool :=
  existsb (String.eqb mime) allowedMimeTypes.

(** [limits.fileSize]: [parseInt(process.env.MAX_FILE_SIZE || '50000000')].
    [None] is [NaN]. *)
Definition fileSize (MAX_FILE_SIZE : option string) : option Z :=
  parseInt (env_or MAX_FILE_SIZE "50000000").

(** [fileFilter]: [cb(null, true)] or [cb(new Error(...))] *)
Definition fileFilter (file : File) : Thrown + bool :=
  if allowed (mimetype file) then inr true
  else inl (ThrownError "Invalid file type. Only audio files are allowed.").

(** The size limit as multer's parser applies it.  Of each piece of
    content it reads it keeps at most what is left of the limit, and it
    reports the limit once the bytes kept equal it: a part is cut off as
    soon as its size reaches a limit of 0 or more.  Under a limit that is
    negative or [NaN] no byte is kept and the limit is never reported.  A
    part without content is not measured. *)
Definition too_large (limit : option Z) (file : File) : bool :=
  match limit with
  | Some l => (0 <? size file) && (0 <=? l) && (l <=? size file)
  | None => false
  end.

(** [req.file.size] of a part that is not cut off: the bytes kept. *)
Definition stored_size (limit : option Z) (file : File) : Z :=
  match limit with
  | Some l => if 0 <=? l then size file else 0
  | None => 0
  end.

(** [upload.single('audio')]: the filter sees the part before its content
    is read; the content is then read up to the size limit.  An error is
    passed to [next], so the route handler does not run; otherwise
    [req.file] is set, or left undefined when there is no such part. *)
Definition upload_single (MAX_FILE_SIZE : option string) (part : option File)
  : Thrown + option File :=
  match part with
  | None => inr None
  | Some file =>
      match fileFilter file with
      | inl e => inl e
      | inr false => inr None
      | inr true =>
          if too_large (fileSize MAX_FILE_SIZE) file
          then inl (ThrownError "File too large")
          else inr (Some {| mimetype := mimetype file;
                            originalname := originalname file;
                            size := stored_size (fileSize MAX_FILE_SIZE) file |})
      end
  end.

(** *** transcriptionOptionsSchema *)

(** [z.string().optional().transform(val => val === 'true').default(d)] *)
Definition z_flag (default : string) (v : option string) : bool :=
  String.eqb (from_option Datatypes.id default v) "true".

Definition z_model (v : option string) : option Model :=
  match v with
  | None => Some fal_whisper
  | Some s => List.find (fun m => String.eqb (model_name m) s) [fal_whisper; google; azure]
  end.

Definition transcriptionOptionsSchema_parse (form : Form)
  : option TranscriptionOptions :=
  match z_model (f_model form) with
  | Some m => Some {| language := f_language form;
                      model := m;
                      timestamp := z_flag "true" (f_timestamp form);
                      speakerDiarization := z_flag "false" (f_speakerDiarization form) |}
  | None => None
  end.

(** *** SpeechToTextService *)

Definition new_SpeechToTextService (FAL_KEY : option string) : Thrown + unit :=
  match FAL_KEY with
  | Some (String _ _) => inr tt
  | _ => inl (ThrownError "FAL_KEY environment variable is required")
  end.

(** [text.split(' ').length] *)
Fixpoint count_spaces (s : string) : Z :=
  match s with
  | EmptyString => 0
  | String c rest => (if Ascii.eqb c " "%char then 1 else 0) + count_spaces rest
  end.

Definition transcribeWithFalWhisper (remote : Remote) (file : File)
  : Eff Event TranscriptionResult :=
  try_catch
    (emit (StorageUpload (originalname file)) ;;;
     audioUrl <- lift (storage_upload remote) ;;
     emit (Subscribe audioUrl) ;;;
     data <- lift (subscribe remote audioUrl) ;;
     ret {| text := w_text data;
            t_language := head (inferred_languages data);
            t_confidence := Some (9 # 10)%Q;
            segments :=
              match chunks data with
              | [] => None
              | cs => Some (map (fun c => {| s_text := c_text c;
                                             s_start := c_from c;
                                             s_end := c_to c;
                                             s_speaker := c_speaker c |}) cs)
              end;
            t_model := "fal-whisper";
            wordCount := count_spaces (w_text data) + 1 |})%eff
    (fun error =>
       throw (ThrownError ("Fal.ai Whisper transcription failed: "
                           +:+ message_or "Unknown error" error))).

Definition placeholder (m : Model) (text : string) : TranscriptionResult :=
  {| text := text; t_language := None; t_confidence := None;
     segments := None; t_model := model_name m; wordCount := 6 |}.

Definition transcribe (remote : Remote) (file : File)
    (options : TranscriptionOptions) : Eff Event TranscriptionResult :=
  try_catch
    match model options with
    | fal_whisper => transcribeWithFalWhisper remote file
    | google => ret (placeholder google "Google Speech-to-Text integration coming soon...")
    | azure => ret (placeholder azure "Azure Speech Services integration coming soon...")
    end
    (fun error =>
       throw (ThrownError ("Transcription failed: " +:+ message_or "Unknown error" error))).

(** *** POST /upload *)

(** The [catch] of the handler for an error that is no [ZodError]. *)
Definition upload_failure (error : Thrown) : Response :=
  match error with
  | ThrownError m =>
      if includes "file type" m then error_response 400 m
      else if includes "File too large" m then error_response 400 "File size too large"
      else error_response 500 "Transcription failed"
  | ThrownOther => error_response 500 "Transcription failed"
  end.

Definition json_of_segment (g : Segment) : Json :=
  JObject
    ([("text", JString (s_text g));
      ("start", JNumber (s_start g));
      ("end", JNumber (s_end g))]
     ++ from_option (fun k => [("speaker", JString k)]) [] (s_speaker g)).

(** The members in the order the service writes them: the object literal
    first, then the language and the segments it adds. *)
Definition json_of_transcription (r : TranscriptionResult) : Json :=
  JObject
    ([("text", JString (text r));
      ("model", JString (t_model r));
      ("wordCount", JNumber (inject_Z (wordCount r)))]
     ++ from_option (fun c => [("confidence", JNumber c)]) [] (t_confidence r)
     ++ from_option (fun l => [("language", JString l)]) [] (t_language r)
     ++ from_option (fun gs => [("segments", JArray (map json_of_segment gs))]) []
          (segments r)).

(** The route handler, entered with [req.file] as multer left it. *)
Definition upload_handler (FAL_KEY : option string) (remote : Remote)
    (now : string) (file : option File) (form : Form)
  : Response * list Event :=
  match file with
  | None => (error_response 400 "No audio file provided", [])
  | Some file =>
      match transcriptionOptionsSchema_parse form with
      | None => (error_response 400 "Invalid options provided", [])
      | Some options =>
          match new_SpeechToTextService FAL_KEY with
          | inl e => (upload_failure e, [])
          | inr _ =>
              match transcribe remote file options [] with
              | (inl e, log) => (upload_failure e, log)
              | (inr transcriptionResult, log) =>
                  ({| status := 200;
                      body := JObject
                        [("success", JBool true);
                         ("transcription", json_of_transcription transcriptionResult);
                         ("metadata", JObject
                            [("fileName", JString (originalname file));
                             ("fileSize", JNumber (inject_Z (size file)));
                             ("mimeType", JString (mimetype file));
                             ("model", JString (model_name (model options)));
                             ("timestamp", JString now)])] |},
                   log)
              end
          end
      end
  end.

(** [router.post('/upload', upload.single('audio'), handler)]: an error of
    the upload middleware goes to the error middleware; the handler runs
    only when the upload middleware calls [next()] without an error. *)
Definition post_upload (MAX_FILE_SIZE FAL_KEY : option string)
    (remote : Remote) (now : string)
    (part : option File) (form : Form)
  : Response * list Event :=
  match upload_single MAX_FILE_SIZE part with
  | inl err => (errorHandler err, [])
  | inr file => upload_handler FAL_KEY remote now file form
  end.

(** *** SpeechToTextService.validateAudioFile *)



End Transcription.

(* ================================================================== *)
(** ** src/routes/auth.ts: registration against the in-memory store *)
(* ================================================================== *)

Module Auth.

Import Http.

Record User : Type := {
  id : string;
  email : string;
  password : string;
  name : string;
  createdAt : Z
}.

Record RegisterData : Type := {
  v_email : string;
  v_password : string;
  v_name : string
}.

(** What the environment contributes to the second half of a registration:
    the outcome of [bcrypt.hash(password, 12)], the clock, the random
    suffix of the id, the signing secret, the configured expiry and the
    token [jwt.sign] makes of id, e-mail, secret and expiry. *)
Record RegisterEnv : Type := {
  hash : string -> Thrown + string;
  now : Z;
  suffix : string;
  JWT_SECRET : option string;
  JWT_EXPIRES_IN : option string;
  sign : string -> string -> string -> string -> Thrown + string
}.

Section Register.

(** zod's test of the e-mail format. *)
Variable isEmail : string -> bool.

(** [registerSchema.parse(req.body)] *)
Definition registerSchema_parse (reqBody : Json) : option RegisterData :=
  match z_object reqBody with
  | Some members =>
      match z_string (assoc "email" members),
            z_string_min 8 (assoc "password" members),
            z_string_min 2 (assoc "name" members) with
      | Some e, Some p, Some n =>
          if isEmail e
          then Some {| v_email := e; v_password := p; v_name := n |}
          else None
      | _, _, _ => None
      end
  | None => None
  end.

(** [generateToken] *)
Definition generateToken (env : RegisterEnv) (user : User) : Thrown + string :=
  match JWT_SECRET env with
  | Some (String c s) =>
      sign env (id user) (email user) (String c s) (env_or (JWT_EXPIRES_IN env) "24h")
  | _ => inl (ThrownError "JWT_SECRET environment variable is not set")
  end.

(** A handler is suspended at [await bcrypt.hash(...)], or has responded. *)
Inductive Progress : Type :=
| Responded (response : Response)
| AwaitingHash (validatedData : RegisterData).

(** The handler up to its [await]: validation and the lookup in [users]. *)
Definition register_begin (users : list User) (reqBody : Json) : Progress :=
  match registerSchema_parse reqBody with
  | None => Responded (error_response 400 "Validation failed")
  | Some validatedData =>
      match List.find (fun u => String.eqb (email u) (v_email validatedData)) users with
      | Some _ => Responded (error_response 400 "User with this email already exists")
      | None => AwaitingHash validatedData
      end
  end.

(** The handler from its [await] on, run against the store as it is when
    the hash arrives. *)
Definition register_resume (env : RegisterEnv) (users : list User)
    (validatedData : RegisterData) : list User * Response :=
  match hash env (v_password validatedData) with
  | inl _ => (users, error_response 500 "Registration failed")
  | inr hashedPassword =>
      let newUser :=
        {| id := "user_" +:+ pretty (now env) +:+ "_" +:+ suffix env;
           email := v_email validatedData;
           password := hashedPassword;
           name := v_name validatedData;
           createdAt := now env |} in
      let users := users ++ [newUser] in
      match generateToken env newUser with
      | inl _ => (users, error_response 500 "Registration failed")
      | inr token =>
          (users,
           {| status := 201;
              body := JObject
                [("message", JString "User registered successfully");
                 ("token", JString token);
                 ("user", JObject [("id", JString (id newUser));
                                   ("email", JString (email newUser));
                                   ("name", JString (name newUser))])] |})
      end
  end.

(** A registration that nothing interleaves with. *)
Definition register (env : RegisterEnv) (users : list User) (reqBody : Json)
  : list User * Response :=
  match register_begin users reqBody with
  | Responded response => (users, response)
  | AwaitingHash validatedData => register_resume env users validatedData
  end.

(** *** The event loop

    The process runs one handler at a time, from a request's arrival or a
    resumption up to the next suspension. *)
Record State : Type := {
  users : list User;
  suspended : list RegisterData;
  responses : list Response
}.

Inductive Turn : Type :=
| Arrive (reqBody : Json)
| Resume (k : nat) (env : RegisterEnv).

Definition turn (st : State) (t : Turn) : State :=
  match t with
  | Arrive reqBody =>
      match register_begin (users st) reqBody with
      | Responded r =>
          {| users := users st; suspended := suspended st;
             responses := responses st ++ [r] |}
      | AwaitingHash v =>
          {| users := users st; suspended := suspended st ++ [v];
             responses := responses st |}
      end
  | Resume k env =>
      match suspended st !! k with
      | Some v =>
          let '(us, r) := register_resume env (users st) v in
          {| users := us; suspended := delete k (suspended st);
             responses := responses st ++ [r] |}
      | None => st
      end
  end.

Definition run (st : State) (turns : list Turn) : State :=
  fold_left turn turns st.

Definition initial : State :=
  {| users := []; suspended := []; responses := [] |}.

End Register.

(** The uniqueness invariant of the store. *)
Definition unique_emails (us : list User) : Prop := NoDup (map email us).

(** *** POST /login *)

Record LoginData : Type := {
  l_email : string;
  l_password : string
}.

(** What the environment contributes to a login: the outcome of
    [bcrypt.compare(password, hash)] and what the token is made from. *)
Record LoginEnv : Type := {
  compare : string -> string -> Thrown + bool;
  issuer : RegisterEnv
}.

Section Login.

Variable isEmail : string -> bool.

(** [loginSchema.parse(req.body)] *)
Definition loginSchema_parse (reqBody : Json) : option LoginData :=
  match z_object reqBody with
  | Some members =>
      match z_string (assoc "email" members),
            z_string_min 1 (assoc "password" members) with
      | Some e, Some p =>
          if isEmail e then Some {| l_email := e; l_password := p |} else None
      | _, _ => None
      end
  | None => None
  end.

(** [router.post('/login', ...)].  The handler reads the store once, before
    it suspends for the comparison, and does not write to it. *)
Definition login (env : LoginEnv) (users : list User) (reqBody : Json) : Response :=
  match loginSchema_parse reqBody with
  | None => error_response 400 "Validation failed"
  | Some validatedData =>
      match List.find (fun u => String.eqb (email u) (l_email validatedData)) users with
      | None => error_response 401 "Invalid email or password"
      | Some user =>
          match compare env (l_password validatedData) (password user) with
          | inl _ => error_response 500 "Login failed"
          | inr false => error_response 401 "Invalid email or password"
          | inr true =>
              match generateToken (issuer env) user with
              | inl _ => error_response 500 "Login failed"
              | inr token =>
                  {| status := 200;
                     body := JObject
                       [("message", JString "Login successful");
                        ("token", JString token);
                        ("user", JObject [("id", JString (id user));
                                          ("email", JString (email user));
                                          ("name", JString (name user))])] |}
              end
          end
      end
  end.

End Login.

End Auth.

(* ================================================================== *)
(** ** The server entry point: rate limiting *)
(* ================================================================== *)

Module Server.

Import Http.

(** [windowMs].  The runtime computes on doubles: what [parseInt] returns
    and the two products are exact while below 2^53 in magnitude, and so
    is this; beyond that the runtime rounds, which is not modelled. *)
Definition windowMs (RATE_LIMIT_WINDOW_MINUTES : option string) : Z :=
  num_or (parseInt (env_or RATE_LIMIT_WINDOW_MINUTES "1")) 1 * 60 * 1000.

(** [max], exact below 2^53 in magnitude like [windowMs]. *)
Definition max (RATE_LIMIT_MAX_REQUESTS : option string) : Z :=
  num_or (parseInt (env_or RATE_LIMIT_MAX_REQUESTS "5")) 5.

Definition message : string :=
  "Too many requests from this IP, please try again later.".

(** The counter kept for one client. *)
Record Window : Type := {
  hits : Z;
  resetTime : Z
}.

Inductive Verdict : Type :=
| Next
| Reply (status : Z) (text : string).

(** Modelled from the spec: the middleware [rateLimit] builds comes from
    the express-rate-limit package, which is not among the sources.  By the
    specification it counts the requests of each client IP in a fixed
    window of [windowMs] that opens with the client's first request; a
    request beyond [max] in the window is answered 429 with the fixed
    message and goes no further; once the window has elapsed the count
    starts afresh. *)
Definition rateLimit (windowMs max : Z) (store : gmap string Window)
    (ip : string) (now : Z) : gmap string Window * Verdict :=
  let current :=
    match store !! ip with
    | Some w => if now <? resetTime w then w
                else {| hits := 0; resetTime := now + windowMs |}
    | None => {| hits := 0; resetTime := now + windowMs |}
    end in
  let counted := {| hits := hits current + 1; resetTime := resetTime current |} in
  (<[ip := counted]> store,
   if hits counted <=? max then Next else Reply 429 message).



End Server.

(* ================================================================== *)
(** ** The browser script: escaping for the XML download *)
(* ================================================================== *)

Module Frontend.

(** [s.replace(/c/g, by)] for a single character [c] *)
Fixpoint replace_all (c : ascii) (by_ : string) (s : string) : string :=
  match s with
  | EmptyString => EmptyString
  | String a rest =>
      if Ascii.eqb a c then by_ +:+ replace_all c by_ rest
      else String a (replace_all c by_ rest)
  end.

Definition quot : ascii := ascii_of_nat 34.
Definition apos : ascii := ascii_of_nat 39.

(** The chain of five replacements applied to a string. *)
Definition escape (text : string) : string :=
  replace_all apos "&apos;"
    (replace_all quot "&quot;"
       (replace_all ">" "&gt;"
          (replace_all "<" "&lt;"
             (replace_all "&" "&amp;" text)))).

(** [escapeXML(text)]: a string is escaped; anything else is converted by
    [String(text || '')] and not escaped.  [String_] is the runtime's
    conversion; [None] is [undefined]. *)
Definition escapeXML (String_ : Json -> string) (text : option Json) : string :=
  match text with
  | Some (JString s) => escape s
  | Some v => if truthy v then String_ v else ""
  | None => ""
  end.

End Frontend.

(* ================================================================== *)
(** ** What the specification says, as definitions *)
(* ================================================================== *)

Module Spec.

Import DataExtraction.

Section Batch.

Variable JSON_parse : string -> Thrown + Json.
Variable rev : Revision.

(** The failure result of the extraction adapter for an error. *)
Definition failure (env : CallEnv) (request : ExtractionRequest) (e : Thrown)
  : ExtractionResult :=
  {| success := false;
     extractedData :=
       JObject [("error", JString (message_or "Unknown extraction error" e))];
     confidence := JNumber 0;
     r_extractionType := extractionType request;
     processingTime := endTime env - startTime env;
     tokens := None |}.

(** The request [extractBatch] makes for one item. *)
Definition request_of (request : BatchExtractionRequest) (item : Item)
  : ExtractionRequest :=
  {| transcription := text item;
     extractionType := b_extractionType request;
     customSchema := b_customSchema request;
     userId := b_userId request |}.

(** The result of one extraction, run on its own.  ([extractData] never
    throws, see [extractData_total]; the second branch is there for the
    function to be total.) *)
Definition result_of (env : CallEnv) (request : ExtractionRequest)
  : ExtractionResult :=
  match extractData JSON_parse rev env request [] with
  | (inr r, _) => r
  | (inl e, _) => failure env request e
  end.

(** The entry of one item: its id and the result of its own extraction;
    no error string next to it. *)
Definition entry (request : BatchExtractionRequest) (env : CallEnv) (item : Item)
  : BatchExtractionResult :=
  {| r_id := id item;
     result := result_of env (request_of request item);
     error := None |}.

(** The remote calls one item issues when its extraction starts. *)
Definition calls (request : BatchExtractionRequest) (env : CallEnv) (item : Item)
  : list Event :=
  snd (extractData JSON_parse rev env (request_of request item) []).

(** Chunks of three consecutive items: chunk [c] holds the items at
    positions [3c], [3c+1], [3c+2], as far as they exist. *)
Definition chunk_count (n : nat) : nat := ((n + 2) / 3)%nat.

Definition chunk (items : list Item) (c : nat) : list Item :=
  take 3 (drop (3 * c) items).

Definition chunks (items : list Item) : list (list Item) :=
  map (chunk items) (seq 0 (chunk_count (length items))).

(** The sizes of the chunks of [n] items: threes, then what is left. *)
Definition chunk_sizes (n : nat) : list nat :=
  (replicate (n / 3) 3 ++ (if n mod 3 =? 0 then [] else [n mod 3]))%nat.

(** One chunk in the trace: its items are started left to right, each
    issuing its remote call; then all of them settle, in the order the
    environment decides; then, unless the chunk is the last one, the
    orchestrator sleeps for a second. *)
Definition chunk_block (request : BatchExtractionRequest) (benv : BatchEnv)
    (c : nat) : list BatchEvent :=
  let items := transcriptions request in
  let i := (3 * c)%nat in
  concat (imap (fun j item =>
                  Started (i + j)
                    :: map (fun ev => match ev with
                                      | RemoteCall p => Called (i + j) p
                                      end)
                           (calls request (callEnv benv (i + j)%nat) item))
               (chunk items c))
  ++ map (fun j => Settled (i + j)) (settleOrder benv i (length (chunk items c)))
  ++ (if (c + 1 <? chunk_count (length items))%nat then [Delay 1000] else []).

Definition expected_trace (request : BatchExtractionRequest) (benv : BatchEnv)
  : list BatchEvent :=
  concat (map (chunk_block request benv)
              (seq 0 (chunk_count (length (transcriptions request))))).

(** The promises of every chunk settle, each once, in some order. *)
Definition settles (benv : BatchEnv) : Prop :=
  forall i n, Permutation (settleOrder benv i n) (seq 0 n).

(** The stage of the run an event belongs to: the items of chunk [c] are
    started in stage [2c] and settle in stage [2c + 1]; item [k] is in
    chunk [k / 3].  A delay belongs to no item. *)
Definition stage (ev : BatchEvent) : option nat :=
  match ev with
  | Started k | Called k _ => Some (2 * (k / 3))%nat
  | Settled k => Some (2 * (k / 3) + 1)%nat
  | Delay _ => None
  end.

(** The events of a trace happen stage after stage. *)
Definition in_stage_order (trace : list BatchEvent) : Prop :=
  forall p q e1 e2 s1 s2,
    trace !! p = Some e1 -> trace !! q = Some e2 ->
    stage e1 = Some s1 -> stage e2 = Some s2 ->
    (s1 < s2)%nat -> (p < q)%nat.

Definition is_delay (ev : BatchEvent) : bool :=
  match ev with
  | Delay _ => true
  | _ => false
  end.

End Batch.

(** Whether [buildExtractionPrompt] builds a prompt: every type but
    [custom] without a schema, and but [damage_assessment] in the earlier
    revision. *)
Definition prompt_builds (rev : DataExtraction.Revision)
    (t : DataExtraction.ExtractionType)
    (schema : option DataExtraction.CustomSchema) : bool :=
  match t, schema, rev with
  | DataExtraction.custom, None, _ => false
  | DataExtraction.damage_assessment, _, DataExtraction.PerType => false
  | _, _, _ => true
  end.


(** Counting events of one kind. *)
Definition is_started (ev : DataExtraction.BatchEvent) : bool :=
  match ev with DataExtraction.Started _ => true | _ => false end.

Definition is_called (ev : DataExtraction.BatchEvent) : bool :=
  match ev with DataExtraction.Called _ _ => true | _ => false end.

Definition is_settled (ev : DataExtraction.BatchEvent) : bool :=
  match ev with DataExtraction.Settled _ => true | _ => false end.

Definition count (kind : DataExtraction.BatchEvent -> bool)
    (trace : list DataExtraction.BatchEvent) : nat :=
  length (List.filter kind trace).

(** The item, by its position in the batch, that an event of one kind is
    about; [omap] over a trace then lists the items started, called for
    and settled, in the order of the trace. *)
Definition started_item (ev : DataExtraction.BatchEvent) : option nat :=
  match ev with DataExtraction.Started k => Some k | _ => None end.

Definition called_item (ev : DataExtraction.BatchEvent) : option nat :=
  match ev with DataExtraction.Called k _ => Some k | _ => None end.

Definition settled_item (ev : DataExtraction.BatchEvent) : option nat :=
  match ev with DataExtraction.Settled k => Some k | _ => None end.

(** The field names a prompt enumerates: of every line that starts with
    a dash and a space, what stands before the colon. *)
Fixpoint lines_of (current : string) (s : string) : list string :=
  match s with
  | EmptyString => [String.rev current]
  | String c rest =>
      if Ascii.eqb c (ascii_of_nat 10)
      then String.rev current :: lines_of EmptyString rest
      else lines_of (String c current) rest
  end.

Fixpoint before_colon (s : string) : string :=
  match s with
  | EmptyString => EmptyString
  | String c rest => if Ascii.eqb c ":" then EmptyString else String c (before_colon rest)
  end.

Definition prompt_fields (prompt : string) : list string :=
  omap (fun line => match line with
                    | String "-" (String " " rest) => Some (before_colon rest)
                    | _ => None
                    end)
       (lines_of EmptyString prompt).

(** What one character becomes in escaped text. *)
Definition escape_char (c : ascii) : string :=
  if Ascii.eqb c "&" then "&amp;"
  else if Ascii.eqb c "<" then "&lt;"
  else if Ascii.eqb c ">" then "&gt;"
  else if Ascii.eqb c Frontend.quot then "&quot;"
  else if Ascii.eqb c Frontend.apos then "&apos;"
  else String c EmptyString.

Fixpoint escape_each (s : string) : string :=
  match s with
  | EmptyString => EmptyString
  | String c rest => escape_char c +:+ escape_each rest
  end.

(** The characters of a string. *)
Fixpoint chars (s : string) : list ascii :=
  match s with
  | EmptyString => []
  | String c rest => c :: chars rest
  end.

(** [s] without its first [n] characters. *)
Fixpoint drop_chars (n : nat) (s : string) : string :=
  match n, s with
  | S n, String _ rest => drop_chars n rest
  | _, _ => s
  end.

(** Reading escaped text back: the character its first piece stands for,
    and the text after that piece.  The five entities are told apart by
    their second and third characters. *)
Definition read_back (s : string) : option (ascii * string) :=
  match s with
  | EmptyString => None
  | String c rest =>
      if Ascii.eqb c "&" then
        match rest with
        | String x (String y _) =>
            if Ascii.eqb x "l" then Some ("<"%char, drop_chars 3 rest)
            else if Ascii.eqb x "g" then Some (">"%char, drop_chars 3 rest)
            else if Ascii.eqb x "q" then Some (Frontend.quot, drop_chars 5 rest)
            else if Ascii.eqb y "m" then Some ("&"%char, drop_chars 4 rest)
            else Some (Frontend.apos, drop_chars 5 rest)
        | _ => None
        end
      else Some (c, rest)
  end.

(** The characters [escape] replaces. *)
Definition is_markup (c : ascii) : bool :=
  Ascii.eqb c "<" || Ascii.eqb c ">"
  || Ascii.eqb c Frontend.quot || Ascii.eqb c Frontend.apos.

(** Registrations that run one after the other, each to its end. *)
Definition register_all (isEmail : string -> bool)
    (users : list Auth.User) (requests : list (Auth.RegisterEnv * Json))
  : list Auth.User :=
  fold_left (fun us request =>
               fst (Auth.register isEmail (fst request) us (snd request)))
            requests users.

End Spec.

(* ================================================================== *)
(** ** Sample inputs *)
(* ================================================================== *)

Module Sample.

Import DataExtraction.

(** Three provider outputs: an object with a field and a confidence of
    one half, an object whose confidence is zero, and text that is no
    JSON. *)
Definition text_half : string :=
  "{" +:+ dq +:+ "vin" +:+ dq +:+ ": " +:+ dq +:+ "1G1" +:+ dq +:+ ", "
  +:+ dq +:+ "confidence" +:+ dq +:+ ": 0.5}".

Definition text_zero : string :=
  "{" +:+ dq +:+ "confidence" +:+ dq +:+ ": 0}".

Definition text_broken : string := "{oops".

(** [JSON.parse] on these three texts. *)
Definition parse (s : string) : Thrown + Json :=
  if String.eqb s text_half
  then inr (JObject [("vin", JString "1G1"); ("confidence", JNumber (1 # 2))])
  else if String.eqb s text_zero
  then inr (JObject [("confidence", JNumber 0)])
  else inl (ThrownError "Unexpected token o in JSON at position 1").

Definition answer (text : string) : ChatCompletion :=
  {| choices := [ {| message := Some {| content := Some text |} |} ];
     usage := Some {| prompt_tokens := Some 120; completion_tokens := Some 30;
                      total_tokens := Some 150 |} |}.

(** A call the provider answers, one it answers with a zero confidence,
    and one it rejects. *)
Definition env_ok : CallEnv :=
  {| startTime := 1000; respond := fun _ => inr (answer text_half); endTime := 1850 |}.

Definition env_zero : CallEnv :=
  {| startTime := 1000; respond := fun _ => inr (answer text_zero); endTime := 1850 |}.

Definition env_down : CallEnv :=
  {| startTime := 1000;
     respond := fun _ => inl (ThrownError "503 service unavailable");
     endTime := 1100 |}.

Definition env_broken : CallEnv :=
  {| startTime := 1000; respond := fun _ => inr (answer text_broken); endTime := 1850 |}.

Definition transcript : string := "Customer brought in a 2019 Silverado".

Definition request (t : ExtractionType) (schema : option CustomSchema)
  : ExtractionRequest :=
  {| transcription := transcript; extractionType := t;
     customSchema := schema; userId := "test-user" |}.

Definition empty_schema : CustomSchema := {| fields := []; description := "" |}.

(** Seven items; the provider rejects the call of the fourth; within a
    chunk the promises settle last to first. *)
Definition seven : BatchExtractionRequest :=
  {| transcriptions :=
       map (fun n => {| id := n; text := transcript |})
           ["1"; "2"; "3"; "4"; "5"; "6"; "7"];
     b_extractionType := repair_details;
     b_customSchema := None;
     b_userId := "test-user" |}.

(** Eleven items, one more than the router lets through. *)
Definition eleven : BatchExtractionRequest :=
  {| transcriptions :=
       map (fun n => {| id := n; text := transcript |})
           ["1"; "2"; "3"; "4"; "5"; "6"; "7"; "8"; "9"; "10"; "11"];
     b_extractionType := repair_details;
     b_customSchema := None;
     b_userId := "test-user" |}.

Definition fourth_fails : BatchEnv :=
  {| callEnv := fun k => if (k =? 3)%nat then env_down else env_ok;
     settleOrder := fun _ n => List.rev (seq 0 n) |}.

(** Request bodies of [POST /batch] with [n] items. *)
Definition batch_body (n : nat) : Json :=
  JObject
    [("transcriptions",
      JArray (replicate n (JObject [("id", JString "a");
                                    ("text", JString transcript)])));
     ("extractionType", JString "repair_details")].

(** An upload that is no audio, and one that is too large. *)
Definition text_file : Transcription.File :=
  {| Transcription.mimetype := "text/plain";
     Transcription.originalname := "notes.txt";
     Transcription.size := 12 |}.

Definition huge_file : Transcription.File :=
  {| Transcription.mimetype := "audio/wav";
     Transcription.originalname := "day.wav";
     Transcription.size := 50000001 |}.

Definition short_file : Transcription.File :=
  {| Transcription.mimetype := "audio/wav";
     Transcription.originalname := "day.wav";
     Transcription.size := 10 |}.

Definition form : Transcription.Form :=
  {| Transcription.f_language := None; Transcription.f_model := None;
     Transcription.f_timestamp := None; Transcription.f_speakerDiarization := None |}.

Definition whisper : Transcription.Remote :=
  {| Transcription.storage_upload := inr "https://storage.example/day.wav";
     Transcription.subscribe := fun _ =>
       inr {| Transcription.w_text := transcript;
              Transcription.inferred_languages := ["en"];
              Transcription.chunks := [] |} |}.

(** Two registrations of one e-mail address. *)
Definition isEmail (s : string) : bool := includes "@" s.

Definition register_body : Json :=
  JObject [("email", JString "pat@example.com");
           ("password", JString "correct horse");
           ("name", JString "Pat")].

Definition register_env (t : Z) (sfx : string) : Auth.RegisterEnv :=
  {| Auth.hash := fun p => inr ("$2a$12$" +:+ sfx);
     Auth.now := t;
     Auth.suffix := sfx;
     Auth.JWT_SECRET := Some "secret";
     Auth.JWT_EXPIRES_IN := None;
     Auth.sign := fun i e _ _ => inr ("jwt." +:+ i) |}.

(** A user stored under another password. *)
Definition stored_user : Auth.User :=
  {| Auth.id := "user_1700000000000_a1b2c3d4e";
     Auth.email := "pat@example.com";
     Auth.password := "$2a$12$a1b2c3d4e";
     Auth.name := "Pat";
     Auth.createdAt := 1700000000000 |}.

(** Logging in with the registered address and password; the comparison
    accepts the hash that [register_env] makes. *)
Definition login_env (sfx : string) : Auth.LoginEnv :=
  {| Auth.compare := fun p h => inr (String.eqb h ("$2a$12$" +:+ sfx));
     Auth.issuer := register_env 1700000100000 sfx |}.

Definition login_body : Json :=
  JObject [("email", JString "pat@example.com");
           ("password", JString "correct horse")].

End Sample.

(* ================================================================== *)
(** ** Properties of the extraction adapter *)
(* ================================================================== *)

Section ExtractData.

Import DataExtraction.

Variable JSON_parse : string -> Thrown + Json.
Variable rev : Revision.

(** The [catch] block returns, whatever was thrown. *)
Lemma extractData_catch_returns env request e log :
  extractData_catch env request e log = (inr (Spec.failure env request e), log).
Proof. reflexivity. Qed.

(** [extractData] either passes on the value of its [try] block or
    returns the failure result for what the block threw. *)
Lemma extractData_cases env request log :
  (exists r log', extractData_try JSON_parse rev env request log = (inr r, log')
                  /\ extractData JSON_parse rev env request log = (inr r, log'))
  \/ (exists e log', extractData_try JSON_parse rev env request log = (inl e, log')
                     /\ extractData JSON_parse rev env request log
                        = (inr (Spec.failure env request e), log')).
Proof.
  unfold extractData, try_catch.
  destruct (extractData_try JSON_parse rev env request log) as [[e | r] log'].
  - right. exists e, log'. split; [reflexivity | apply extractData_catch_returns].
  - left. exists r, log'. split; reflexivity.
Qed.

Lemma extractData_total env request log :
  exists r log', extractData JSON_parse rev env request log = (inr r, log').
Proof.
  destruct (extractData_cases env request log)
    as [(r & log' & _ & H) | (e & log' & _ & H)]; eauto.
Qed.

(** The value of the [try] block is a success. *)
Lemma extractData_try_success env request log r log' :
  extractData_try JSON_parse rev env request log = (inr r, log') ->
  success r = true.
Proof.
  unfold extractData_try, bind, lift, chat_completions_create, emit, throw, ret.
  destruct (buildExtractionPrompt _ _ _ _) as [e | p]; [discriminate |].
  cbn. destruct (respond env p) as [e | c]; [discriminate |].
  destruct (responseText_of c) as [[| a s] |]; try discriminate.
  destruct (JSON_parse _) as [e | d]; [discriminate |].
  destruct (get_own _ d) as [e | g]; [discriminate |].
  intros [= <- _]. reflexivity.
Qed.

(** The log only grows, and by remote calls of this request alone: the
    part added does not depend on the log the call starts from. *)
Lemma extractData_log env request log :
  extractData JSON_parse rev env request log
  = (fst (extractData JSON_parse rev env request []),
     log ++ snd (extractData JSON_parse rev env request [])).
Proof.
  unfold extractData, try_catch, extractData_try, extractData_catch,
    bind, lift, chat_completions_create, emit, throw, ret.
  destruct (buildExtractionPrompt _ _ _ _) as [e | p]; cbn.
  { by rewrite app_nil_r. }
  destruct (respond env p) as [e | c]; [reflexivity |].
  destruct (responseText_of c) as [[| a s] |]; try reflexivity.
  destruct (JSON_parse _) as [e | d]; [reflexivity |].
  destruct (get_own _ d) as [e | g]; reflexivity.
Qed.

(** The callback of the batch returns the item's entry. *)
Lemma processItem_entry request env item log :
  processItem JSON_parse rev request env item log
  = (inr (Spec.entry JSON_parse rev request env item),
     log ++ Spec.calls JSON_parse rev request env item).
Proof.
  unfold Spec.entry, Spec.result_of, Spec.calls, processItem, try_catch, bind, ret.
  fold (Spec.request_of request item).
  rewrite (extractData_log env (Spec.request_of request item) log).
  destruct (extractData_total env (Spec.request_of request item) [])
    as (r & log' & ->).
  reflexivity.
Qed.

End ExtractData.

(* ================================================================== *)
(** ** Properties of Promise.all *)
(* ================================================================== *)

Section PromiseAll.

Import DataExtraction.

Context {A : Type}.
Implicit Types (vs : list A) (values : list (option A)) (order seen : list nat).

Local Open Scope nat_scope.

(** Slots that are all filled hold the values in the order of the
    promises. *)
Lemma omap_filled vs values :
  (forall j, values !! j = Some <$> vs !! j) ->
  omap Datatypes.id values = vs.
Proof.
  revert values. induction vs as [| v vs IH]; intros values H.
  - destruct values as [| x values]; [reflexivity |].
    specialize (H 0). discriminate.
  - destruct values as [| x values].
    + specialize (H 0). discriminate.
    + pose proof (H 0) as H0. cbn in H0. injection H0 as ->.
      cbn. f_equal. apply IH. intros j. apply (H (S j)).
Qed.

(** The invariant of the settlement loop when every promise fulfils: the
    slots of the promises still to settle are empty, the others hold their
    values, and the count of outstanding promises is the number of
    notifications to come. *)
Lemma all_settle_fulfilled vs order :
  forall values seen,
    NoDup order ->
    (forall j, j ∈ order -> j < length vs /\ values !! j = Some None) ->
    (forall j, j ∉ order -> values !! j = Some <$> vs !! j) ->
    all_settle (map inr vs) values (length order) order seen
    = Some (inr vs, seen ++ order).
Proof.
  induction order as [| j order IH]; intros values seen Hnd Hempty Hfilled.
  - cbn. rewrite app_nil_r. do 3 f_equal.
    apply omap_filled. intros j. apply Hfilled. apply not_elem_of_nil.
  - apply NoDup_cons in Hnd as [Hj Hnd].
    cbn [all_settle length Nat.eqb].
    destruct (Hempty j) as [Hlt Hslot]; [left |].
    destruct (lookup_lt_is_Some_2 vs j Hlt) as [v Hv].
    change (map inr vs) with (inr (A := Thrown) <$> vs).
    rewrite list_lookup_fmap, Hv, Hslot. cbn.
    rewrite IH.
    + by rewrite <- app_assoc.
    + assumption.
    + intros k Hk. split; [apply Hempty; by right |].
      rewrite list_lookup_insert_ne.
      * apply Hempty. by right.
      * intros ->. contradiction.
    + intros k Hk. destruct (decide (k = j)) as [-> | Hne].
      * rewrite list_lookup_insert_eq by (by apply lookup_lt_Some in Hslot).
        by rewrite Hv.
      * rewrite list_lookup_insert_ne by congruence.
        apply Hfilled. intros [-> | Hin]%elem_of_cons; [congruence | contradiction].
Qed.

(** When every promise fulfils and each settles once, [Promise.all]
    fulfils with the values in the order of the promises, whatever the
    order of settlement, after the last notification. *)
Lemma Promise_all_fulfilled vs order :
  Permutation order (seq 0 (length vs)) ->
  Promise_all (map inr vs) order = Some (inr vs, order).
Proof.
  intros Hperm. unfold Promise_all.
  rewrite length_map.
  replace (length vs) with (length order) at 2
    by (by rewrite (Permutation_length Hperm), length_seq).
  apply (all_settle_fulfilled vs order (replicate (length vs) None) []).
  - rewrite Hperm. apply NoDup_seq.
  - intros j Hj. rewrite Hperm in Hj. apply elem_of_seq in Hj.
    split; [lia |]. apply lookup_replicate_2. lia.
  - intros j Hj. rewrite Hperm, elem_of_seq in Hj.
    rewrite (lookup_ge_None_2 vs j) by lia.
    apply lookup_replicate_None. lia.
Qed.

End PromiseAll.

(* ================================================================== *)
(** ** Properties of the batch orchestrator *)
(* ================================================================== *)

Section BatchLoop.

Import DataExtraction.

Variable JSON_parse : string -> Thrown + Json.
Variable rev : Revision.
Variable request : BatchExtractionRequest.
Variable benv : BatchEnv.

Local Open Scope nat_scope.

Local Abbreviation items := (transcriptions request).
Local Abbreviation entry_at k := (Spec.entry JSON_parse rev request (callEnv benv k)).

Lemma chunk_count_lt n c : c < Spec.chunk_count n <-> 3 * c < n.
Proof.
  unfold Spec.chunk_count.
  pose proof (Nat.div_mod_eq (n + 2) 3) as Hdiv.
  pose proof (Nat.mod_upper_bound (n + 2) 3) as Hmod.
  lia.
Qed.

Lemma chunk_count_le n : Spec.chunk_count n <= n.
Proof.
  destruct (decide (Spec.chunk_count n <= n)) as [| Hgt]; [assumption |].
  assert (H : n < Spec.chunk_count n) by lia.
  apply chunk_count_lt in H. lia.
Qed.

Lemma imap_imap {X Y Z : Type} (f : nat -> Y -> Z) (g : nat -> X -> Y) l :
  imap f (imap g l) = imap (fun j x => f j (g j x)) l.
Proof.
  revert f g. induction l as [| x l IH]; intros f g; [reflexivity |].
  cbn. f_equal. apply IH.
Qed.

(** Starting the items of a chunk yields, per item, its entry and its
    remote calls. *)
Lemma dispatch_runs i batch :
  dispatch JSON_parse rev request benv i batch
  = imap (fun j item =>
            (inr (entry_at (i + j) item),
             Spec.calls JSON_parse rev request (callEnv benv (i + j)) item))
         batch.
Proof.
  unfold dispatch. apply imap_ext. intros j item _.
  apply (processItem_entry JSON_parse rev request _ item []).
Qed.

Lemma dispatch_values i batch :
  map fst (dispatch JSON_parse rev request benv i batch)
  = map inr (imap (fun j item => entry_at (i + j) item) batch).
Proof.
  rewrite dispatch_runs.
  change (fst <$> imap (fun j item =>
            (inr (entry_at (i + j) item) : Thrown + BatchExtractionResult,
             Spec.calls JSON_parse rev request (callEnv benv (i + j)) item)) batch
          = inr <$> imap (fun j item => entry_at (i + j) item) batch).
  rewrite !fmap_imap. apply imap_ext. reflexivity.
Qed.

Lemma dispatch_trace i batch :
  dispatch_events i (dispatch JSON_parse rev request benv i batch)
  = concat (imap (fun j item =>
                    Started (i + j)
                      :: map (fun ev => match ev with
                                        | RemoteCall p => Called (i + j) p
                                        end)
                             (Spec.calls JSON_parse rev request
                                (callEnv benv (i + j)) item))
                 batch).
Proof.
  rewrite dispatch_runs. unfold dispatch_events. f_equal.
  rewrite imap_imap. apply imap_ext. reflexivity.
Qed.

(** The entries of the items from position [i] on split into those of the
    chunk at [i] and those from [i + 3] on. *)
Lemma entries_split i :
  imap (fun j item => entry_at (i + j) item) (take 3 (drop i items))
  ++ imap (fun j item => entry_at (i + 3 + j) item) (drop (i + 3) items)
  = imap (fun j item => entry_at (i + j) item) (drop i items).
Proof.
  rewrite <- (take_drop 3 (drop i items)) at 2.
  rewrite imap_app, drop_drop. f_equal.
  apply imap_ext. intros j item Hj.
  apply lookup_lt_Some in Hj. rewrite !length_drop in Hj.
  rewrite length_take, length_drop.
  do 2 f_equal. lia.
Qed.

(** The loop, entered at the start of chunk [c] with [m] chunks to go. *)
Lemma batch_loop_from (Hsettles : Spec.settles benv) :
  forall m c fuel results trace,
    Spec.chunk_count (length items) = c + m ->
    m < fuel ->
    batch_loop JSON_parse rev request benv fuel (3 * c) results trace
    = Some (inr (results
                 ++ imap (fun j item => entry_at (3 * c + j) item)
                         (drop (3 * c) items)),
            trace ++ concat (map (Spec.chunk_block JSON_parse rev request benv)
                                 (seq c m))).
Proof.
  induction m as [| m IH]; intros c fuel results trace Hcount Hfuel;
    (destruct fuel as [| fuel]; [lia |]); cbn [batch_loop].
  - assert (Hge : length items <= 3 * c).
    { destruct (decide (length items <= 3 * c)) as [| Hlt]; [assumption |].
      assert (H : c < Spec.chunk_count (length items))
        by (apply chunk_count_lt; lia).
      lia. }
    rewrite (proj2 (Nat.ltb_ge _ _) Hge).
    rewrite drop_ge by assumption. cbn. by rewrite !app_nil_r.
  - assert (Hlt : 3 * c < length items) by (apply chunk_count_lt; lia).
    rewrite (proj2 (Nat.ltb_lt _ _) Hlt).
    unfold maxConcurrent.
    rewrite dispatch_values, dispatch_trace.
    rewrite Promise_all_fulfilled
      by (rewrite length_imap; apply Hsettles).
    replace (3 * c + 3) with (3 * S c) by lia.
    assert (Hpace : (3 * S c <? length items) = (c + 1 <? Spec.chunk_count (length items))).
    { destruct (decide (S c < Spec.chunk_count (length items))) as [Hc | Hc].
      - rewrite (proj2 (Nat.ltb_lt (c + 1) _)) by lia.
        apply Nat.ltb_lt. by apply chunk_count_lt.
      - rewrite (proj2 (Nat.ltb_ge (c + 1) _)) by lia.
        apply Nat.ltb_ge.
        destruct (decide (length items <= 3 * S c)) as [| Hn]; [assumption |].
        exfalso. apply Hc. apply chunk_count_lt. lia. }
    assert (Hblock :
      forall tr,
        (if 3 * S c <? length items
         then ((tr ++ concat (imap (fun j item =>
                    Started (3 * c + j)
                      :: map (fun ev => match ev with
                                        | RemoteCall p => Called (3 * c + j) p
                                        end)
                             (Spec.calls JSON_parse rev request
                                (callEnv benv (3 * c + j)) item))
                 (take 3 (drop (3 * c) items))))
               ++ map (fun j => Settled (3 * c + j))
                      (settleOrder benv (3 * c) (length (take 3 (drop (3 * c) items)))))
              ++ [Delay 1000%Z]
         else (tr ++ concat (imap (fun j item =>
                    Started (3 * c + j)
                      :: map (fun ev => match ev with
                                        | RemoteCall p => Called (3 * c + j) p
                                        end)
                             (Spec.calls JSON_parse rev request
                                (callEnv benv (3 * c + j)) item))
                 (take 3 (drop (3 * c) items))))
               ++ map (fun j => Settled (3 * c + j))
                      (settleOrder benv (3 * c) (length (take 3 (drop (3 * c) items)))))
        = tr ++ Spec.chunk_block JSON_parse rev request benv c).
    { intros tr. unfold Spec.chunk_block, Spec.chunk. rewrite Hpace.
      destruct (c + 1 <? Spec.chunk_count (length items));
        rewrite <- ?app_assoc; [reflexivity | by rewrite app_nil_r]. }
    rewrite Hblock.
    rewrite IH by lia.
    f_equal. f_equal.
    + f_equal. rewrite <- app_assoc. f_equal.
      replace (3 * S c) with (3 * c + 3) by lia.
      apply entries_split.
    + cbn [seq map concat]. by rewrite <- app_assoc.
Qed.

(** The batch, under an environment in which every promise settles. *)
Lemma extractDataBatch_runs (Hsettles : Spec.settles benv) :
  extractDataBatch JSON_parse rev request benv
  = Some (inr (imap (fun k item => entry_at k item) items),
          Spec.expected_trace JSON_parse rev request benv).
Proof.
  unfold extractDataBatch.
  change 0 with (3 * 0) at 1.
  rewrite (batch_loop_from Hsettles (Spec.chunk_count (length items)) 0).
  - reflexivity.
  - reflexivity.
  - pose proof (chunk_count_le (length items)). lia.
Qed.

End BatchLoop.

(* ================================================================== *)
(** ** The batch never rejects, under any order of settlement *)
(* ================================================================== *)

Section NoRejection.

Import DataExtraction.

Local Open Scope nat_scope.

(** Promises that all fulfil with values satisfying [P]: [Promise.all]
    does not reject, and fulfils, if it does, with such values only. *)
Lemma all_settle_values {A : Type} (P : A -> Prop) (promises : list (Thrown + A)) :
  Forall (fun p => exists v, p = inr v /\ P v) promises ->
  forall order values remaining seen,
    Forall (from_option P True) values ->
    match all_settle promises values remaining order seen with
    | Some (inr vs, _) => Forall P vs
    | Some (inl _, _) => False
    | None => True
    end.
Proof.
  intros Hp. induction order as [| j order IH]; intros values remaining seen Hv;
    cbn [all_settle]; destruct (remaining =? 0) eqn:Hr.
  1, 3: (clear -Hv; induction Hv as [| [v |] values Hx Hv IH]; cbn;
         [constructor | constructor; assumption | assumption]).
  - exact I.
  - destruct (promises !! j) as [[e | v] |] eqn:Hj;
      destruct (values !! j) as [[w |] |] eqn:Hs; try (by apply IH).
    + destruct (Forall_lookup_1 _ _ _ _ Hp Hj) as (v & Hv' & _). discriminate.
    + apply IH. apply Forall_insert; [assumption |].
      destruct (Forall_lookup_1 _ _ _ _ Hp Hj) as (v' & [= <-] & HP). exact HP.
Qed.

Variable JSON_parse : string -> Thrown + Json.
Variable rev : Revision.
Variable request : BatchExtractionRequest.
Variable benv : BatchEnv.

Lemma batch_loop_no_error :
  forall fuel i results trace,
    Forall (fun e => error e = None) results ->
    match batch_loop JSON_parse rev request benv fuel i results trace with
    | Some (inr rs, _) => Forall (fun e => error e = None) rs
    | Some (inl _, _) => False
    | None => True
    end.
Proof.
  induction fuel as [| fuel IH]; intros i results trace Hres; cbn [batch_loop];
    [exact I |].
  destruct (i <? length (transcriptions request)); [| assumption].
  set (batch := take maxConcurrent (drop i (transcriptions request))).
  pose proof (all_settle_values (fun e => error e = None)
                (map fst (dispatch JSON_parse rev request benv i batch))) as Hall.
  unfold Promise_all.
  specialize (Hall ltac:(
    rewrite dispatch_values; apply Forall_forall; intros p Hin;
    apply list_elem_of_In, in_map_iff in Hin as (e & <- & Hin);
    exists e; split; [reflexivity |];
    apply list_elem_of_In, elem_of_lookup_imap in Hin as (j & item & -> & _);
    reflexivity)).
  specialize (Hall (settleOrder benv i (length batch))
                (replicate (length (map fst (dispatch JSON_parse rev request benv i batch))) None)
                (length (map fst (dispatch JSON_parse rev request benv i batch))) []
                ltac:(apply Forall_replicate; exact I)).
  destruct (all_settle _ _ _ _ _) as [[[e | batchResults] seen] |];
    [contradiction | | exact I].
  apply IH. apply Forall_app. split; assumption.
Qed.

End NoRejection.

(* ================================================================== *)
(** ** The shape of the batch trace *)
(* ================================================================== *)

Section Trace.

Import DataExtraction.

Variable JSON_parse : string -> Thrown + Json.
Variable rev : Revision.
Variable request : BatchExtractionRequest.
Variable benv : BatchEnv.

Local Open Scope nat_scope.

Lemma filter_none {X : Type} (p : X -> bool) (l : list X) :
  Forall (fun x => p x = false) l -> List.filter p l = [].
Proof.
  induction 1 as [| x l Hx _ IH]; [reflexivity |]. cbn. by rewrite Hx.
Qed.

(** A chunk sleeps once, unless it is the last. *)
Lemma delays_of_block c :
  length (List.filter Spec.is_delay (Spec.chunk_block JSON_parse rev request benv c))
  = if c + 1 <? Spec.chunk_count (length (transcriptions request)) then 1 else 0.
Proof.
  unfold Spec.chunk_block. rewrite !List.filter_app, !length_app.
  rewrite (filter_none Spec.is_delay (concat _)).
  - rewrite (filter_none Spec.is_delay (map _ _)).
    + by destruct (c + 1 <? _).
    + apply Forall_forall. intros ev Hin.
      apply list_elem_of_In, in_map_iff in Hin as (j & <- & _). reflexivity.
  - apply Forall_concat, Forall_forall. intros evs Hin.
    apply elem_of_lookup_imap in Hin as (j & item & -> & _).
    constructor; [reflexivity |].
    apply Forall_forall. intros ev Hin.
    apply list_elem_of_In, in_map_iff in Hin as ([p] & <- & _). reflexivity.
Qed.

Lemma delays_of_blocks m :
  forall k,
    Spec.chunk_count (length (transcriptions request)) = k + m ->
    length (List.filter Spec.is_delay
              (concat (map (Spec.chunk_block JSON_parse rev request benv) (seq k m))))
    = m - 1.
Proof.
  induction m as [| m IH]; intros k Hk; [reflexivity |].
  cbn [seq map concat]. rewrite List.filter_app, length_app, delays_of_block.
  rewrite (IH (S k)) by lia. rewrite Hk.
  destruct m as [| m].
  - rewrite (proj2 (Nat.ltb_ge _ _)) by lia. reflexivity.
  - rewrite (proj2 (Nat.ltb_lt _ _)) by lia. lia.
Qed.

(** The orchestrator sleeps between chunks, and only there. *)
Lemma delays_of_trace :
  length (List.filter Spec.is_delay (Spec.expected_trace JSON_parse rev request benv))
  = Spec.chunk_count (length (transcriptions request)) - 1.
Proof. unfold Spec.expected_trace. by apply delays_of_blocks. Qed.

End Trace.

(** Up to ten items: the chunks are the items cut into threes. *)
Lemma chunks_up_to_ten (items : list DataExtraction.Item) :
  (length items <= 10)%nat ->
  map length (Spec.chunks items) = Spec.chunk_sizes (length items)
  /\ concat (Spec.chunks items) = items.
Proof.
  intros Hlen.
  do 11 (destruct items as [| ? items]; [split; reflexivity |]).
  cbn in Hlen. lia.
Qed.

Example chunk_sizes_of_seven : Spec.chunk_sizes 7 = [3; 3; 1]%nat.
Proof. reflexivity. Qed.

Lemma entries_ids JSON_parse rev request benv (items : list DataExtraction.Item) :
  map DataExtraction.r_id
      (imap (fun k item =>
               Spec.entry JSON_parse rev request (DataExtraction.callEnv benv k) item)
            items)
  = map DataExtraction.id items.
Proof.
  change (DataExtraction.r_id <$>
            imap (fun k item =>
               Spec.entry JSON_parse rev request (DataExtraction.callEnv benv k) item)
            items
          = DataExtraction.id <$> items).
  rewrite fmap_imap. rewrite <- imap_const. apply imap_ext. reflexivity.
Qed.


(* ================================================================== *)
(** ** The order of the events of a batch *)
(* ================================================================== *)

Section Order.

Import DataExtraction.

Local Open Scope nat_scope.

Lemma in_stage_order_app (l1 l2 : list BatchEvent) :
  Spec.in_stage_order l1 ->
  Spec.in_stage_order l2 ->
  (forall e1 e2 s1 s2,
     e1 ∈ l1 -> e2 ∈ l2 ->
     Spec.stage e1 = Some s1 -> Spec.stage e2 = Some s2 -> s1 <= s2) ->
  Spec.in_stage_order (l1 ++ l2).
Proof.
  intros H1 H2 Hcross p q e1 e2 s1 s2 Hp Hq Hs1 Hs2 Hlt.
  apply lookup_app_Some in Hp as [Hp | [Hpl Hp]];
    apply lookup_app_Some in Hq as [Hq | [Hql Hq]].
  - eapply H1; eassumption.
  - apply lookup_lt_Some in Hp. lia.
  - exfalso.
    pose proof (Hcross e2 e1 s2 s1 (list_elem_of_lookup_2 _ _ _ Hq)
                  (list_elem_of_lookup_2 _ _ _ Hp) Hs2 Hs1).
    lia.
  - pose proof (H2 _ _ _ _ _ _ Hp Hq Hs1 Hs2 Hlt). lia.
Qed.

(** Events that are all of one stage, or of none, are in order. *)
Lemma in_stage_order_flat (l : list BatchEvent) (n : nat) :
  (forall e s, e ∈ l -> Spec.stage e = Some s -> s = n) ->
  Spec.in_stage_order l.
Proof.
  intros Hflat p q e1 e2 s1 s2 Hp Hq Hs1 Hs2 Hlt.
  rewrite (Hflat e1 s1 (list_elem_of_lookup_2 _ _ _ Hp) Hs1) in Hlt.
  rewrite (Hflat e2 s2 (list_elem_of_lookup_2 _ _ _ Hq) Hs2) in Hlt.
  lia.
Qed.

Lemma chunk_of_item c j : j < 3 -> (3 * c + j) / 3 = c.
Proof.
  intros Hj.
  pose proof (Nat.div_mod_eq (3 * c + j) 3) as Hdiv.
  pose proof (Nat.mod_upper_bound (3 * c + j) 3) as Hmod.
  lia.
Qed.

Variable JSON_parse : string -> Thrown + Json.
Variable rev : Revision.
Variable request : BatchExtractionRequest.
Variable benv : BatchEnv.
Hypothesis Hsettles : Spec.settles benv.

Local Abbreviation block := (Spec.chunk_block JSON_parse rev request benv).

Lemma chunk_length c : length (Spec.chunk (transcriptions request) c) <= 3.
Proof. unfold Spec.chunk. rewrite length_take. lia. Qed.

(** The three parts of the block of chunk [c]. *)
Lemma block_parts c :
  exists starts settles pacing,
    block c = starts ++ settles ++ pacing
    /\ (forall e s, e ∈ starts -> Spec.stage e = Some s -> s = 2 * c)
    /\ (forall e s, e ∈ settles -> Spec.stage e = Some s -> s = 2 * c + 1)
    /\ (forall e s, e ∈ pacing -> Spec.stage e = Some s -> False)
    /\ (Spec.chunk (transcriptions request) c <> [] ->
        exists k, last settles = Some (Settled k))
    /\ (pacing = [] \/ c + 1 < Spec.chunk_count (length (transcriptions request))).
Proof.
  eexists _, _, _. split; [reflexivity |].
  split; [| split; [| split; [| split]]].
  - intros e s Hin Hs.
    apply list_elem_of_In, in_concat in Hin as (evs & Hevs & Hin).
    apply list_elem_of_In, elem_of_lookup_imap in Hevs as (j & item & -> & Hj).
    apply lookup_lt_Some in Hj. pose proof (chunk_length c).
    destruct Hin as [<- | Hin].
    + change (Some (2 * ((3 * c + j) / 3)) = Some s) in Hs.
      assert (Hstage : s = 2 * ((3 * c + j) / 3)) by congruence.
      rewrite Hstage, chunk_of_item by lia. reflexivity.
    + apply in_map_iff in Hin as ([p] & <- & _).
      change (Some (2 * ((3 * c + j) / 3)) = Some s) in Hs.
      assert (Hstage : s = 2 * ((3 * c + j) / 3)) by congruence.
      rewrite Hstage, chunk_of_item by lia. reflexivity.
  - intros e s Hin Hs.
    apply list_elem_of_In, in_map_iff in Hin as (j & <- & Hj).
    apply list_elem_of_In in Hj. rewrite (Hsettles _ _) in Hj.
    apply elem_of_seq in Hj. pose proof (chunk_length c).
    change (Some (2 * ((3 * c + j) / 3) + 1) = Some s) in Hs.
    assert (Hstage : s = 2 * ((3 * c + j) / 3) + 1) by congruence.
    rewrite Hstage, chunk_of_item by lia. reflexivity.
  - intros e s Hin Hs.
    destruct (c + 1 <? _); [| by apply elem_of_nil in Hin].
    apply list_elem_of_singleton in Hin as ->. discriminate.
  - intros Hne.
    destruct (settleOrder benv (3 * c) (length (Spec.chunk (transcriptions request) c)))
      as [| j order _] eqn:Horder using rev_ind.
    + exfalso. pose proof (Permutation_length (Hsettles (3 * c)
                 (length (Spec.chunk (transcriptions request) c)))) as Hl.
      rewrite Horder, length_seq in Hl.
      apply Hne, nil_length_inv. symmetry. exact Hl.
    + exists (3 * c + j). rewrite map_app. cbn. apply last_snoc.
  - destruct (c + 1 <? _) eqn:Hc; [right; by apply Nat.ltb_lt | by left].
Qed.

Lemma block_in_order c : Spec.in_stage_order (block c).
Proof.
  destruct (block_parts c) as (starts & settles & pacing & -> & Hs & Ht & Hp & _).
  apply in_stage_order_app; [| apply in_stage_order_app |].
  - by apply (in_stage_order_flat _ (2 * c)).
  - by apply (in_stage_order_flat _ (2 * c + 1)).
  - apply (in_stage_order_flat _ 0). intros e s Hin Hst. exfalso. eauto.
  - intros e1 e2 s1 s2 _ Hin _ Hst. exfalso. eauto.
  - intros e1 e2 s1 s2 H1 H2 Hs1 Hs2.
    rewrite (Hs _ _ H1 Hs1).
    apply elem_of_app in H2 as [H2 | H2]; [| exfalso; eauto].
    rewrite (Ht _ _ H2 Hs2). lia.
Qed.

Lemma block_stages c e s :
  e ∈ block c -> Spec.stage e = Some s -> 2 * c <= s <= 2 * c + 1.
Proof.
  destruct (block_parts c) as (starts & settles & pacing & -> & Hs & Ht & Hp & _).
  intros [Hin | [Hin | Hin]%elem_of_app]%elem_of_app Hst.
  - rewrite (Hs _ _ Hin Hst). lia.
  - rewrite (Ht _ _ Hin Hst). lia.
  - exfalso. eauto.
Qed.

Lemma blocks_stages m k e s :
  e ∈ concat (map block (seq k m)) -> Spec.stage e = Some s -> 2 * k <= s.
Proof.
  intros Hin Hst.
  apply list_elem_of_In, in_concat in Hin as (evs & Hevs & Hin).
  apply in_map_iff in Hevs as (c & <- & Hc). apply in_seq in Hc.
  apply list_elem_of_In in Hin.
  pose proof (block_stages c e s Hin Hst). lia.
Qed.

Lemma blocks_in_order m :
  forall k, Spec.in_stage_order (concat (map block (seq k m))).
Proof.
  induction m as [| m IH]; intros k.
  - intros p q e1 e2 s1 s2 Hp. discriminate.
  - cbn [seq map concat]. apply in_stage_order_app.
    + apply block_in_order.
    + apply IH.
    + intros e1 e2 s1 s2 H1 H2 Hs1 Hs2.
      pose proof (block_stages k e1 s1 H1 Hs1).
      pose proof (blocks_stages m (S k) e2 s2 H2 Hs2). lia.
Qed.

(** The trace of a batch is in the order of the stages. *)
Lemma expected_trace_in_order :
  Spec.in_stage_order (Spec.expected_trace JSON_parse rev request benv).
Proof. apply blocks_in_order. Qed.

(** The trace of a batch does not end with a delay. *)
Lemma expected_trace_last ms :
  last (Spec.expected_trace JSON_parse rev request benv) <> Some (Delay ms).
Proof.
  unfold Spec.expected_trace.
  destruct (Spec.chunk_count (length (transcriptions request))) as [| n] eqn:Hn.
  - discriminate.
  - rewrite seq_S, map_app, concat_app. cbn [map concat Nat.add].
    rewrite app_nil_r.
    destruct (block_parts n) as (starts & settles & pacing & -> & _ & _ & _ & Hl & Hp).
    destruct Hp as [-> | Hp]; [| lia].
    rewrite app_nil_r, !last_app.
    destruct Hl as [k ->]; [| discriminate].
    intros Hempty.
    assert (Hlt : 3 * n < length (transcriptions request))
      by (apply chunk_count_lt; lia).
    unfold Spec.chunk in Hempty.
    apply (f_equal length) in Hempty.
    rewrite length_take, length_drop in Hempty.
    change (length (A := Item) []) with 0 in Hempty. lia.
Qed.

(** Every delay lasts a second. *)
Lemma expected_trace_delay ms :
  Delay ms ∈ Spec.expected_trace JSON_parse rev request benv -> ms = 1000%Z.
Proof.
  intros Hin.
  apply list_elem_of_In, in_concat in Hin as (evs & Hevs & Hin).
  apply in_map_iff in Hevs as (c & <- & _).
  unfold Spec.chunk_block in Hin.
  apply in_app_or in Hin as [Hin | Hin]; [| apply in_app_or in Hin as [Hin | Hin]].
  - apply in_concat in Hin as (l & Hl & Hin).
    apply list_elem_of_In, elem_of_lookup_imap in Hl as (j & item & -> & _).
    destruct Hin as [Hin | Hin]; [discriminate |].
    apply in_map_iff in Hin as ([p] & Hp & _). discriminate.
  - apply in_map_iff in Hin as (j & Hj & _). discriminate.
  - destruct (c + 1 <? _); [| destruct Hin].
    destruct Hin as [[= <-] | []]. reflexivity.
Qed.

End Order.

(* ================================================================== *)
(** ** The extraction service: batches and failures *)
(* ================================================================== *)

Section ServiceClaims.

Import DataExtraction.

Local Open Scope nat_scope.

(** C1.  A batch of N items, 1 <= N <= 10, in an environment where every
    promise settles: [extractDataBatch] returns N entries whose ids are the
    ids of the items, in the order of the items, whatever the order in which
    the promises of a chunk settle.  The items are processed in consecutive
    chunks of three (sizes three, ..., then the remainder: 3, 3, 1 for
    seven items).  In the trace, chunk by chunk: the items of the chunk are
    started, all of them settle, and a delay of 1000 ms follows unless the
    chunk is the last one.  So every item of a chunk is started before any
    item of that chunk settles, every item of a chunk has settled before
    any item of a later chunk is started, there is one delay fewer than
    chunks, each delay lasts 1000 ms and the trace does not end with one. *)
Theorem extractDataBatch_chunked_in_order
    (JSON_parse : string -> Thrown + Json) (rev : Revision)
    (request : BatchExtractionRequest) (benv : BatchEnv) :
  1 <= length (transcriptions request) <= 10 ->
  Spec.settles benv ->
  exists results trace,
    extractDataBatch JSON_parse rev request benv = Some (inr results, trace)
    /\ length results = length (transcriptions request)
    /\ map r_id results = map id (transcriptions request)
    /\ map length (Spec.chunks (transcriptions request))
       = Spec.chunk_sizes (length (transcriptions request))
    /\ concat (Spec.chunks (transcriptions request)) = transcriptions request
    /\ trace = Spec.expected_trace JSON_parse rev request benv
    /\ (forall p q k1 k2,
          trace !! p = Some (Started k1) -> trace !! q = Some (Settled k2) ->
          k1 / 3 = k2 / 3 -> p < q)
    /\ (forall p q k1 k2,
          trace !! p = Some (Settled k1) -> trace !! q = Some (Started k2) ->
          k1 / 3 < k2 / 3 -> p < q)
    /\ length (List.filter Spec.is_delay trace)
       = Spec.chunk_count (length (transcriptions request)) - 1
    /\ (forall ms, Delay ms ∈ trace -> ms = 1000%Z)
    /\ (forall ms, last trace <> Some (Delay ms)).
Proof.
  intros [_ Hlen] Hsettles.
  eexists _, _. split; [by apply extractDataBatch_runs |].
  destruct (chunks_up_to_ten (transcriptions request) Hlen) as [Hsizes Hconcat].
  pose proof (expected_trace_in_order JSON_parse rev request benv Hsettles) as Horder.
  split; [apply length_imap |].
  split; [apply entries_ids |].
  split; [exact Hsizes |].
  split; [exact Hconcat |].
  split; [reflexivity |].
  split; [| split; [| split; [| split]]].
  - intros p q k1 k2 Hp Hq Hk.
    apply (Horder p q _ _ _ _ Hp Hq eq_refl eq_refl). rewrite Hk. lia.
  - intros p q k1 k2 Hp Hq Hk.
    apply (Horder p q _ _ _ _ Hp Hq eq_refl eq_refl). lia.
  - apply delays_of_trace.
  - apply expected_trace_delay.
  - by apply expected_trace_last.
Qed.

Lemma extractDataBatch_chunked_in_order_witness :
  exists results trace,
    extractDataBatch Sample.parse Comprehensive Sample.seven Sample.fourth_fails
    = Some (inr results, trace)
    /\ length results = 7
    /\ map r_id results = ["1"; "2"; "3"; "4"; "5"; "6"; "7"]
    /\ map length (Spec.chunks (transcriptions Sample.seven)) = [3; 3; 1]
    /\ concat (Spec.chunks (transcriptions Sample.seven)) = transcriptions Sample.seven
    /\ trace = Spec.expected_trace Sample.parse Comprehensive Sample.seven
                 Sample.fourth_fails
    /\ (forall p q k1 k2,
          trace !! p = Some (Started k1) -> trace !! q = Some (Settled k2) ->
          k1 / 3 = k2 / 3 -> p < q)
    /\ (forall p q k1 k2,
          trace !! p = Some (Settled k1) -> trace !! q = Some (Started k2) ->
          k1 / 3 < k2 / 3 -> p < q)
    /\ length (List.filter Spec.is_delay trace) = 2
    /\ (forall ms, Delay ms ∈ trace -> ms = 1000%Z)
    /\ (forall ms, last trace <> Some (Delay ms)).
Proof.
  apply (extractDataBatch_chunked_in_order Sample.parse Comprehensive
           Sample.seven Sample.fourth_fails).
  - cbn. lia.
  - intros i n. cbn. symmetry. apply Permutation_rev.
Defined.



(** The seven-item batch, run: the fourth entry is the failure, the other
    six are successes; the chunks settle in reverse and the ids stay in
    order. *)
Example seven_items_fourth_fails :
  exists results trace,
    extractDataBatch Sample.parse Comprehensive Sample.seven Sample.fourth_fails
    = Some (inr results, trace)
    /\ map (fun e => (r_id e, success (result e), error e)) results
       = [("1", true, None); ("2", true, None); ("3", true, None);
          ("4", false, None);
          ("5", true, None); ("6", true, None); ("7", true, None)]
    /\ (extractedData <$> (result <$> results !! 3))
       = Some (JObject [("error", JString "503 service unavailable")])
    /\ List.filter (fun ev => match ev with Called _ _ => false | _ => true end) trace
       = [Started 0; Started 1; Started 2; Settled 2; Settled 1; Settled 0;
          Delay 1000;
          Started 3; Started 4; Started 5; Settled 5; Settled 4; Settled 3;
          Delay 1000;
          Started 6; Settled 6].
Proof. vm_compute. eexists _, _. repeat split. Qed.

(** C10.  [extractData] never throws: it returns a result, with the
    extraction type of the request; a result that is no success has
    confidence 0 and the error message under [error] in [extractedData].
    That is what it returns when building the prompt throws (a custom type
    without schema), when the provider call throws, when the response is
    empty and when the response does not parse; the first without a remote
    call.  So the callback of the batch always takes its first branch: its
    entry has no [error], and the batch, under any order of settlement, is
    never rejected and returns entries without [error]. *)
Theorem extractData_never_rejects
    (JSON_parse : string -> Thrown + Json) (rev : Revision)
    (env : CallEnv) (request : ExtractionRequest) (log : list Event) :
  (exists r log',
     extractData JSON_parse rev env request log = (inr r, log')
     /\ r_extractionType r = extractionType request
     /\ (success r = false ->
         confidence r = JNumber 0
         /\ exists e,
              extractedData r
              = JObject [("error", JString (message_or "Unknown extraction error" e))]))
  /\ (forall e,
        buildExtractionPrompt rev (transcription request) (extractionType request)
          (customSchema request) = inl e ->
        extractData JSON_parse rev env request log
        = (inr (Spec.failure env request e), log))
  /\ (forall prompt,
        buildExtractionPrompt rev (transcription request) (extractionType request)
          (customSchema request) = inr prompt ->
        (forall e,
           respond env prompt = inl e ->
           extractData JSON_parse rev env request log
           = (inr (Spec.failure env request e), log ++ [RemoteCall prompt]))
        /\ (forall completion,
              respond env prompt = inr completion ->
              (responseText_of completion = None
               \/ responseText_of completion = Some "" ->
               extractData JSON_parse rev env request log
               = (inr (Spec.failure env request
                         (ThrownError "No response from extraction model")),
                  log ++ [RemoteCall prompt]))
              /\ (forall c text e,
                    responseText_of completion = Some (String c text) ->
                    JSON_parse (String c text) = inl e ->
                    extractData JSON_parse rev env request log
                    = (inr (Spec.failure env request e), log ++ [RemoteCall prompt]))))
  /\ (forall batch item,
        exists entry log',
          processItem JSON_parse rev batch env item log = (inr entry, log')
          /\ error entry = None)
  /\ (forall batch benv,
        match extractDataBatch JSON_parse rev batch benv with
        | Some (inr results, _) => Forall (fun entry => error entry = None) results
        | Some (inl _, _) => False
        | None => True
        end).
Proof.
  split; [| split; [| split; [| split]]].
  - destruct (extractData_cases JSON_parse rev env request log)
      as [(r & log' & Htry & H) | (e & log' & _ & H)];
      eexists _, _; (split; [exact H |]).
    + split.
      * revert Htry.
        unfold extractData_try, bind, lift, chat_completions_create, emit, throw, ret.
        destruct (buildExtractionPrompt _ _ _ _) as [e | p]; [discriminate |].
        cbn. destruct (respond env p) as [e | c]; [discriminate |].
        destruct (responseText_of c) as [[| a s] |]; try discriminate.
        destruct (JSON_parse _) as [e | d]; [discriminate |].
        destruct (get_own _ d) as [e | g]; [discriminate |].
        intros [= <- _]. reflexivity.
      * rewrite (extractData_try_success _ _ _ _ _ _ _ Htry). discriminate.
    + split; [reflexivity |]. intros _. split; [reflexivity |]. by exists e.
  - intros e He.
    unfold extractData, try_catch, extractData_try, extractData_catch, bind, lift.
    by rewrite He.
  - intros prompt Hp.
    unfold extractData, try_catch, extractData_try, extractData_catch,
      bind, lift, chat_completions_create, emit, throw, ret.
    rewrite Hp. cbn. split.
    + intros e He. by rewrite He.
    + intros completion Hc. rewrite Hc. split.
      * intros [-> | ->]; reflexivity.
      * intros c text e -> ->. reflexivity.
  - intros batch item. eexists _, _. split.
    + apply processItem_entry.
    + reflexivity.
  - intros batch benv. unfold extractDataBatch.
    apply batch_loop_no_error. constructor.
Qed.

Lemma extractData_never_rejects_witness :
  extractData Sample.parse PerType Sample.env_ok (Sample.request custom None) []
  = (inr (Spec.failure Sample.env_ok (Sample.request custom None)
            (ThrownError missingSchemaMessage)), [])
  /\ (exists p,
        extractData Sample.parse Comprehensive Sample.env_down
          (Sample.request repair_details None) []
        = (inr (Spec.failure Sample.env_down (Sample.request repair_details None)
                  (ThrownError "503 service unavailable")),
           [RemoteCall p])).
Proof.
  split.
  - apply (extractData_never_rejects Sample.parse PerType Sample.env_ok
             (Sample.request custom None) []).
    reflexivity.
  - eexists.
    refine (proj1 (proj1 (proj2 (proj2 (extractData_never_rejects Sample.parse
              Comprehensive Sample.env_down (Sample.request repair_details None) [])))
              _ _) _ _); reflexivity.
Defined.

End ServiceClaims.

Section AdapterClaims.

Import DataExtraction.

(** The confidence of a success is the parsed output's [confidence] member
    if that is truthy, and 0.8 otherwise. *)
Lemma confidence_of_success JSON_parse rev env request log r log' :
  extractData JSON_parse rev env request log = (inr r, log') ->
  success r = true ->
  exists given,
    get_own "confidence" (extractedData r) = inr given
    /\ confidence r = or_else given (JNumber (4 # 5)).
Proof.
  unfold extractData, try_catch, extractData_try, extractData_catch,
    bind, lift, chat_completions_create, emit, throw, ret.
  destruct (buildExtractionPrompt _ _ _ _) as [e | p]; cbn;
    [intros [= <- _]; discriminate |].
  destruct (respond env p) as [e | c]; [intros [= <- _]; discriminate |].
  destruct (responseText_of c) as [[| a s] |];
    try (intros [= <- _]; discriminate).
  destruct (JSON_parse _) as [e | d]; [intros [= <- _]; discriminate |].
  destruct (get_own _ d) as [e | g] eqn:Hg; [intros [= <- _]; discriminate |].
  intros [= <- _] _. cbn. eauto.
Qed.

(** Without a [confidence] member the confidence is 0.8. *)
Lemma confidence_default_when_omitted JSON_parse rev env request log r log' members :
  extractData JSON_parse rev env request log = (inr r, log') ->
  success r = true ->
  extractedData r = JObject members ->
  assoc "confidence" members = None ->
  confidence r = JNumber (4 # 5).
Proof.
  intros Hrun Hok Hdata Hnone.
  destruct (confidence_of_success _ _ _ _ _ _ _ Hrun Hok) as (given & Hget & ->).
  rewrite Hdata in Hget. cbn in Hget. injection Hget as <-. by rewrite Hnone.
Qed.

(** A truthy [confidence] member is returned as it is. *)
Lemma confidence_kept_when_truthy JSON_parse rev env request log r log' members v :
  extractData JSON_parse rev env request log = (inr r, log') ->
  success r = true ->
  extractedData r = JObject members ->
  assoc "confidence" members = Some v ->
  truthy v = true ->
  confidence r = v.
Proof.
  intros Hrun Hok Hdata Hsome Htruthy.
  destruct (confidence_of_success _ _ _ _ _ _ _ Hrun Hok) as (given & Hget & ->).
  rewrite Hdata in Hget. cbn in Hget. injection Hget as <-.
  rewrite Hsome. cbn. by rewrite Htruthy.
Qed.

(** C5, at an output whose confidence is 0.  The provider answers with
    [{ confidence: 0 }]; the extraction succeeds, the parsed output holds
    the confidence 0 the provider supplied, and the result reports 0.8. *)
Theorem zero_confidence_reported_as_default (rev : Revision) :
  exists r p,
    extractData Sample.parse rev Sample.env_zero
      (Sample.request repair_details None) []
    = (inr r, [RemoteCall p])
    /\ success r = true
    /\ extractedData r = JObject [("confidence", JNumber 0)]
    /\ confidence r = JNumber (4 # 5).
Proof. destruct rev; eexists _, _; repeat split. Qed.

(** Output that does not parse: the failure carries the parser's
    message. *)
Example unparsable_output_is_a_failure :
  fst (extractData Sample.parse Comprehensive Sample.env_broken
         (Sample.request labor_hours None) [])
  = inr (Spec.failure Sample.env_broken (Sample.request labor_hours None)
           (ThrownError "Unexpected token o in JSON at position 1")).
Proof. reflexivity. Qed.

(** C3 as stated fails for a schema without fields: the request has type
    [custom] and a schema whose field list is empty, yet the prompt is
    built, the remote call is made and the extraction succeeds. *)
Lemma empty_field_list_is_accepted :
  extractionType (Sample.request custom (Some Sample.empty_schema)) = custom
  /\ fields Sample.empty_schema = []
  /\ exists r p,
       extractData Sample.parse Comprehensive Sample.env_ok
         (Sample.request custom (Some Sample.empty_schema)) []
       = (inr r, [RemoteCall p])
       /\ success r = true.
Proof.
  split; [reflexivity | split; [reflexivity |]].
  eexists _, _. split; reflexivity.
Qed.

(** C3, amended.  A request of type [custom] without a schema: in both
    revisions [extractData] returns the failure result with the message
    that a custom schema is required, and the log is unchanged, so no
    remote call was made.  A request of type [custom] with a schema,
    whatever its field list: the prompt is built from the schema and the
    remote call is made. *)
Theorem custom_without_schema_fails_locally
    (JSON_parse : string -> Thrown + Json) (rev : Revision)
    (env : CallEnv) (request : ExtractionRequest) (log : list Event) :
  extractionType request = custom ->
  (customSchema request = None ->
   extractData JSON_parse rev env request log
   = (inr (Spec.failure env request
             (ThrownError "Custom schema is required for custom extraction type")),
      log))
  /\ (forall schema,
        customSchema request = Some schema ->
        exists r,
          extractData JSON_parse rev env request log
          = (inr r,
             log ++ [RemoteCall (basePrompt (transcription request)
                                 +:+ customPrompt schema)])).
Proof.
  destruct request as [t ty cs u]. cbn [extractionType customSchema transcription].
  intros ->. split.
  - intros ->. by destruct rev.
  - intros schema ->.
    rewrite extractData_log.
    set (request := {| transcription := t; extractionType := custom;
                       customSchema := Some schema; userId := u |}).
    destruct (extractData_total JSON_parse rev env request []) as (r & log' & Hrun).
    exists r. rewrite Hrun. cbn [fst snd]. do 2 f_equal.
    revert Hrun.
    unfold extractData, try_catch, extractData_try, extractData_catch,
      bind, lift, chat_completions_create, emit, throw, ret.
    assert (Hbuild : buildExtractionPrompt rev (transcription request)
                       (extractionType request) (customSchema request)
                     = inr (basePrompt t +:+ customPrompt schema))
      by (by destruct rev).
    rewrite Hbuild. clear Hbuild.
    generalize (basePrompt t +:+ customPrompt schema). intros p. cbn.
    destruct (respond env _) as [e | c]; [by intros [= _ <-] |].
    destruct (responseText_of c) as [[| a s] |]; try (by intros [= _ <-]).
    destruct (JSON_parse _) as [e | d]; [by intros [= _ <-] |].
    destruct (get_own _ d) as [e | g]; by intros [= _ <-].
Qed.

Lemma custom_without_schema_fails_locally_witness :
  (customSchema (Sample.request custom None) = None ->
   extractData Sample.parse Comprehensive Sample.env_ok (Sample.request custom None) []
   = (inr (Spec.failure Sample.env_ok (Sample.request custom None)
             (ThrownError "Custom schema is required for custom extraction type")),
      []))
  /\ (forall schema,
        customSchema (Sample.request custom None) = Some schema ->
        exists r,
          extractData Sample.parse Comprehensive Sample.env_ok
            (Sample.request custom None) []
          = (inr r,
             [] ++ [RemoteCall (basePrompt (transcription (Sample.request custom None))
                                +:+ customPrompt schema)])).
Proof.
  apply (custom_without_schema_fails_locally Sample.parse Comprehensive
           Sample.env_ok (Sample.request custom None) []).
  reflexivity.
Defined.

End AdapterClaims.

(* ================================================================== *)
(** ** The extraction router *)
(* ================================================================== *)

Section RouterClaims.

Import Http ExtractionRoute.

(** C4, evaluated.  The comprehensive entry of the catalogue lists the six
    categories, in this order; there are 55 names under them, while the
    entry's own [total_fields] says 47. *)
Theorem schemas_lists_six_categories_and_55_fields :
  status get_schemas = 200
  /\ category_names get_schemas
     = ["customer_information"; "vehicle_information"; "damage_assessment";
        "repair_work"; "parts_operations"; "recommendations"]
  /\ map (fun c => length (snd c)) (categories_of get_schemas)
     = [3; 20; 8; 8; 15; 1]%nat
  /\ length (listed_fields get_schemas) = 55%nat
  /\ member "total_fields" (comprehensive_of get_schemas) = Some (JNumber 47).
Proof. repeat split. Qed.

End RouterClaims.

Section BatchRouteClaims.

Import Http DataExtraction ExtractionRoute.

Local Open Scope nat_scope.

Lemma z_transcriptions_bounds elements items :
  z_transcriptions (Some (JArray elements)) = Some items ->
  mapM z_item elements = Some items
  /\ 1 <= length elements <= 10.
Proof.
  unfold z_transcriptions.
  destruct (mapM z_item elements) as [its |] eqn:Hmap; [| discriminate].
  pose proof (length_mapM _ _ _ Hmap) as Hlen.
  destruct (1 <=? length its) eqn:H1; destruct (length its <=? 10) eqn:H10;
    try discriminate.
  intros [= <-]. apply Nat.leb_le in H1, H10. split; [reflexivity | lia].
Qed.

(** C7.  A body whose [transcriptions] is an array: with no element or more
    than ten the handler answers 400 and nothing has been dispatched (the
    trace is empty); validation passes only for 1 to 10 elements; and with
    1 to 10 valid elements, a valid type and schema, the API key set and
    every promise settling, the handler answers 200 with one result per
    element. *)
Theorem batch_size_is_validated
    (JSON_parse : string -> Thrown + Json) (rev : Revision)
    (OPENAI_API_KEY : option string) (benv : BatchEnv) (timestamp : string)
    (members : list (string * Json)) (elements : list Json) :
  assoc "transcriptions" members = Some (JArray elements) ->
  (length elements = 0 \/ 10 < length elements ->
   post_batch JSON_parse rev OPENAI_API_KEY benv timestamp (JObject members)
   = Some (error_response 400 "Invalid batch extraction request", []))
  /\ (forall validated,
        batchExtractionSchema_parse (JObject members) = Some validated ->
        1 <= length elements <= 10
        /\ length (v_transcriptions validated) = length elements)
  /\ (1 <= length elements <= 10 ->
      forall items t cs c key,
        mapM z_item elements = Some items ->
        z_extractionType (assoc "extractionType" members) = Some t ->
        z_customSchema (assoc "customSchema" members) = Some cs ->
        OPENAI_API_KEY = Some (String c key) ->
        Spec.settles benv ->
        exists response trace results,
          post_batch JSON_parse rev OPENAI_API_KEY benv timestamp (JObject members)
          = Some (response, trace)
          /\ status response = 200%Z
          /\ member "results" (Some (body response)) = Some (JArray results)
          /\ length results = length elements).
Proof.
  intros Hts. split; [| split].
  - intros Hsize. unfold post_batch, batchExtractionSchema_parse. cbn [z_object].
    rewrite Hts.
    destruct (z_transcriptions (Some (JArray elements))) as [items |] eqn:Hz;
      [| reflexivity].
    apply z_transcriptions_bounds in Hz. lia.
  - intros validated. unfold batchExtractionSchema_parse. cbn [z_object].
    rewrite Hts.
    destruct (z_transcriptions (Some (JArray elements))) as [items |] eqn:Hz;
      [| discriminate].
    destruct (z_extractionType _) as [t |]; [| discriminate].
    destruct (z_customSchema _) as [cs |]; [| discriminate].
    intros [= <-]. cbn.
    apply z_transcriptions_bounds in Hz as [Hmap Hlen].
    split; [exact Hlen |]. symmetry. eapply length_mapM, Hmap.
  - intros Hlen items t cs c key Hmap Ht Hcs -> Hsettles.
    pose proof (length_mapM _ _ _ Hmap) as Hitems.
    unfold post_batch, batchExtractionSchema_parse. cbn [z_object].
    rewrite Hts, Ht, Hcs. unfold z_transcriptions. rewrite Hmap.
    rewrite (proj2 (Nat.leb_le 1 (length items))) by lia.
    rewrite (proj2 (Nat.leb_le (length items) 10)) by lia.
    cbn [andb new_DataExtractionService v_transcriptions v_extractionType
           v_customSchema].
    rewrite extractDataBatch_runs by assumption.
    eexists _, _, _. split; [reflexivity |]. split; [reflexivity |].
    split; [reflexivity |].
    rewrite length_map, length_imap. cbn. lia.
Qed.

Lemma batch_size_is_validated_witness :
  (length (replicate 11 (JObject [("id", JString "a");
                                  ("text", JString Sample.transcript)])) = 0
   \/ 10 < length (replicate 11 (JObject [("id", JString "a");
                                          ("text", JString Sample.transcript)])) ->
   post_batch Sample.parse Comprehensive (Some "sk-test") Sample.fourth_fails
     "2025-01-01T00:00:00.000Z" (Sample.batch_body 11)
   = Some (error_response 400 "Invalid batch extraction request", []))
  /\ (exists response trace results,
        post_batch Sample.parse Comprehensive (Some "sk-test") Sample.fourth_fails
          "2025-01-01T00:00:00.000Z" (Sample.batch_body 7)
        = Some (response, trace)
        /\ status response = 200%Z
        /\ member "results" (Some (body response)) = Some (JArray results)
        /\ length results = 7).
Proof.
  split.
  - apply (batch_size_is_validated Sample.parse Comprehensive (Some "sk-test")
             Sample.fourth_fails "2025-01-01T00:00:00.000Z" _
             (replicate 11 (JObject [("id", JString "a");
                                     ("text", JString Sample.transcript)]))).
    reflexivity.
  - refine (proj2 (proj2 (batch_size_is_validated Sample.parse Comprehensive
              (Some "sk-test") Sample.fourth_fails "2025-01-01T00:00:00.000Z" _
              (replicate 7 (JObject [("id", JString "a");
                                     ("text", JString Sample.transcript)])) _))
              _ _ _ _ _ _ _ _ _ _ _).
    + reflexivity.
    + cbn. lia.
    + reflexivity.
    + reflexivity.
    + reflexivity.
    + reflexivity.
    + intros i n. cbn. symmetry. apply Permutation_rev.
Defined.

End BatchRouteClaims.

(* ================================================================== *)
(** ** Uploads *)
(* ================================================================== *)

Section UploadClaims.

Import Http ErrorHandler Transcription.

Local Open Scope Z_scope.

(** C6.  An upload whose mime type is not one of the seven allowed, or
    whose size is above the configured limit (50000000 bytes when
    MAX_FILE_SIZE is not set) when that limit is a number that is not
    negative: the upload middleware ends with an error, which the error
    middleware answers with 400, and the log is empty, so the handler did
    not run and no remote transcription was attempted. *)
Theorem unsupported_upload_is_rejected
    (MAX_FILE_SIZE FAL_KEY : option string) (remote : Remote)
    (now : string) (file : File) (form : Form) :
  allowed (mimetype file) = false
  \/ (exists limit,
        fileSize MAX_FILE_SIZE = Some limit /\ 0 <= limit /\ limit < size file) ->
  (exists err,
     upload_single MAX_FILE_SIZE (Some file) = inl err
     /\ post_upload MAX_FILE_SIZE FAL_KEY remote now (Some file) form
        = (errorHandler err, [])
     /\ status (errorHandler err) = 400)
  /\ fileSize None = Some 50000000
  /\ allowedMimeTypes
     = ["audio/mpeg"; "audio/wav"; "audio/mp3"; "audio/mp4"; "audio/m4a";
        "audio/webm"; "audio/flac"].
Proof.
  intros Hbad. split; [| split; reflexivity].
  unfold post_upload, upload_single, fileFilter.
  destruct (allowed (mimetype file)) eqn:Hmime.
  - destruct Hbad as [Hbad | (limit & Hlimit & Hpos & Hsize)]; [discriminate |].
    unfold too_large. rewrite Hlimit.
    rewrite (proj2 (Z.ltb_lt 0 (size file))) by lia.
    rewrite (proj2 (Z.leb_le 0 limit)) by lia.
    rewrite (proj2 (Z.leb_le limit (size file))) by lia.
    eexists. split; [reflexivity |]. split; reflexivity.
  - eexists. split; [reflexivity |]. split; reflexivity.
Qed.

Lemma unsupported_upload_is_rejected_witness :
  ((exists err,
      upload_single None (Some Sample.text_file) = inl err
      /\ post_upload None (Some "fal-key") Sample.whisper "2025-01-01T00:00:00.000Z"
           (Some Sample.text_file) Sample.form = (errorHandler err, [])
      /\ status (errorHandler err) = 400)
   /\ fileSize None = Some 50000000
   /\ allowedMimeTypes
      = ["audio/mpeg"; "audio/wav"; "audio/mp3"; "audio/mp4"; "audio/m4a";
         "audio/webm"; "audio/flac"])
  /\ (exists err,
        upload_single None (Some Sample.huge_file) = inl err
        /\ post_upload None (Some "fal-key") Sample.whisper "2025-01-01T00:00:00.000Z"
             (Some Sample.huge_file) Sample.form = (errorHandler err, [])
        /\ status (errorHandler err) = 400).
Proof.
  split.
  - apply (unsupported_upload_is_rejected None (Some "fal-key") Sample.whisper
             "2025-01-01T00:00:00.000Z" Sample.text_file Sample.form).
    left. reflexivity.
  - apply (unsupported_upload_is_rejected None (Some "fal-key") Sample.whisper
             "2025-01-01T00:00:00.000Z" Sample.huge_file Sample.form).
    right. exists 50000000. split; [reflexivity | cbn; lia].
Defined.

(** C6 as it is written fails where the configured limit is negative: with
    MAX_FILE_SIZE set to -5 an audio part of ten bytes is above the limit,
    and yet it is not refused; the handler runs, the provider is asked for
    the storage and for the transcription, and the answer is 200. *)
Lemma upload_above_a_negative_limit_is_transcribed :
  fileSize (Some "-5") = Some (-5)
  /\ -5 < size Sample.short_file
  /\ allowed (mimetype Sample.short_file) = true
  /\ exists response,
       post_upload (Some "-5") (Some "fal-key") Sample.whisper
         "2025-01-01T00:00:00.000Z" (Some Sample.short_file) Sample.form
       = (response,
          [StorageUpload "day.wav"; Subscribe "https://storage.example/day.wav"])
       /\ status response = 200.
Proof.
  split; [reflexivity |]. split; [reflexivity |]. split; [reflexivity |].
  eexists. split; reflexivity.
Qed.

(** An upload that passes the filter and stays under the size limit
    reaches the provider. *)
Example accepted_upload_is_transcribed :
  exists response,
    post_upload None (Some "fal-key") Sample.whisper "2025-01-01T00:00:00.000Z"
      (Some {| mimetype := "audio/wav"; originalname := "day.wav"; size := 49999999 |})
      Sample.form
    = (response, [StorageUpload "day.wav"; Subscribe "https://storage.example/day.wav"])
    /\ status response = 200.
Proof. eexists. split; reflexivity. Qed.

End UploadClaims.

(* ================================================================== *)
(** ** Registration *)
(* ================================================================== *)

Section RegisterClaims.

Import Http Auth.

Variable isEmail : string -> bool.

Lemma find_email_None (us : list User) (e : string) :
  List.find (fun u => String.eqb (email u) e) us = None ->
  e ∉ map email us.
Proof.
  induction us as [| u us IH]; cbn; [intros _; apply not_elem_of_nil |].
  destruct (String.eqb (email u) e) eqn:Heq; [discriminate |].
  intros Hnone [-> | Hin]%elem_of_cons.
  - rewrite String.eqb_refl in Heq. discriminate.
  - by apply IH.
Qed.

Lemma find_email_Some (us : list User) (e : string) :
  e ∈ map email us ->
  exists u, List.find (fun u => String.eqb (email u) e) us = Some u.
Proof.
  induction us as [| u us IH]; cbn; [intros []%elem_of_nil |].
  destruct (String.eqb (email u) e) eqn:Heq; [eauto |].
  intros [-> | Hin]%elem_of_cons; [| by apply IH].
  rewrite String.eqb_refl in Heq. discriminate.
Qed.

(** Registering an address the store holds is answered 400, with the
    store as it was. *)
Lemma register_duplicate_rejected env us reqBody validated :
  registerSchema_parse isEmail reqBody = Some validated ->
  v_email validated ∈ map email us ->
  register isEmail env us reqBody
  = (us, error_response 400 "User with this email already exists").
Proof.
  intros Hparse Hin. unfold register, register_begin. rewrite Hparse.
  destruct (find_email_Some us _ Hin) as [u ->]. reflexivity.
Qed.

(** A registration that runs from its check to its insertion without any
    other in between keeps the addresses of the store distinct. *)
Lemma register_preserves_unique env us reqBody :
  unique_emails us ->
  unique_emails (fst (register isEmail env us reqBody)).
Proof.
  intros Huniq. unfold register, register_begin.
  destruct (registerSchema_parse isEmail reqBody) as [v |]; [| assumption].
  destruct (List.find _ us) eqn:Hfind; [assumption |].
  apply find_email_None in Hfind.
  unfold register_resume.
  destruct (hash env _) as [e | h]; [assumption |].
  assert (Hnew : forall u, email u = v_email v -> unique_emails (us ++ [u])).
  { intros u Hu. unfold unique_emails. rewrite map_app. cbn. rewrite Hu.
    apply NoDup_app. repeat split.
    - assumption.
    - intros x Hx [-> | []%elem_of_nil]%elem_of_cons. contradiction.
    - apply NoDup_singleton. }
  destruct (generateToken _ _); cbn; by apply Hnew.
Qed.

End RegisterClaims.

(** C8, at two registrations of one address that overlap.  Both requests
    arrive, and pass the check against the store, before either
    resumes from hashing; each then inserts its record.  Both are answered
    201, and the store holds the address twice. *)
Theorem overlapping_registrations_store_email_twice :
  let st := Auth.run Sample.isEmail Auth.initial
              [Auth.Arrive Sample.register_body;
               Auth.Arrive Sample.register_body;
               Auth.Resume 0 (Sample.register_env 1700000000000 "k3j9x2m1q")%Z;
               Auth.Resume 0 (Sample.register_env 1700000000004 "p0w8z5r7t")%Z] in
  map Auth.email (Auth.users st) = ["pat@example.com"; "pat@example.com"]
  /\ map Auth.id (Auth.users st)
     = ["user_1700000000000_k3j9x2m1q"; "user_1700000000004_p0w8z5r7t"]
  /\ map Http.status (Auth.responses st) = [201; 201]%Z
  /\ Auth.suspended st = []
  /\ ~ Auth.unique_emails (Auth.users st).
Proof.
  vm_compute. repeat split.
  intros Hnd. apply NoDup_cons in Hnd as [Hin _]. apply Hin. left.
Qed.

(** The same two registrations one after the other: the second is
    answered 400 and the store keeps one record. *)
Example consecutive_registrations_reject_second :
  let st := Auth.run Sample.isEmail Auth.initial
              [Auth.Arrive Sample.register_body;
               Auth.Resume 0 (Sample.register_env 1700000000000 "k3j9x2m1q")%Z;
               Auth.Arrive Sample.register_body] in
  map Auth.email (Auth.users st) = ["pat@example.com"]
  /\ Auth.responses st !! 1%nat
     = Some (Http.error_response 400 "User with this email already exists").
Proof. vm_compute. split; reflexivity. Qed.

(* ================================================================== *)
(** ** The rate limiter *)
(* ================================================================== *)

Section LimiterClaims.

Import Server.

Local Open Scope Z_scope.

Lemma default_configuration :
  windowMs None = 60000 /\ max None = 5.
Proof. split; reflexivity. Qed.



(** The requests of other clients leave the window of a client alone. *)
Lemma rateLimit_other w m (store : gmap string Window) ip other now :
  other <> ip ->
  fst (rateLimit w m store other now) !! ip = store !! ip.
Proof. intros Hne. unfold rateLimit. cbn. by apply lookup_insert_ne. Qed.



End LimiterClaims.

(* ================================================================== *)
(** ** Strings *)
(* ================================================================== *)

Lemma string_app_assoc (a b c : string) : (a +:+ b) +:+ c = a +:+ (b +:+ c).
Proof.
  induction a as [| x a IH]; [reflexivity |].
  change (String x ((a +:+ b) +:+ c) = String x (a +:+ (b +:+ c))).
  f_equal. exact IH.
Qed.

Lemma string_app_nil_r (a : string) : a +:+ "" = a.
Proof.
  induction a as [| x a IH]; [reflexivity |].
  change (String x (a +:+ "") = String x a). f_equal. exact IH.
Qed.

(* ================================================================== *)
(** ** More about the extraction adapter *)
(* ================================================================== *)

Section AdapterMore.

Import DataExtraction.

(** X1.  [buildExtractionPrompt] throws in two cases only: the type [custom]
    without a schema, and, in the earlier revision, a type its switch does
    not know.  Every prompt it builds opens with the fixed instruction and
    the transcription, verbatim, between double quotes. *)
Theorem buildExtractionPrompt_throws_only
    (rev : Revision) (transcription : string) (t : ExtractionType)
    (schema : option CustomSchema) :
  ((exists prompt, buildExtractionPrompt rev transcription t schema = inr prompt)
   <-> ~ (t = custom /\ schema = None) /\ ~ (rev = PerType /\ t = damage_assessment))
  /\ (forall prompt,
        buildExtractionPrompt rev transcription t schema = inr prompt ->
        exists rest,
          prompt
          = "Extract structured data from the following automotive repair transcription. Return your response as a valid JSON object.

Transcription:
" +:+ dq +:+ transcription +:+ dq +:+ rest)
  /\ (forall e,
        buildExtractionPrompt rev transcription t schema = inl e ->
        e = ThrownError "Custom schema is required for custom extraction type"
        \/ e = ThrownError "Unsupported extraction type: damage_assessment").
Proof.
  assert (Hbase : forall rest,
            basePrompt transcription +:+ rest
            = "Extract structured data from the following automotive repair transcription. Return your response as a valid JSON object.

Transcription:
" +:+ dq +:+ transcription +:+ dq +:+ ("

" +:+ rest)).
  { intros rest. unfold basePrompt.
    by rewrite !string_app_assoc. }
  split; [| split].
  - split.
    + intros [prompt H]. split.
      * intros [-> ->]. destruct rev; discriminate.
      * intros [-> ->]. discriminate.
    + intros [H1 H2].
      destruct rev, t, schema; cbn; eauto; exfalso; auto.
  - intros prompt H.
    destruct rev, t, schema; cbn in H; try discriminate;
      injection H as <-; eexists; apply Hbase.
  - intros e H.
    destruct rev, t, schema; cbn in H; try discriminate;
      injection H as <-; auto.
Qed.

(** What [extractData] adds to the log, on every path through it. *)
Lemma extractData_log_shape
    (JSON_parse : string -> Thrown + Json) (rev : Revision)
    (env : CallEnv) (request : ExtractionRequest) (log : list Event) :
  exists r,
    extractData JSON_parse rev env request log
    = (inr r,
       log ++ match buildExtractionPrompt rev (transcription request)
                      (extractionType request) (customSchema request) with
              | inr prompt => [RemoteCall prompt]
              | inl _ => []
              end).
Proof.
  unfold extractData, try_catch, extractData_try, extractData_catch,
    bind, lift, chat_completions_create, emit, throw, ret.
  destruct (buildExtractionPrompt _ _ _ _) as [e | p]; cbn.
  { rewrite app_nil_r. eauto. }
  destruct (respond env p) as [e | c]; [eauto |].
  destruct (responseText_of c) as [[| a s] |]; eauto.
  destruct (JSON_parse _) as [e | d]; [eauto |].
  destruct (get_own _ d) as [e | g]; eauto.
Qed.

(** X2.  [extractData] makes one remote call when the prompt builds, whatever
    then happens to the call and its answer, and none when it does not:
    nothing is tried a second time. *)
Theorem extractData_calls_at_most_once
    (JSON_parse : string -> Thrown + Json) (rev : Revision)
    (env : CallEnv) (request : ExtractionRequest) (log : list Event) :
  exists r log',
    extractData JSON_parse rev env request log = (inr r, log ++ log')
    /\ Forall (fun e => exists prompt, e = RemoteCall prompt) log'
    /\ (length log' <= 1)%nat
    /\ (length log' = 1%nat
        <-> exists prompt,
              buildExtractionPrompt rev (transcription request)
                (extractionType request) (customSchema request) = inr prompt).
Proof.
  destruct (extractData_log_shape JSON_parse rev env request log) as [r Hr].
  exists r. eexists. split; [exact Hr |].
  destruct (buildExtractionPrompt _ _ _ _) as [e | p]; cbn.
  - split; [constructor |]. split; [lia |].
    split; [discriminate | intros [? [=]]].
  - split; [repeat constructor; eauto |]. split; [lia |].
    split; eauto.
Qed.

(** X3.  [extractData] reports a success exactly when the prompt builds, the
    provider answers with a non-empty text, the text parses, and what it
    parses to is not [null]. *)
Theorem extractData_succeeds_iff
    (JSON_parse : string -> Thrown + Json) (rev : Revision)
    (env : CallEnv) (request : ExtractionRequest) (log : list Event) :
  (exists r log',
     extractData JSON_parse rev env request log = (inr r, log')
     /\ success r = true)
  <-> (exists prompt completion c text data,
         buildExtractionPrompt rev (transcription request) (extractionType request)
           (customSchema request) = inr prompt
         /\ respond env prompt = inr completion
         /\ responseText_of completion = Some (String c text)
         /\ JSON_parse (String c text) = inr data
         /\ data <> JNull).
Proof.
  unfold extractData, try_catch, extractData_try, extractData_catch,
    bind, lift, chat_completions_create, emit, throw, ret.
  split.
  - intros (r & log' & Hrun & Hok). revert Hrun.
    destruct (buildExtractionPrompt _ _ _ _) as [e | p]; cbn;
      [intros [= <- _]; discriminate |].
    destruct (respond env p) as [e | c] eqn:Hc; [intros [= <- _]; discriminate |].
    destruct (responseText_of c) as [[| a s] |] eqn:Ht;
      try (intros [= <- _]; discriminate).
    destruct (JSON_parse _) as [e | d] eqn:Hd; [intros [= <- _]; discriminate |].
    destruct d; cbn; try (intros [= <- _]; discriminate); intros _;
      eexists _, _, _, _, _; repeat split; eauto; discriminate.
  - intros (p & c & a & text & d & -> & Hc & Ht & Hd & Hnull). cbn.
    rewrite Hc, Ht, Hd.
    destruct d; try contradiction; cbn; eexists _, _; split; reflexivity.
Qed.

(** X4.  Asking [validateExtractionResult] for more fields never turns a valid
    result invalid, since one expected field among the keys suffices; and
    with no expected field at all nothing is valid. *)
Theorem validateExtractionResult_some_field
    (above_threshold : Json -> bool) (result : ExtractionResult)
    (expected more : list string) :
  validateExtractionResult above_threshold result [] = false
  /\ (validateExtractionResult above_threshold result expected = true ->
      (forall field, In field expected -> In field more) ->
      validateExtractionResult above_threshold result more = true)
  /\ (validateExtractionResult above_threshold result expected = true ->
      success result = true
      /\ above_threshold (confidence result) = true
      /\ exists field,
           In field expected /\ In field (object_keys (extractedData result))).
Proof.
  unfold validateExtractionResult.
  destruct (negb (success result) || negb (truthy (extractedData result))) eqn:Hguard.
  { repeat split; discriminate. }
  apply orb_false_elim in Hguard as [Hs _]. apply negb_false_iff in Hs.
  split; [reflexivity |]. split.
  - intros Hv Hsub. apply andb_prop in Hv as [Hhas ->].
    rewrite andb_true_r.
    apply existsb_exists in Hhas as (field & Hin & Hkey).
    apply existsb_exists. exists field. split; [by apply Hsub | exact Hkey].
  - intros Hv. apply andb_prop in Hv as [Hhas Hconf].
    apply existsb_exists in Hhas as (field & Hin & Hkey).
    apply existsb_exists in Hkey as (key & Hkeyin & Heq).
    apply String.eqb_eq in Heq as <-.
    repeat split; eauto.
Qed.

Lemma validateExtractionResult_some_field_witness :
  validateExtractionResult (fun _ => true)
    (Spec.result_of Sample.parse Comprehensive Sample.env_ok
       (Sample.request repair_details None))
    ["license_plate"; "vin"; "mileage_in"] = true.
Proof.
  refine (proj1 (proj2 (validateExtractionResult_some_field (fun _ => true)
            (Spec.result_of Sample.parse Comprehensive Sample.env_ok
               (Sample.request repair_details None))
            ["vin"] ["license_plate"; "vin"; "mileage_in"])) _ _).
  - reflexivity.
  - intros field [<- | []]. right. left. reflexivity.
Defined.

(** X5.  What [validateExtractionResult] makes of the results of [extractData]:
    a failure is never valid; a success whose output carries no
    confidence, or a falsy one such as 0, is judged on the default 0.8. *)
Theorem validateExtractionResult_of_extractData
    (above_threshold : Json -> bool)
    (JSON_parse : string -> Thrown + Json) (rev : Revision)
    (env : CallEnv) (request : ExtractionRequest) (log log' : list Event)
    (r : ExtractionResult) (expected : list string) :
  extractData JSON_parse rev env request log = (inr r, log') ->
  (success r = false ->
   validateExtractionResult above_threshold r expected = false)
  /\ (forall members,
        success r = true ->
        extractedData r = JObject members ->
        from_option truthy false (assoc "confidence" members) = false ->
        validateExtractionResult above_threshold r expected
        = existsb (fun field => existsb (String.eqb field) (map fst members)) expected
          && above_threshold (JNumber (4 # 5))).
Proof.
  intros Hrun. split.
  - intros Hs. unfold validateExtractionResult. by rewrite Hs.
  - intros members Hs Hdata Hfalsy.
    destruct (confidence_of_success _ _ _ _ _ _ _ Hrun Hs) as (given & Hget & Hconf).
    unfold validateExtractionResult. rewrite Hs, Hconf, Hdata in *.
    cbn in Hget. injection Hget as <-. cbn.
    destruct (assoc "confidence" members) as [v |]; cbn in *;
      [by rewrite Hfalsy | reflexivity].
Qed.

Lemma validateExtractionResult_of_extractData_witness :
  validateExtractionResult (fun v => match v with
                                     | JNumber q => Qle_bool (1 # 2) q
                                     | _ => false
                                     end)
    (Spec.result_of Sample.parse Comprehensive Sample.env_zero
       (Sample.request repair_details None))
    ["confidence"]
  = true.
Proof.
  refine (eq_trans (proj2 (validateExtractionResult_of_extractData _ Sample.parse
            Comprehensive Sample.env_zero (Sample.request repair_details None)
            [] _ _ ["confidence"] eq_refl) [("confidence", JNumber 0)] _ _ _) _);
    reflexivity.
Defined.

End AdapterMore.

(* ================================================================== *)
(** ** More about the batch orchestrator *)
(* ================================================================== *)

Section ChunksOfAnyLength.

Import DataExtraction.

Local Open Scope nat_scope.

Lemma chunk_count_step n : 0 < n -> Spec.chunk_count n = S (Spec.chunk_count (n - 3)).
Proof.
  intros Hn. unfold Spec.chunk_count.
  pose proof (Nat.div_mod_eq (n + 2) 3).
  pose proof (Nat.mod_upper_bound (n + 2) 3).
  pose proof (Nat.div_mod_eq (n - 3 + 2) 3).
  pose proof (Nat.mod_upper_bound (n - 3 + 2) 3).
  lia.
Qed.

Lemma chunks_step (items : list Item) :
  items <> [] ->
  Spec.chunks items = take 3 items :: Spec.chunks (drop 3 items).
Proof.
  intros Hne. unfold Spec.chunks.
  rewrite chunk_count_step by (destruct items; [congruence | cbn; lia]).
  rewrite length_drop. cbn [seq map]. f_equal.
  rewrite <- seq_shift, map_map. apply map_ext. intros c.
  unfold Spec.chunk. rewrite drop_drop. do 2 f_equal. lia.
Qed.

Lemma chunk_sizes_step n : 3 <= n -> Spec.chunk_sizes n = 3 :: Spec.chunk_sizes (n - 3).
Proof.
  intros Hn. unfold Spec.chunk_sizes.
  assert (Hdiv : n / 3 = S ((n - 3) / 3) /\ n mod 3 = (n - 3) mod 3).
  { pose proof (Nat.div_mod_eq n 3).
    pose proof (Nat.mod_upper_bound n 3).
    pose proof (Nat.div_mod_eq (n - 3) 3).
    pose proof (Nat.mod_upper_bound (n - 3) 3).
    lia. }
  destruct Hdiv as [-> ->]. reflexivity.
Qed.

(** Items of any number are cut into threes and a remainder. *)
Lemma chunks_of_any_length n :
  forall items : list Item,
    length items <= n ->
    map length (Spec.chunks items) = Spec.chunk_sizes (length items)
    /\ concat (Spec.chunks items) = items.
Proof.
  induction n as [| n IH]; intros items Hlen.
  - destruct items; [split; reflexivity | cbn in Hlen; lia].
  - destruct (decide (items = [])) as [-> | Hne]; [split; reflexivity |].
    rewrite chunks_step by assumption. cbn [map concat].
    destruct (IH (drop 3 items)) as [Hsizes Hconcat].
    { rewrite length_drop. destruct items; [congruence | cbn in *; lia]. }
    rewrite Hsizes, Hconcat, take_drop, length_take, length_drop.
    split; [| reflexivity].
    destruct (decide (3 <= length items)) as [Hge | Hlt].
    + rewrite (chunk_sizes_step (length items)) by assumption.
      f_equal. lia.
    + destruct items as [| a [| b [| c items]]]; try reflexivity; try congruence.
      cbn in Hlt. lia.
Qed.

End ChunksOfAnyLength.

Section BatchMore.

Import DataExtraction.

Variable JSON_parse : string -> Thrown + Json.
Variable rev : Revision.
Variable request : BatchExtractionRequest.
Variable benv : BatchEnv.

Local Open Scope nat_scope.

Local Abbreviation items := (transcriptions request).
Local Abbreviation block := (Spec.chunk_block JSON_parse rev request benv).

(** The remote calls of an item: one when the prompt builds, which does
    not depend on the item, and none otherwise. *)
Lemma calls_of_item env item :
  length (Spec.calls JSON_parse rev request env item)
  = if Spec.prompt_builds rev (b_extractionType request) (b_customSchema request)
    then 1 else 0.
Proof.
  unfold Spec.calls.
  destruct (extractData_log_shape JSON_parse rev env
              (Spec.request_of request item) []) as [r ->].
  cbn [snd app Spec.request_of transcription extractionType customSchema].
  destruct rev, (b_extractionType request), (b_customSchema request); reflexivity.
Qed.

Lemma count_concat_imap (kind : BatchEvent -> bool) (w : nat)
    (g : nat -> Item -> list BatchEvent) (l : list Item) :
  (forall j item, length (List.filter kind (g j item)) = w) ->
  length (List.filter kind (concat (imap g l))) = w * length l.
Proof.
  revert g. induction l as [| item l IH]; intros g Hg; cbn; [lia |].
  rewrite List.filter_app, length_app, Hg, IH by (intros; apply Hg). lia.
Qed.

Lemma filter_map_const {X : Type} (kind : BatchEvent -> bool) (b : bool)
    (f : X -> BatchEvent) (l : list X) :
  (forall x, kind (f x) = b) ->
  length (List.filter kind (map f l)) = if b then length l else 0.
Proof.
  intros Hf. induction l as [| x l IH]; cbn; [by destruct b |].
  rewrite Hf. destruct b; cbn; by rewrite IH.
Qed.

(** The events of one kind in the block of a chunk, per item of the chunk:
    [ws] for its start and calls, [wt] for its settlement. *)
Lemma count_block (Hsettles : Spec.settles benv) (kind : BatchEvent -> bool)
    (ws : nat) (wt : bool) c :
  (forall k env item,
     length (List.filter kind
               (Started k :: map (fun ev => match ev with
                                            | RemoteCall p => Called k p
                                            end)
                                 (Spec.calls JSON_parse rev request env item)))
     = ws) ->
  (forall k, kind (Settled k) = wt) ->
  (forall ms, kind (Delay ms) = false) ->
  Spec.count kind (block c)
  = (ws + if wt then 1 else 0) * length (Spec.chunk items c).
Proof.
  intros Hs Ht Hd. unfold Spec.count, Spec.chunk_block.
  rewrite !List.filter_app, !length_app.
  rewrite (count_concat_imap kind ws) by (intros; apply Hs).
  rewrite (filter_map_const kind wt) by (intros; apply Ht).
  rewrite (Permutation_length (Hsettles _ _)), length_seq.
  assert (Hp : length (List.filter kind
                 (if c + 1 <? Spec.chunk_count (length items)
                  then [Delay 1000%Z] else [])) = 0).
  { destruct (c + 1 <? _); [cbn; by rewrite Hd | reflexivity]. }
  rewrite Hp. destruct wt; lia.
Qed.

Lemma count_blocks (Hsettles : Spec.settles benv) (kind : BatchEvent -> bool)
    (w : nat) (l : list nat) :
  (forall c, Spec.count kind (block c) = w * length (Spec.chunk items c)) ->
  Spec.count kind (concat (map block l))
  = w * length (concat (map (Spec.chunk items) l)).
Proof.
  intros Hb. unfold Spec.count in *.
  induction l as [| c l IH]; cbn [map concat]; [cbn; lia |].
  rewrite List.filter_app, !length_app, Hb, IH. lia.
Qed.

Lemma count_trace (Hsettles : Spec.settles benv) (kind : BatchEvent -> bool)
    (ws : nat) (wt : bool) :
  (forall k env item,
     length (List.filter kind
               (Started k :: map (fun ev => match ev with
                                            | RemoteCall p => Called k p
                                            end)
                                 (Spec.calls JSON_parse rev request env item)))
     = ws) ->
  (forall k, kind (Settled k) = wt) ->
  (forall ms, kind (Delay ms) = false) ->
  Spec.count kind (Spec.expected_trace JSON_parse rev request benv)
  = (ws + if wt then 1 else 0) * length items.
Proof.
  intros Hs Ht Hd. unfold Spec.expected_trace.
  rewrite (count_blocks Hsettles kind (ws + if wt then 1 else 0)).
  - fold (Spec.chunks items).
    by rewrite (proj2 (chunks_of_any_length (length items) items (le_n _))).
  - intros c. by apply count_block.
Qed.

Lemma count_called_cons k (calls : list Event) :
  length (List.filter Spec.is_called
            (Started k :: map (fun ev => match ev with
                                         | RemoteCall p => Called k p
                                         end) calls))
  = length calls.
Proof.
  cbn. induction calls as [| [p] calls IH]; cbn; [reflexivity | by rewrite IH].
Qed.

Lemma count_other_cons (kind : BatchEvent -> bool) k (calls : list Event) :
  (forall k p, kind (Called k p) = false) ->
  length (List.filter kind
            (Started k :: map (fun ev => match ev with
                                         | RemoteCall p => Called k p
                                         end) calls))
  = if kind (Started k) then 1 else 0.
Proof.
  intros Hc. cbn.
  assert (H0 : List.filter kind (map (fun ev => match ev with
                                               | RemoteCall p => Called k p
                                               end) calls) = []).
  { induction calls as [| [p] calls IH]; cbn; [reflexivity | by rewrite Hc]. }
  destruct (kind (Started k)); cbn; by rewrite H0.
Qed.

End BatchMore.

Section ItemsOfTrace.

Import DataExtraction.

Local Open Scope nat_scope.

Lemma omap_concat {A B : Type} (f : A -> option B) (ls : list (list A)) :
  omap f (concat ls) = concat (map (omap f) ls).
Proof.
  induction ls as [| l ls IH]; [reflexivity |].
  cbn [concat map]. by rewrite omap_app, IH.
Qed.

Lemma omap_map_none {A B C : Type} (f : B -> option C) (g : A -> B) (l : list A) :
  (forall x, f (g x) = None) -> omap f (map g l) = [].
Proof.
  intros H. induction l as [| x l IH]; [reflexivity |].
  cbn. by rewrite H.
Qed.

Lemma omap_map_some {A B C : Type} (f : B -> option C) (g : A -> B) (h : A -> C)
    (l : list A) :
  (forall x, f (g x) = Some (h x)) -> omap f (map g l) = map h l.
Proof.
  intros H. induction l as [| x l IH]; [reflexivity |].
  cbn. rewrite H. cbn. by rewrite IH.
Qed.

Lemma concat_imap_singleton {A : Type} (i : nat) (l : list A) :
  concat (imap (fun j _ => [i + j]) l) = seq i (length l).
Proof.
  revert i. induction l as [| x l IH]; intros i; [reflexivity |].
  cbn [imap concat length seq app]. rewrite Nat.add_0_r. f_equal.
  rewrite <- IH. f_equal. apply imap_ext. intros j y _. cbn. f_equal. lia.
Qed.

Lemma concat_imap_nil {A B : Type} (l : list A) :
  concat (imap (fun _ _ => @nil B) l) = [].
Proof.
  induction l as [| x l IH]; [reflexivity |]. cbn. exact IH.
Qed.

Lemma Permutation_concat_map {A B : Type} (f g : A -> list B) (l : list A) :
  (forall x, Permutation (f x) (g x)) ->
  Permutation (concat (map f l)) (concat (map g l)).
Proof.
  intros H. induction l as [| x l IH]; [reflexivity |].
  cbn [map concat]. by apply Permutation_app.
Qed.

Lemma chunk_size (items : list Item) (c : nat) :
  length (Spec.chunk items c) = Nat.min 3 (length items - 3 * c).
Proof. unfold Spec.chunk. by rewrite length_take, length_drop. Qed.

(** The positions of the chunks [c0], ..., [c0 + m - 1], one chunk after
    the other, are the positions from [3 c0] on. *)
Lemma positions_of_chunks (items : list Item) (m c0 : nat) :
  concat (map (fun c => seq (3 * c) (length (Spec.chunk items c))) (seq c0 m))
  = seq (3 * c0) (Nat.min (3 * m) (length items - 3 * c0)).
Proof.
  revert c0. induction m as [| m IH]; intros c0; [reflexivity |].
  cbn [seq map concat]. rewrite IH, chunk_size.
  destruct (decide (3 <= length items - 3 * c0)) as [Hge | Hlt].
  - replace (Nat.min 3 (length items - 3 * c0)) with 3 by lia.
    replace (Nat.min (3 * S m) (length items - 3 * c0))
      with (3 + Nat.min (3 * m) (length items - 3 * S c0)) by lia.
    rewrite seq_app. do 2 f_equal. lia.
  - replace (Nat.min (3 * m) (length items - 3 * S c0)) with 0 by lia.
    rewrite app_nil_r. f_equal. lia.
Qed.

Lemma positions_of_all_chunks (items : list Item) :
  concat (map (fun c => seq (3 * c) (length (Spec.chunk items c)))
              (seq 0 (Spec.chunk_count (length items))))
  = seq 0 (length items).
Proof.
  rewrite positions_of_chunks. f_equal.
  pose proof (chunk_count_lt (length items) (Spec.chunk_count (length items))) as H.
  lia.
Qed.

Variable JSON_parse : string -> Thrown + Json.
Variable rev : Revision.
Variable request : BatchExtractionRequest.
Variable benv : BatchEnv.

Local Abbreviation items := (transcriptions request).
Local Abbreviation block := (Spec.chunk_block JSON_parse rev request benv).

Lemma map_imap {A B C : Type} (f : B -> C) (g : nat -> A -> B) (l : list A) :
  map f (imap g l) = imap (fun j x => f (g j x)) l.
Proof.
  revert g. induction l as [| x l IH]; intros g; [reflexivity |].
  cbn. f_equal. apply IH.
Qed.

(** The items of one kind in the block of a chunk: [w] tells whether the
    start and the calls of an item yield the item, [t] whether its
    settlement does. *)
Lemma items_of_block (sel : BatchEvent -> option nat) (w t : bool) (c : nat) :
  (forall k env item,
     omap sel (Started k :: map (fun ev => match ev with
                                           | RemoteCall p => Called k p
                                           end)
                                (Spec.calls JSON_parse rev request env item))
     = if w then [k] else []) ->
  (forall k, sel (Settled k) = if t then Some k else None) ->
  (forall ms, sel (Delay ms) = None) ->
  omap sel (block c)
  = (if w then seq (3 * c) (length (Spec.chunk items c)) else [])
    ++ (if t
        then map (Nat.add (3 * c))
                 (settleOrder benv (3 * c) (length (Spec.chunk items c)))
        else []).
Proof.
  intros Hs Ht Hd. unfold Spec.chunk_block.
  rewrite !omap_app, omap_concat, map_imap.
  assert (Hp : omap sel (if c + 1 <? Spec.chunk_count (length items)
                         then [Delay 1000%Z] else []) = []).
  { destruct (c + 1 <? _); [cbn; by rewrite Hd | reflexivity]. }
  rewrite Hp, app_nil_r. f_equal.
  - rewrite (imap_ext _ (fun j _ => if w then [3 * c + j] else []))
      by (intros; apply Hs).
    destruct w; [apply concat_imap_singleton | apply concat_imap_nil].
  - destruct t.
    + apply omap_map_some. intros j. apply Ht.
    + apply omap_map_none. intros j. apply Ht.
Qed.

Lemma items_of_trace (sel : BatchEvent -> option nat) (w t : bool) :
  (forall k env item,
     omap sel (Started k :: map (fun ev => match ev with
                                           | RemoteCall p => Called k p
                                           end)
                                (Spec.calls JSON_parse rev request env item))
     = if w then [k] else []) ->
  (forall k, sel (Settled k) = if t then Some k else None) ->
  (forall ms, sel (Delay ms) = None) ->
  omap sel (Spec.expected_trace JSON_parse rev request benv)
  = concat (map (fun c =>
                   (if w then seq (3 * c) (length (Spec.chunk items c)) else [])
                   ++ (if t
                       then map (Nat.add (3 * c))
                              (settleOrder benv (3 * c) (length (Spec.chunk items c)))
                       else []))
                (seq 0 (Spec.chunk_count (length items)))).
Proof.
  intros Hs Ht Hd. unfold Spec.expected_trace.
  rewrite omap_concat, map_map. f_equal.
  apply map_ext. intros c. by apply items_of_block.
Qed.

Lemma concat_map_nil {A B : Type} (l : list A) :
  concat (map (fun _ => @nil B) l) = [].
Proof. induction l as [| x l IH]; [reflexivity | exact IH]. Qed.

Lemma started_items_of_trace :
  omap Spec.started_item (Spec.expected_trace JSON_parse rev request benv)
  = seq 0 (length items).
Proof.
  rewrite (items_of_trace Spec.started_item true false).
  - rewrite <- positions_of_all_chunks. f_equal.
    apply map_ext. intros c. apply app_nil_r.
  - intros k env item. cbn. rewrite omap_map_none; [reflexivity |].
    by intros [p].
  - reflexivity.
  - reflexivity.
Qed.

Lemma called_items_of_trace :
  omap Spec.called_item (Spec.expected_trace JSON_parse rev request benv)
  = if Spec.prompt_builds rev (b_extractionType request) (b_customSchema request)
    then seq 0 (length items) else [].
Proof.
  rewrite (items_of_trace Spec.called_item
             (Spec.prompt_builds rev (b_extractionType request)
                (b_customSchema request)) false).
  - destruct (Spec.prompt_builds _ _ _).
    + rewrite <- positions_of_all_chunks. f_equal.
      apply map_ext. intros c. apply app_nil_r.
    + apply concat_map_nil.
  - intros k env item. cbn [omap list_omap Spec.called_item].
    pose proof (calls_of_item JSON_parse rev request env item) as Hlen.
    rewrite (omap_map_some _ _ (fun _ => k)) by (by intros [p]).
    destruct (Spec.prompt_builds _ _ _);
      destruct (Spec.calls _ _ _ _ _) as [| e [| e' l]]; try discriminate;
      reflexivity.
  - reflexivity.
  - reflexivity.
Qed.

Lemma settled_items_of_trace :
  Spec.settles benv ->
  Permutation
    (omap Spec.settled_item (Spec.expected_trace JSON_parse rev request benv))
    (seq 0 (length items)).
Proof.
  intros Hsettles.
  rewrite (items_of_trace Spec.settled_item false true).
  - rewrite <- positions_of_all_chunks.
    apply Permutation_concat_map. intros c. cbn [app].
    rewrite (Hsettles (3 * c) (length (Spec.chunk items c))).
    change (map (Nat.add (3 * c)) (seq 0 (length (Spec.chunk items c))))
      with (Nat.add (3 * c) <$> seq 0 (length (Spec.chunk items c))).
    rewrite fmap_add_seq. by rewrite Nat.add_0_r.
  - intros k env item. cbn. rewrite omap_map_none; [reflexivity |].
    by intros [p].
  - reflexivity.
  - reflexivity.
Qed.

End ItemsOfTrace.

Section BatchExtras.

Import DataExtraction.

Local Open Scope nat_scope.

(** X6.  A batch of any length, also an empty one or one above the router's
    limit of ten, in an environment where every promise settles:
    [extractDataBatch] returns, with one entry per item and the ids in the
    order of the items; its trace is the chunk-by-chunk trace, the chunks
    being the items cut into threes and a remainder; an empty batch
    returns no entry and does nothing. *)
Theorem extractDataBatch_of_any_length
    (JSON_parse : string -> Thrown + Json) (rev : Revision)
    (request : BatchExtractionRequest) (benv : BatchEnv) :
  Spec.settles benv ->
  exists results trace,
    extractDataBatch JSON_parse rev request benv = Some (inr results, trace)
    /\ length results = length (transcriptions request)
    /\ map r_id results = map id (transcriptions request)
    /\ trace = Spec.expected_trace JSON_parse rev request benv
    /\ length (Spec.chunks (transcriptions request))
       = Spec.chunk_count (length (transcriptions request))
    /\ map length (Spec.chunks (transcriptions request))
       = Spec.chunk_sizes (length (transcriptions request))
    /\ concat (Spec.chunks (transcriptions request)) = transcriptions request
    /\ (transcriptions request = [] -> results = [] /\ trace = []).
Proof.
  intros Hsettles.
  eexists _, _. split; [by apply extractDataBatch_runs |].
  destruct (chunks_of_any_length _ (transcriptions request) (le_n _))
    as [Hsizes Hconcat].
  split; [apply length_imap |].
  split; [apply entries_ids |].
  split; [reflexivity |].
  split; [unfold Spec.chunks; by rewrite length_map, length_seq |].
  split; [exact Hsizes |].
  split; [exact Hconcat |].
  intros Hnil. unfold Spec.expected_trace. rewrite Hnil. split; reflexivity.
Qed.

Lemma extractDataBatch_of_any_length_witness :
  exists results trace,
    extractDataBatch Sample.parse Comprehensive Sample.eleven Sample.fourth_fails
    = Some (inr results, trace)
    /\ length results = 11
    /\ map r_id results = ["1"; "2"; "3"; "4"; "5"; "6"; "7"; "8"; "9"; "10"; "11"]
    /\ trace = Spec.expected_trace Sample.parse Comprehensive
                 Sample.eleven Sample.fourth_fails
    /\ length (Spec.chunks (transcriptions Sample.eleven)) = 4
    /\ map length (Spec.chunks (transcriptions Sample.eleven)) = [3; 3; 3; 2]
    /\ concat (Spec.chunks (transcriptions Sample.eleven))
       = transcriptions Sample.eleven
    /\ (transcriptions Sample.eleven = [] -> results = [] /\ trace = []).
Proof.
  apply (extractDataBatch_of_any_length Sample.parse Comprehensive
           Sample.eleven Sample.fourth_fails).
  intros i n. cbn. symmetry. apply Permutation_rev.
Defined.

(** X7.  What a batch of N items does, item by item: the items started
    are the items 0, ..., N-1, each once and in this order; the items that
    settle are the same items, each once, in some order; the items the
    provider is called for are again the items 0, ..., N-1, each once and
    in order, when the prompt of the batch builds, and none when it does
    not.  So there are N starts, N settlements and N calls or none, and no
    call is ever repeated. *)
Theorem extractDataBatch_event_counts
    (JSON_parse : string -> Thrown + Json) (rev : Revision)
    (request : BatchExtractionRequest) (benv : BatchEnv) :
  Spec.settles benv ->
  exists results trace,
    extractDataBatch JSON_parse rev request benv = Some (inr results, trace)
    /\ omap Spec.started_item trace = seq 0 (length (transcriptions request))
    /\ Permutation (omap Spec.settled_item trace)
                   (seq 0 (length (transcriptions request)))
    /\ omap Spec.called_item trace
       = (if Spec.prompt_builds rev (b_extractionType request) (b_customSchema request)
          then seq 0 (length (transcriptions request)) else [])
    /\ Spec.count Spec.is_started trace = length (transcriptions request)
    /\ Spec.count Spec.is_settled trace = length (transcriptions request)
    /\ Spec.count Spec.is_called trace
       = (if Spec.prompt_builds rev (b_extractionType request) (b_customSchema request)
          then length (transcriptions request) else 0).
Proof.
  intros Hsettles.
  eexists _, _. split; [by apply extractDataBatch_runs |].
  split; [apply started_items_of_trace |].
  split; [by apply settled_items_of_trace |].
  split; [apply called_items_of_trace |].
  split; [| split].
  - rewrite (count_trace JSON_parse rev request benv Hsettles Spec.is_started 1 false);
      [lia | | reflexivity | reflexivity].
    intros k env item. by rewrite count_other_cons.
  - rewrite (count_trace JSON_parse rev request benv Hsettles Spec.is_settled 0 true);
      [lia | | reflexivity | reflexivity].
    intros k env item. by rewrite count_other_cons.
  - rewrite (count_trace JSON_parse rev request benv Hsettles Spec.is_called
               (if Spec.prompt_builds rev (b_extractionType request)
                     (b_customSchema request) then 1 else 0) false);
      [| | reflexivity | reflexivity].
    + destruct (Spec.prompt_builds _ _ _); lia.
    + intros k env item. rewrite count_called_cons. apply calls_of_item.
Qed.

Lemma extractDataBatch_event_counts_witness :
  exists results trace,
    extractDataBatch Sample.parse Comprehensive Sample.seven Sample.fourth_fails
    = Some (inr results, trace)
    /\ omap Spec.started_item trace = [0; 1; 2; 3; 4; 5; 6]
    /\ Permutation (omap Spec.settled_item trace) [0; 1; 2; 3; 4; 5; 6]
    /\ omap Spec.called_item trace = [0; 1; 2; 3; 4; 5; 6]
    /\ Spec.count Spec.is_started trace = 7
    /\ Spec.count Spec.is_settled trace = 7
    /\ Spec.count Spec.is_called trace = 7.
Proof.
  apply (extractDataBatch_event_counts Sample.parse Comprehensive
           Sample.seven Sample.fourth_fails).
  intros i n. cbn. symmetry. apply Permutation_rev.
Defined.

End BatchExtras.

Section BatchStalls.

Import DataExtraction.

Local Open Scope nat_scope.





Variable JSON_parse : string -> Thrown + Json.
Variable rev : Revision.
Variable request : BatchExtractionRequest.
Variable benv : BatchEnv.

Local Abbreviation items := (transcriptions request).


End BatchStalls.

Section BatchExtras2.

Import DataExtraction.

Local Open Scope nat_scope.



(** X9.  A batch of type [custom] without a schema makes no remote call: every
    item gets the failure result with the message that a schema is
    required.  The orchestrator still sleeps for a second between the
    chunks. *)
Theorem custom_batch_without_schema
    (JSON_parse : string -> Thrown + Json) (rev : Revision)
    (request : BatchExtractionRequest) (benv : BatchEnv) :
  b_extractionType request = custom ->
  b_customSchema request = None ->
  Spec.settles benv ->
  exists results trace,
    extractDataBatch JSON_parse rev request benv = Some (inr results, trace)
    /\ length results = length (transcriptions request)
    /\ Forall (fun entry =>
                 error entry = None
                 /\ success (result entry) = false
                 /\ extractedData (result entry)
                    = JObject [("error",
                                JString "Custom schema is required for custom extraction type")])
              results
    /\ Spec.count Spec.is_called trace = 0
    /\ Spec.count Spec.is_delay trace
       = Spec.chunk_count (length (transcriptions request)) - 1.
Proof.
  intros Htype Hschema Hsettles.
  eexists _, _. split; [by apply extractDataBatch_runs |].
  split; [apply length_imap |]. split; [| split].
  - apply Forall_forall. intros entry Hin.
    apply elem_of_lookup_imap in Hin as (k & item & -> & _).
    unfold Spec.entry, Spec.result_of, Spec.request_of, extractData, try_catch,
      extractData_try, extractData_catch, bind, lift.
    rewrite Htype, Hschema. by destruct rev.
  - rewrite (count_trace JSON_parse rev request benv Hsettles Spec.is_called 0 false);
      [lia | | reflexivity | reflexivity].
    intros k env item. rewrite count_called_cons, calls_of_item.
    rewrite Htype, Hschema. by destruct rev.
  - apply delays_of_trace.
Qed.

Lemma custom_batch_without_schema_witness :
  exists results trace,
    extractDataBatch Sample.parse Comprehensive
      {| transcriptions := transcriptions Sample.seven;
         b_extractionType := custom; b_customSchema := None;
         b_userId := "test-user" |} Sample.fourth_fails
    = Some (inr results, trace)
    /\ length results = 7
    /\ Forall (fun entry =>
                 error entry = None
                 /\ success (result entry) = false
                 /\ extractedData (result entry)
                    = JObject [("error",
                                JString "Custom schema is required for custom extraction type")])
              results
    /\ Spec.count Spec.is_called trace = 0
    /\ Spec.count Spec.is_delay trace = 2.
Proof.
  apply (custom_batch_without_schema Sample.parse Comprehensive
           {| transcriptions := transcriptions Sample.seven;
              b_extractionType := custom; b_customSchema := None;
              b_userId := "test-user" |} Sample.fourth_fails).
  - reflexivity.
  - reflexivity.
  - intros i n. cbn. symmetry. apply Permutation_rev.
Defined.

End BatchExtras2.

(* ================================================================== *)
(** ** More about the extraction router *)
(* ================================================================== *)

Section RouterMore.

Import Http DataExtraction ExtractionRoute.

Local Open Scope nat_scope.

(** X10.  [POST /extract] answers in one of three ways.  A body that fails
    validation: 400, nothing sent to the provider.  A valid body without
    the API key: 500, nothing sent.  A valid body with the key: 200 with
    [success: true], whatever became of the extraction, whose own result,
    success or failure, is under [extractedData].  So a failure of the
    provider, a rate limit included, is never answered 429 or 500. *)
Theorem post_extract_answers
    (JSON_parse : string -> Thrown + Json) (rev : Revision)
    (OPENAI_API_KEY : option string) (env : CallEnv) (timestamp : string)
    (reqBody : Json) :
  (extractionRequestSchema_parse reqBody = None ->
   post_extract JSON_parse rev OPENAI_API_KEY env timestamp reqBody
   = (error_response 400 "Invalid extraction request", []))
  /\ (forall validated,
        extractionRequestSchema_parse reqBody = Some validated ->
        (OPENAI_API_KEY = None \/ OPENAI_API_KEY = Some "" ->
         post_extract JSON_parse rev OPENAI_API_KEY env timestamp reqBody
         = (error_response 500 "Data extraction failed", []))
        /\ (forall c key,
              OPENAI_API_KEY = Some (String c key) ->
              exists r log,
                extractData JSON_parse rev env
                  {| transcription := e_transcription validated;
                     extractionType := e_extractionType validated;
                     customSchema := e_customSchema validated;
                     userId := "test-user" |} [] = (inr r, log)
                /\ snd (post_extract JSON_parse rev OPENAI_API_KEY env timestamp reqBody)
                   = log
                /\ status (fst (post_extract JSON_parse rev OPENAI_API_KEY env
                                  timestamp reqBody)) = 200%Z
                /\ member "success"
                     (Some (body (fst (post_extract JSON_parse rev OPENAI_API_KEY env
                                         timestamp reqBody))))
                   = Some (JBool true)
                /\ member "extractedData"
                     (Some (body (fst (post_extract JSON_parse rev OPENAI_API_KEY env
                                         timestamp reqBody))))
                   = Some (json_of_result r))).
Proof.
  split.
  - intros Hnone. unfold post_extract. by rewrite Hnone.
  - intros validated Hsome. split.
    + intros [-> | ->]; unfold post_extract; rewrite Hsome; reflexivity.
    + intros c key ->. unfold post_extract. rewrite Hsome.
      cbn [new_DataExtractionService].
      destruct (extractData_total JSON_parse rev env
                  {| transcription := e_transcription validated;
                     extractionType := e_extractionType validated;
                     customSchema := e_customSchema validated;
                     userId := "test-user" |} []) as (r & log & Hrun).
      rewrite Hrun. exists r, log. repeat split.
Qed.

Lemma post_extract_answers_witness :
  exists r log,
    extractData Sample.parse Comprehensive Sample.env_down
      {| transcription := Sample.transcript; extractionType := repair_details;
         customSchema := None; userId := "test-user" |} [] = (inr r, log)
    /\ snd (post_extract Sample.parse Comprehensive (Some "sk-test") Sample.env_down
              "2025-01-01T00:00:00.000Z"
              (JObject [("transcription", JString Sample.transcript)]))
       = log
    /\ status (fst (post_extract Sample.parse Comprehensive (Some "sk-test")
                      Sample.env_down "2025-01-01T00:00:00.000Z"
                      (JObject [("transcription", JString Sample.transcript)])))
       = 200%Z
    /\ member "success"
         (Some (body (fst (post_extract Sample.parse Comprehensive (Some "sk-test")
                             Sample.env_down "2025-01-01T00:00:00.000Z"
                             (JObject [("transcription", JString Sample.transcript)])))))
       = Some (JBool true)
    /\ member "extractedData"
         (Some (body (fst (post_extract Sample.parse Comprehensive (Some "sk-test")
                             Sample.env_down "2025-01-01T00:00:00.000Z"
                             (JObject [("transcription", JString Sample.transcript)])))))
       = Some (json_of_result r).
Proof.
  refine (proj2 (proj2 (post_extract_answers Sample.parse Comprehensive
            (Some "sk-test") Sample.env_down "2025-01-01T00:00:00.000Z"
            (JObject [("transcription", JString Sample.transcript)]))
            {| e_transcription := Sample.transcript;
               e_extractionType := repair_details;
               e_customSchema := None |} _) "s"%char "k-test" _);
    reflexivity.
Defined.

(** X11.  [POST /batch], when it answers, answers 200, 400 or 500, under any
    order of settlement: its 429 is never taken, and with a valid body and
    the API key set its only answer is 200. *)
Theorem post_batch_statuses
    (JSON_parse : string -> Thrown + Json) (rev : Revision)
    (OPENAI_API_KEY : option string) (benv : BatchEnv) (timestamp : string)
    (reqBody : Json) :
  match post_batch JSON_parse rev OPENAI_API_KEY benv timestamp reqBody with
  | None => True
  | Some (response, trace) =>
      match batchExtractionSchema_parse reqBody, OPENAI_API_KEY with
      | None, _ => status response = 400%Z /\ trace = []
      | Some _, Some (String _ _) => status response = 200%Z
      | Some _, _ => status response = 500%Z /\ trace = []
      end
  end.
Proof.
  unfold post_batch.
  destruct (batchExtractionSchema_parse reqBody) as [validated |];
    [| split; reflexivity].
  destruct OPENAI_API_KEY as [[| c key] |]; cbn [new_DataExtractionService];
    try (split; reflexivity).
  unfold extractDataBatch.
  pose proof (batch_loop_no_error JSON_parse rev
                {| transcriptions := v_transcriptions validated;
                   b_extractionType := v_extractionType validated;
                   b_customSchema := v_customSchema validated;
                   b_userId := "test-user" |} benv
                (S (length (v_transcriptions validated))) 0 [] []
                (List.Forall_nil _)) as Hloop.
  cbn [transcriptions] in *.
  destruct (batch_loop _ _ _ _ _ _ _ _) as [[[e | results] trace] |];
    [contradiction | reflexivity | exact I].
Qed.

(** X12.  Validation of a batch is all or nothing: one item whose text has fewer
    than ten characters makes the handler answer 400 for the whole batch,
    before anything is dispatched. *)
Theorem batch_with_a_short_text_is_refused
    (JSON_parse : string -> Thrown + Json) (rev : Revision)
    (OPENAI_API_KEY : option string) (benv : BatchEnv) (timestamp : string)
    (members : list (string * Json)) (elements : list Json)
    (fields : list (string * Json)) (t : string) :
  assoc "transcriptions" members = Some (JArray elements) ->
  JObject fields ∈ elements ->
  assoc "text" fields = Some (JString t) ->
  String.length t < 10 ->
  post_batch JSON_parse rev OPENAI_API_KEY benv timestamp (JObject members)
  = Some (error_response 400 "Invalid batch extraction request", []).
Proof.
  intros Hts Hin Htext Hshort.
  unfold post_batch, batchExtractionSchema_parse. cbn [z_object]. rewrite Hts.
  assert (Hz : z_transcriptions (Some (JArray elements)) = None).
  { unfold z_transcriptions.
    rewrite (mapM_None_2 z_item elements); [reflexivity |].
    apply Exists_exists. exists (JObject fields). split; [assumption |].
    unfold z_item. cbn [z_object]. unfold z_string_min. rewrite Htext.
    cbn [z_string]. rewrite (proj2 (Nat.leb_gt _ _)) by assumption.
    by destruct (z_string (assoc "id" fields)). }
  by rewrite Hz.
Qed.

Lemma batch_with_a_short_text_is_refused_witness :
  post_batch Sample.parse Comprehensive (Some "sk-test") Sample.fourth_fails
    "2025-01-01T00:00:00.000Z"
    (JObject [("transcriptions",
               JArray [JObject [("id", JString "a");
                                ("text", JString Sample.transcript)];
                       JObject [("id", JString "b"); ("text", JString "too short")]])])
  = Some (error_response 400 "Invalid batch extraction request", []).
Proof.
  apply (batch_with_a_short_text_is_refused Sample.parse Comprehensive
           (Some "sk-test") Sample.fourth_fails "2025-01-01T00:00:00.000Z" _
           [JObject [("id", JString "a"); ("text", JString Sample.transcript)];
            JObject [("id", JString "b"); ("text", JString "too short")]]
           [("id", JString "b"); ("text", JString "too short")] "too short").
  - reflexivity.
  - right. left.
  - reflexivity.
  - cbn. lia.
Defined.

(** X13.  In the later revision the extraction type only names the result: two
    requests with the same transcription and types other than [custom]
    send the same prompt and get the same result, up to the type echoed;
    a schema sent along is ignored. *)
Theorem comprehensive_ignores_the_type
    (JSON_parse : string -> Thrown + Json) (env : CallEnv)
    (text : string) (t1 t2 : ExtractionType)
    (schema1 schema2 : option CustomSchema) (user1 user2 : string)
    (log : list Event) :
  t1 <> custom -> t2 <> custom ->
  exists r1 r2 log',
    extractData JSON_parse Comprehensive env
      {| transcription := text; extractionType := t1;
         customSchema := schema1; userId := user1 |} log = (inr r1, log')
    /\ extractData JSON_parse Comprehensive env
         {| transcription := text; extractionType := t2;
            customSchema := schema2; userId := user2 |} log = (inr r2, log')
    /\ log' = log ++ [RemoteCall (basePrompt text +:+ comprehensivePrompt)]
    /\ r_extractionType r1 = t1
    /\ r_extractionType r2 = t2
    /\ success r1 = success r2
    /\ extractedData r1 = extractedData r2
    /\ confidence r1 = confidence r2
    /\ processingTime r1 = processingTime r2
    /\ tokens r1 = tokens r2.
Proof.
  intros H1 H2.
  assert (Hb : forall t s, t <> custom ->
            buildExtractionPrompt Comprehensive text t s
            = inr (basePrompt text +:+ comprehensivePrompt))
    by (intros [] ? ?; first [reflexivity | congruence]).
  unfold extractData, try_catch, extractData_try, extractData_catch,
    bind, lift, chat_completions_create, emit, throw, ret.
  cbn [transcription extractionType customSchema].
  rewrite (Hb t1 schema1 H1), (Hb t2 schema2 H2).
  generalize (basePrompt text +:+ comprehensivePrompt). intros p. cbn.
  assert (Hdone : forall r1 r2 : ExtractionResult,
            r_extractionType r1 = t1 -> r_extractionType r2 = t2 ->
            success r1 = success r2 -> extractedData r1 = extractedData r2 ->
            confidence r1 = confidence r2 -> processingTime r1 = processingTime r2 ->
            tokens r1 = tokens r2 ->
            exists r1' r2' log',
              (inr r1 : Thrown + ExtractionResult, log ++ [RemoteCall p]) = (inr r1', log')
              /\ (inr r2 : Thrown + ExtractionResult, log ++ [RemoteCall p]) = (inr r2', log')
              /\ log' = log ++ [RemoteCall p]
              /\ r_extractionType r1' = t1
              /\ r_extractionType r2' = t2
              /\ success r1' = success r2'
              /\ extractedData r1' = extractedData r2'
              /\ confidence r1' = confidence r2'
              /\ processingTime r1' = processingTime r2'
              /\ tokens r1' = tokens r2').
  { intros r1 r2 ? ? ? ? ? ? ?. exists r1, r2, (log ++ [RemoteCall p]).
    repeat split; assumption. }
  destruct (respond env p) as [e | c]; [by apply Hdone |].
  destruct (responseText_of c) as [[| a s] |]; try (by apply Hdone).
  destruct (JSON_parse _) as [e | d]; [by apply Hdone |].
  destruct (get_own _ d) as [e | g]; by apply Hdone.
Qed.

Lemma comprehensive_ignores_the_type_witness :
  exists r1 r2 log',
    extractData Sample.parse Comprehensive Sample.env_ok
      {| transcription := Sample.transcript; extractionType := labor_hours;
         customSchema := None; userId := "a" |} [] = (inr r1, log')
    /\ extractData Sample.parse Comprehensive Sample.env_ok
         {| transcription := Sample.transcript; extractionType := customer_info;
            customSchema := Some Sample.empty_schema; userId := "b" |} []
       = (inr r2, log')
    /\ log' = [] ++ [RemoteCall (basePrompt Sample.transcript +:+ comprehensivePrompt)]
    /\ r_extractionType r1 = labor_hours
    /\ r_extractionType r2 = customer_info
    /\ success r1 = success r2
    /\ extractedData r1 = extractedData r2
    /\ confidence r1 = confidence r2
    /\ processingTime r1 = processingTime r2
    /\ tokens r1 = tokens r2.
Proof.
  apply (comprehensive_ignores_the_type Sample.parse Sample.env_ok Sample.transcript
           labor_hours customer_info None (Some Sample.empty_schema) "a" "b" []);
    discriminate.
Defined.

(** X14.  The catalogue of [GET /schemas] and the prompts name the same fields
    in the same order: in the later revision the 55 names of the
    comprehensive prompt, in the earlier one the names of the prompt of
    each of the four types. *)
Theorem catalogue_lists_the_prompt_fields :
  listed_fields get_schemas = map JString (Spec.prompt_fields comprehensivePrompt)
  /\ fields_of_type (get_schemas_per_type (Some "user_1")) repair_details
     = map JString (Spec.prompt_fields repairDetailsPrompt)
  /\ fields_of_type (get_schemas_per_type (Some "user_1")) parts_inventory
     = map JString (Spec.prompt_fields partsInventoryPrompt)
  /\ fields_of_type (get_schemas_per_type (Some "user_1")) labor_hours
     = map JString (Spec.prompt_fields laborHoursPrompt)
  /\ fields_of_type (get_schemas_per_type (Some "user_1")) customer_info
     = map JString (Spec.prompt_fields customerInfoPrompt).
Proof. vm_compute. repeat split. Qed.

End RouterMore.

(* ================================================================== *)
(** ** More about uploads and transcription *)
(* ================================================================== *)

Section UploadMore.

Import Http Transcription.

Local Open Scope Z_scope.



(** The two prefixes the service puts before a provider's message do not
    change whether the message mentions one of the two phrases the handler
    looks for. *)
Lemma wrapped_mentions (m : string) :
  includes "file type"
    ("Transcription failed: " +:+ "Fal.ai Whisper transcription failed: " +:+ m)
  = includes "file type" m
  /\ includes "File too large"
       ("Transcription failed: " +:+ "Fal.ai Whisper transcription failed: " +:+ m)
     = includes "File too large" m.
Proof. split; reflexivity. Qed.

(** X16.  A failure of the remote provider on an accepted upload: if storing the
    audio fails, the transcription is never asked for.  The answer is 500,
    except that a provider message that mentions "file type" or "File too
    large" is taken for a fault of the upload and answered 400; it is never
    200. *)
Theorem upload_provider_failure
    (FAL_KEY : option string) (remote : Remote) (now : string)
    (file : File) (form : Form) (options : TranscriptionOptions)
    (c : ascii) (key : string) :
  transcriptionOptionsSchema_parse form = Some options ->
  model options = fal_whisper ->
  FAL_KEY = Some (String c key) ->
  (forall e,
     storage_upload remote = inl e ->
     exists response,
       upload_handler FAL_KEY remote now (Some file) form
       = (response, [StorageUpload (originalname file)])
       /\ status response
          = (if includes "file type" (message_or "Unknown error" e)
                || includes "File too large" (message_or "Unknown error" e)
             then 400 else 500))
  /\ (forall url e,
        storage_upload remote = inr url ->
        subscribe remote url = inl e ->
        exists response,
          upload_handler FAL_KEY remote now (Some file) form
          = (response, [StorageUpload (originalname file); Subscribe url])
          /\ status response
             = (if includes "file type" (message_or "Unknown error" e)
                   || includes "File too large" (message_or "Unknown error" e)
                then 400 else 500)).
Proof.
  intros Hoptions Hmodel ->.
  assert (Hstatus : forall m,
            status (upload_failure
                      (ThrownError ("Transcription failed: "
                                    +:+ "Fal.ai Whisper transcription failed: " +:+ m)))
            = if includes "file type" m || includes "File too large" m
              then 400 else 500).
  { intros m. unfold upload_failure.
    destruct (wrapped_mentions m) as [-> ->].
    destruct (includes "file type" m); [reflexivity |].
    destruct (includes "File too large" m); reflexivity. }
  split.
  - intros e He. unfold upload_handler. rewrite Hoptions.
    cbn [new_SpeechToTextService].
    unfold transcribe, transcribeWithFalWhisper, try_catch, bind, emit, lift, throw.
    rewrite Hmodel, He. cbn [app message_or].
    eexists. split; [reflexivity |]. apply Hstatus.
  - intros url e Hurl He. unfold upload_handler. rewrite Hoptions.
    cbn [new_SpeechToTextService].
    unfold transcribe, transcribeWithFalWhisper, try_catch, bind, emit, lift, throw.
    rewrite Hmodel, Hurl. cbn [app]. rewrite He. cbn [message_or].
    eexists. split; [reflexivity |]. apply Hstatus.
Qed.

Lemma upload_provider_failure_witness :
  exists response,
    upload_handler (Some "fal-key")
      {| storage_upload := inl (ThrownError "Unsupported file type: audio/x-raw");
         subscribe := fun _ => inl ThrownOther |}
      "2025-01-01T00:00:00.000Z"
      (Some {| mimetype := "audio/wav"; originalname := "day.wav"; size := 10 |})
      Sample.form
    = (response, [StorageUpload "day.wav"])
    /\ status response = 400.
Proof.
  refine (proj1 (upload_provider_failure (Some "fal-key")
            {| storage_upload := inl (ThrownError "Unsupported file type: audio/x-raw");
               subscribe := fun _ => inl ThrownOther |}
            "2025-01-01T00:00:00.000Z"
            {| mimetype := "audio/wav"; originalname := "day.wav"; size := 10 |}
            Sample.form
            {| language := None; model := fal_whisper; timestamp := true;
               speakerDiarization := false |}
            "f"%char "al-key" _ _ _)
            (ThrownError "Unsupported file type: audio/x-raw") _);
    reflexivity.
Defined.

End UploadMore.

(* ================================================================== *)
(** ** More about transcription *)
(* ================================================================== *)

Section TranscriptionMore.

Import Http Transcription.

Lemma count_spaces_nonneg (s : string) : 0 <= count_spaces s.
Proof.
  induction s as [| c s IH]; cbn [count_spaces]; [lia |].
  destruct (Ascii.eqb c " "); lia.
Qed.

End TranscriptionMore.

Section TranscriptionExtras.

Import Http Transcription.

(** X17.  With the Whisper model, [transcribe] returns a result exactly when the
    provider stores the audio and then answers the transcription request.
    It has then asked the provider twice, for the storage first and for
    the transcription of the address the storage returned; the text is the
    provider's, and the word count is one more than the number of spaces
    in it, so at least 1 even for an empty text. *)
Theorem transcribe_with_whisper
    (remote : Remote) (file : File) (options : TranscriptionOptions)
    (log : list Event) :
  model options = fal_whisper ->
  ((exists result log', transcribe remote file options log = (inr result, log'))
   <-> exists url data,
         storage_upload remote = inr url /\ subscribe remote url = inr data)
  /\ (forall result log',
        transcribe remote file options log = (inr result, log') ->
        exists url data,
          storage_upload remote = inr url
          /\ subscribe remote url = inr data
          /\ log' = log ++ [StorageUpload (originalname file); Subscribe url]
          /\ text result = w_text data
          /\ wordCount result = count_spaces (w_text data) + 1
          /\ 1 <= wordCount result).
Proof.
  intros Hmodel.
  assert (Hout : forall result log',
            transcribe remote file options log = (inr result, log') ->
            exists url data,
              storage_upload remote = inr url
              /\ subscribe remote url = inr data
              /\ log' = log ++ [StorageUpload (originalname file); Subscribe url]
              /\ text result = w_text data
              /\ wordCount result = count_spaces (w_text data) + 1
              /\ 1 <= wordCount result).
  { intros result log'.
    unfold transcribe, transcribeWithFalWhisper, try_catch, bind, lift, emit,
      throw, ret. rewrite Hmodel. cbn.
    destruct (storage_upload remote) as [e | url] eqn:Hu; cbn; [discriminate |].
    destruct (subscribe remote url) as [e | data] eqn:Hs; cbn; [discriminate |].
    intros [= <- <-]. exists url, data.
    rewrite <- app_assoc. cbn [text wordCount].
    pose proof (count_spaces_nonneg (w_text data)).
    do 5 (split; [first [assumption | reflexivity] |]). lia. }
  split; [| exact Hout].
  split.
  - intros (result & log' & H).
    destruct (Hout result log' H) as (url & data & Hu & Hs & _). eauto.
  - intros (url & data & Hu & Hs).
    unfold transcribe, transcribeWithFalWhisper, try_catch, bind, lift, emit,
      throw, ret. rewrite Hmodel. cbn. rewrite Hu. cbn. rewrite Hs. cbn. eauto.
Qed.

Lemma transcribe_with_whisper_witness :
  exists result log',
    transcribe
      {| storage_upload := inr "https://fal.media/day.wav";
         subscribe := fun _ =>
           inr {| w_text := ""; inferred_languages := []; chunks := [] |} |}
      {| mimetype := "audio/wav"; originalname := "day.wav"; size := 10 |}
      {| language := None; model := fal_whisper; timestamp := true;
         speakerDiarization := false |} []
    = (inr result, log').
Proof.
  apply (proj1 (transcribe_with_whisper
           {| storage_upload := inr "https://fal.media/day.wav";
              subscribe := fun _ =>
                inr {| w_text := ""; inferred_languages := []; chunks := [] |} |}
           {| mimetype := "audio/wav"; originalname := "day.wav"; size := 10 |}
           {| language := None; model := fal_whisper; timestamp := true;
              speakerDiarization := false |} [] eq_refl)).
  eexists _, _. split; reflexivity.
Defined.

(** X18.  An upload that asks for the Google or the Azure model never reaches
    the provider, and still it is answered 200 only when [FAL_KEY] is set
    and not empty; without the key it is answered 500. *)
Theorem placeholder_models_need_the_key
    (FAL_KEY : option string) (remote : Remote) (now : string)
    (file : File) (form : Form) (options : TranscriptionOptions) :
  transcriptionOptionsSchema_parse form = Some options ->
  model options <> fal_whisper ->
  snd (upload_handler FAL_KEY remote now (Some file) form) = []
  /\ (status (fst (upload_handler FAL_KEY remote now (Some file) form)) = 200
      <-> exists c key, FAL_KEY = Some (String c key))
  /\ ((forall c key, FAL_KEY <> Some (String c key)) ->
      fst (upload_handler FAL_KEY remote now (Some file) form)
      = error_response 500 "Transcription failed").
Proof.
  intros Hoptions Hmodel. unfold upload_handler. rewrite Hoptions.
  destruct FAL_KEY as [[| c key] |]; cbn [new_SpeechToTextService].
  - split; [reflexivity |]. split; [| reflexivity].
    split; [discriminate | intros (c & key & [=])].
  - unfold transcribe, try_catch, ret.
    destruct (model options) eqn:Hm; [congruence | |]; cbn.
    + split; [reflexivity |]. split; [| intros H; by destruct (H c key)].
      split; eauto.
    + split; [reflexivity |]. split; [| intros H; by destruct (H c key)].
      split; eauto.
  - split; [reflexivity |]. split; [| reflexivity].
    split; [discriminate | intros (c & key & [=])].
Qed.

Lemma placeholder_models_need_the_key_witness :
  fst (upload_handler None
         {| storage_upload := inl ThrownOther; subscribe := fun _ => inl ThrownOther |}
         "2025-01-01T00:00:00.000Z"
         (Some {| mimetype := "audio/wav"; originalname := "day.wav"; size := 10 |})
         {| f_language := None; f_model := Some "google"; f_timestamp := None;
            f_speakerDiarization := None |})
  = error_response 500 "Transcription failed".
Proof.
  refine (proj2 (proj2 (placeholder_models_need_the_key None
            {| storage_upload := inl ThrownOther; subscribe := fun _ => inl ThrownOther |}
            "2025-01-01T00:00:00.000Z"
            {| mimetype := "audio/wav"; originalname := "day.wav"; size := 10 |}
            {| f_language := None; f_model := Some "google"; f_timestamp := None;
               f_speakerDiarization := None |}
            {| language := None; model := google; timestamp := true;
               speakerDiarization := false |} _ _)) _).
  - reflexivity.
  - discriminate.
  - discriminate.
Defined.

End TranscriptionExtras.

(* ================================================================== *)
(** ** More about registration and login *)
(* ================================================================== *)

Section AuthMore.

Import Http Auth.

Variable isEmail : string -> bool.

Lemma find_email_app_new (us : list User) (u : User) :
  email u ∉ map email us ->
  List.find (fun x => String.eqb (email x) (email u)) (us ++ [u]) = Some u.
Proof.
  induction us as [| x us IH]; cbn; intros Hout.
  - by rewrite String.eqb_refl.
  - apply not_elem_of_cons in Hout as [Hne Hout].
    rewrite (proj2 (String.eqb_neq _ _)) by congruence. by apply IH.
Qed.

Lemma find_email_spec (us : list User) (e : string) (u : User) :
  List.find (fun x => String.eqb (email x) e) us = Some u ->
  u ∈ us /\ email u = e.
Proof.
  intros H. apply find_some in H as [Hin Heq].
  split; [by apply list_elem_of_In | by apply String.eqb_eq].
Qed.

(** A registration either leaves the store as it is or appends one
    record. *)
Lemma register_appends env us reqBody :
  fst (register isEmail env us reqBody) = us
  \/ exists u, fst (register isEmail env us reqBody) = us ++ [u].
Proof.
  unfold register, register_begin.
  destruct (registerSchema_parse isEmail reqBody) as [v |]; [| by left].
  destruct (List.find _ us); [by left |].
  unfold register_resume.
  destruct (hash env _); [by left |].
  destruct (generateToken _ _); right; eauto.
Qed.

End AuthMore.

Section AuthExtras.

Import Http Auth.

Local Open Scope nat_scope.

(** X19.  A registration goes on to hash the password exactly when the body is
    valid and no record of the store has the same e-mail address, compared
    character by character; otherwise it is answered 400 at once. *)
Theorem registration_proceeds_iff
    (isEmail : string -> bool) (users : list User) (reqBody : Json) :
  (forall validated,
     register_begin isEmail users reqBody = AwaitingHash validated
     <-> registerSchema_parse isEmail reqBody = Some validated
         /\ Forall (fun u => email u <> v_email validated) users)
  /\ (forall response,
        register_begin isEmail users reqBody = Responded response ->
        status response = 400%Z).
Proof.
  unfold register_begin. split.
  - intros validated.
    destruct (registerSchema_parse isEmail reqBody) as [v |];
      [| split; [discriminate | intros [? _]; discriminate]].
    destruct (List.find _ users) as [u |] eqn:Hfind.
    + split; [discriminate |]. intros [[= ->] Hall].
      apply find_email_spec in Hfind as [Hin Heq].
      rewrite Forall_forall in Hall. by destruct (Hall u Hin).
    + split.
      * intros [= ->]. split; [reflexivity |].
        apply find_email_None in Hfind.
        apply Forall_forall. intros u Hin Heq. apply Hfind.
        rewrite <- Heq. apply list_elem_of_In, in_map, list_elem_of_In, Hin.
      * intros [[= ->] _]. reflexivity.
  - intros response.
    destruct (registerSchema_parse isEmail reqBody) as [v |]; [| by intros [= <-]].
    destruct (List.find _ users); [by intros [= <-] | discriminate].
Qed.

(** X20.  Registrations that run one after the other keep the e-mail addresses
    of the store distinct, and the store only grows at its end: no record
    is changed or removed. *)
Theorem serial_registrations_keep_emails_unique
    (isEmail : string -> bool) (users : list User)
    (requests : list (RegisterEnv * Json)) :
  unique_emails users ->
  unique_emails (Spec.register_all isEmail users requests)
  /\ exists added,
       Spec.register_all isEmail users requests = users ++ added
       /\ length added <= length requests.
Proof.
  unfold Spec.register_all.
  revert users. induction requests as [| [env reqBody] requests IH];
    intros users Huniq; cbn [fold_left].
  - split; [assumption |]. exists []. split; [by rewrite app_nil_r | cbn; lia].
  - destruct (IH (fst (register isEmail env users reqBody)))
      as [Hu (added & Heq & Hlen)].
    { by apply register_preserves_unique. }
    cbn [fst snd] in *. split; [assumption |].
    destruct (register_appends isEmail env users reqBody) as [Hsame | [u Hnew]].
    + exists added. split; [by rewrite Heq, Hsame | cbn; lia].
    + exists (u :: added). cbn [length]. split; [| lia].
      by rewrite Heq, Hnew, <- app_assoc.
Qed.

Lemma serial_registrations_keep_emails_unique_witness :
  unique_emails
    (Spec.register_all Sample.isEmail []
       [(Sample.register_env 1700000000000 "k3j9x2m1q", Sample.register_body);
        (Sample.register_env 1700000000004 "p0w8z5r7t", Sample.register_body)])
  /\ exists added,
       Spec.register_all Sample.isEmail []
         [(Sample.register_env 1700000000000 "k3j9x2m1q", Sample.register_body);
          (Sample.register_env 1700000000004 "p0w8z5r7t", Sample.register_body)]
       = [] ++ added
       /\ length added <= 2.
Proof.
  apply (serial_registrations_keep_emails_unique Sample.isEmail []
           [(Sample.register_env 1700000000000 "k3j9x2m1q", Sample.register_body);
            (Sample.register_env 1700000000004 "p0w8z5r7t", Sample.register_body)]).
  apply NoDup_nil_2.
Defined.

(** X21.  Without a signing secret a registration stores the record and only
    then fails, with 500; the same registration sent again is refused with
    400, for the address is now in the store. *)
Theorem register_without_secret_stores_the_user
    (isEmail : string -> bool) (env again : RegisterEnv) (users : list User)
    (reqBody : Json) (validated : RegisterData) (hashed : string) :
  registerSchema_parse isEmail reqBody = Some validated ->
  v_email validated ∉ map email users ->
  hash env (v_password validated) = inr hashed ->
  JWT_SECRET env = None \/ JWT_SECRET env = Some "" ->
  exists u,
    register isEmail env users reqBody
    = (users ++ [u], error_response 500 "Registration failed")
    /\ email u = v_email validated
    /\ password u = hashed
    /\ register isEmail again (users ++ [u]) reqBody
       = (users ++ [u], error_response 400 "User with this email already exists").
Proof.
  intros Hparse Hout Hhash Hsecret.
  assert (Hfind : List.find (fun u => String.eqb (email u) (v_email validated)) users
                  = None).
  { destruct (List.find _ users) as [u |] eqn:Hf; [| reflexivity].
    apply find_email_spec in Hf as [Hin Heq]. exfalso. apply Hout.
    rewrite <- Heq. apply list_elem_of_In, in_map, list_elem_of_In, Hin. }
  eexists. split; [| split; [| split]].
  - unfold register, register_begin. rewrite Hparse, Hfind.
    unfold register_resume. rewrite Hhash. unfold generateToken.
    cbn [JWT_SECRET]. destruct Hsecret as [-> | ->]; reflexivity.
  - reflexivity.
  - reflexivity.
  - eapply register_duplicate_rejected; [exact Hparse |].
    rewrite map_app. apply elem_of_app. right. cbn. left.
Qed.

Lemma register_without_secret_stores_the_user_witness :
  exists u,
    register Sample.isEmail
      {| hash := fun _ => inr "$2a$12$abc"; now := 5%Z; suffix := "s";
         JWT_SECRET := None; JWT_EXPIRES_IN := None;
         sign := fun _ _ _ _ => inr "t" |} [] Sample.register_body
    = ([] ++ [u], error_response 500 "Registration failed")
    /\ email u = "pat@example.com"
    /\ password u = "$2a$12$abc"
    /\ register Sample.isEmail (Sample.register_env 9 "z") ([] ++ [u])
         Sample.register_body
       = ([] ++ [u], error_response 400 "User with this email already exists").
Proof.
  apply (register_without_secret_stores_the_user Sample.isEmail
           {| hash := fun _ => inr "$2a$12$abc"; now := 5%Z; suffix := "s";
              JWT_SECRET := None; JWT_EXPIRES_IN := None;
              sign := fun _ _ _ _ => inr "t" |}
           (Sample.register_env 9 "z") [] Sample.register_body
           {| v_email := "pat@example.com"; v_password := "correct horse";
              v_name := "Pat" |} "$2a$12$abc").
  - reflexivity.
  - apply not_elem_of_nil.
  - reflexivity.
  - left. reflexivity.
Defined.

(** X22.  A token is issued by [login] only for a record of the store with the
    address of the request whose stored hash the password matches; an
    unknown address and a wrong password get the same answer, 401 with the
    same message. *)
Theorem login_succeeds_only_for_a_stored_user
    (isEmail : string -> bool) (env : LoginEnv) (users : list User)
    (reqBody : Json) :
  (status (login isEmail env users reqBody) = 200%Z ->
   exists validated user,
     loginSchema_parse isEmail reqBody = Some validated
     /\ user ∈ users
     /\ email user = l_email validated
     /\ compare env (l_password validated) (password user) = inr true)
  /\ (forall validated,
        loginSchema_parse isEmail reqBody = Some validated ->
        l_email validated ∉ map email users
        \/ (exists user,
              List.find (fun u => String.eqb (email u) (l_email validated)) users
              = Some user
              /\ compare env (l_password validated) (password user) = inr false) ->
        login isEmail env users reqBody
        = error_response 401 "Invalid email or password").
Proof.
  unfold login. split.
  - destruct (loginSchema_parse isEmail reqBody) as [v |]; [| discriminate].
    destruct (List.find _ users) as [u |] eqn:Hfind; [| discriminate].
    destruct (compare env _ _) as [e | [|]] eqn:Hcmp; try discriminate.
    intros _. apply find_email_spec in Hfind as [Hin Heq]. eauto 10.
  - intros validated -> [Hout | (user & -> & ->)]; [| reflexivity].
    destruct (List.find _ users) as [u |] eqn:Hfind; [| reflexivity].
    apply find_email_spec in Hfind as [Hin Heq]. exfalso. apply Hout.
    rewrite <- Heq. apply list_elem_of_In, in_map, list_elem_of_In, Hin.
Qed.

Lemma login_succeeds_only_for_a_stored_user_witness :
  login Sample.isEmail (Sample.login_env "k3j9x2m1q") [Sample.stored_user]
    Sample.login_body
  = error_response 401 "Invalid email or password".
Proof.
  refine (proj2 (login_succeeds_only_for_a_stored_user Sample.isEmail
            (Sample.login_env "k3j9x2m1q") [Sample.stored_user] Sample.login_body)
            {| l_email := "pat@example.com"; l_password := "correct horse" |} _ _).
  - reflexivity.
  - right. exists Sample.stored_user. split; reflexivity.
Defined.

(** X23.  Register, then log in: after a registration that is answered 201, a
    login with the same address and password, which the comparison accepts
    against the stored hash, is answered 200 for the record just made. *)
Theorem register_then_login
    (isEmail : string -> bool) (renv : RegisterEnv) (lenv : LoginEnv)
    (users : list User) (e p n : string) :
  status (snd (register isEmail renv users
                 (JObject [("email", JString e); ("password", JString p);
                           ("name", JString n)]))) = 201%Z ->
  (forall hashed, hash renv p = inr hashed -> compare lenv p hashed = inr true) ->
  (forall user, exists token, generateToken (issuer lenv) user = inr token) ->
  exists user token,
    fst (register isEmail renv users
           (JObject [("email", JString e); ("password", JString p);
                     ("name", JString n)])) = users ++ [user]
    /\ email user = e
    /\ login isEmail lenv (users ++ [user])
         (JObject [("email", JString e); ("password", JString p)])
       = {| status := 200;
            body := JObject
              [("message", JString "Login successful");
               ("token", JString token);
               ("user", JObject [("id", JString (id user));
                                 ("email", JString e);
                                 ("name", JString n)])] |}.
Proof.
  intros Hreg Hcmp Htoken. revert Hreg.
  unfold register, register_begin, registerSchema_parse.
  cbn [z_object assoc String.eqb Ascii.eqb Bool.eqb z_string z_string_min].
  destruct (8 <=? String.length p) eqn:Hp; [| discriminate].
  destruct (2 <=? String.length n) eqn:Hn; [| discriminate].
  destruct (isEmail e) eqn:He; [| discriminate].
  cbn [v_email v_password v_name].
  destruct (List.find _ users) as [u |] eqn:Hfind; [discriminate |].
  apply find_email_None in Hfind.
  unfold register_resume. cbn [v_email v_password v_name].
  destruct (hash renv p) as [err | hashed] eqn:Hhash; [discriminate |].
  destruct (generateToken renv _); [discriminate |]. intros _.
  set (user := {| id := "user_" +:+ pretty (now renv) +:+ "_" +:+ suffix renv;
                  email := e; password := hashed; name := n;
                  createdAt := now renv |}).
  destruct (Htoken user) as [token Htok].
  exists user, token. split; [reflexivity |]. split; [reflexivity |].
  unfold login, loginSchema_parse.
  cbn [z_object assoc String.eqb Ascii.eqb Bool.eqb z_string z_string_min].
  assert (H1 : (1 <=? String.length p) = true).
  { apply Nat.leb_le. apply Nat.leb_le in Hp. lia. }
  rewrite H1, He. cbn [l_email l_password].
  assert (Hnew : List.find (fun x => String.eqb (email x) e) (users ++ [user])
                 = Some user) by exact (find_email_app_new users user Hfind).
  rewrite Hnew.
  cbn [password user]. rewrite (Hcmp hashed eq_refl), Htok. reflexivity.
Qed.

Lemma register_then_login_witness :
  exists user token,
    fst (register Sample.isEmail (Sample.register_env 1700000000000 "k3j9x2m1q") []
           (JObject [("email", JString "pat@example.com");
                     ("password", JString "correct horse");
                     ("name", JString "Pat")])) = [] ++ [user]
    /\ email user = "pat@example.com"
    /\ login Sample.isEmail (Sample.login_env "k3j9x2m1q") ([] ++ [user])
         (JObject [("email", JString "pat@example.com");
                   ("password", JString "correct horse")])
       = {| status := 200;
            body := JObject
              [("message", JString "Login successful");
               ("token", JString token);
               ("user", JObject [("id", JString (id user));
                                 ("email", JString "pat@example.com");
                                 ("name", JString "Pat")])] |}.
Proof.
  apply (register_then_login Sample.isEmail
           (Sample.register_env 1700000000000 "k3j9x2m1q")
           (Sample.login_env "k3j9x2m1q") [] "pat@example.com" "correct horse" "Pat").
  - reflexivity.
  - intros hashed [= <-]. reflexivity.
  - intros user. eexists. reflexivity.
Defined.

End AuthExtras.

(* ================================================================== *)
(** ** The limiter's configuration *)
(* ================================================================== *)

Section ServerMore.

Import Server.

(** X24.  A variable that is unset, empty, not a number or zero gives the
    default: a window of one minute, five requests.  Any other setting of
    at most 150119987579 in magnitude, for which the runtime's arithmetic
    on doubles is exact, is taken as it is: the window is that number of
    minutes, in milliseconds, and the limit is that number, so neither is
    0. *)
Theorem limiter_configuration_falls_back (setting : option string) :
  (setting = None \/ setting = Some ""
   \/ (exists s, setting = Some s /\ parseInt s = None)
   \/ (exists s, setting = Some s /\ parseInt s = Some 0) ->
   windowMs setting = 60000 /\ max setting = 5)
  /\ (forall s v,
        setting = Some s ->
        parseInt s = Some v ->
        v <> 0 ->
        Z.abs v <= 150119987579 ->
        windowMs setting = v * 60000
        /\ max setting = v
        /\ windowMs setting <> 0
        /\ max setting <> 0
        /\ Z.abs (windowMs setting) < 2 ^ 53).
Proof.
  unfold windowMs, max, env_or, num_or. split.
  - intros [-> | [-> | [(s & -> & Hs) | (s & -> & Hs)]]];
      try (split; reflexivity).
    + destruct (String.eqb s ""); [split; reflexivity |].
      rewrite Hs. split; reflexivity.
    + destruct (String.eqb s ""); [split; reflexivity |].
      rewrite Hs. split; reflexivity.
  - intros s v -> Hs Hv Hsmall.
    destruct (String.eqb s "") eqn:Hempty.
    { apply String.eqb_eq in Hempty as ->. discriminate. }
    rewrite Hs, (proj2 (Z.eqb_neq v 0) Hv).
    assert (H53 : 2 ^ 53 = 9007199254740992) by reflexivity.
    rewrite H53. repeat split; lia.
Qed.

Lemma limiter_configuration_falls_back_witness :
  (windowMs (Some "soon") = 60000 /\ max (Some "soon") = 5)
  /\ (windowMs (Some "2") = 2 * 60000
      /\ max (Some "2") = 2
      /\ windowMs (Some "2") <> 0
      /\ max (Some "2") <> 0
      /\ Z.abs (windowMs (Some "2")) < 2 ^ 53).
Proof.
  split.
  - apply (proj1 (limiter_configuration_falls_back (Some "soon"))).
    right. right. left. exists "soon". split; reflexivity.
  - apply (proj2 (limiter_configuration_falls_back (Some "2")) "2" 2);
      [reflexivity | reflexivity | lia | cbn; lia].
Defined.

End ServerMore.

(* ================================================================== *)
(** ** Escaping for the XML download *)
(* ================================================================== *)

Section FrontendMore.

Import Frontend.

Lemma replace_all_app (c : ascii) (by_ a b : string) :
  replace_all c by_ (a +:+ b) = replace_all c by_ a +:+ replace_all c by_ b.
Proof.
  induction a as [| x a IH]; [reflexivity |].
  change (String x a +:+ b) with (String x (a +:+ b)).
  cbn [replace_all]. rewrite IH.
  destruct (Ascii.eqb x c); [by rewrite string_app_assoc | reflexivity].
Qed.

Lemma escape_app (a b : string) : escape (a +:+ b) = escape a +:+ escape b.
Proof. unfold escape. by rewrite !replace_all_app. Qed.

Lemma escape_single (c : ascii) :
  escape (String c EmptyString) = Spec.escape_char c.
Proof. destruct c as [[] [] [] [] [] [] [] []]; reflexivity. Qed.

(** The chain of replacements comes to replacing each character on its
    own. *)
Lemma escape_each_character (text : string) :
  escape text = Spec.escape_each text.
Proof.
  induction text as [| c text IH]; [reflexivity |].
  change (String c text) with (String c EmptyString +:+ text).
  rewrite escape_app, escape_single, IH. reflexivity.
Qed.

Lemma read_back_escape_char (c : ascii) (rest : string) :
  Spec.read_back (Spec.escape_char c +:+ rest) = Some (c, rest).
Proof. destruct c as [[] [] [] [] [] [] [] []]; reflexivity. Qed.

Lemma chars_app (a b : string) :
  Spec.chars (a +:+ b) = Spec.chars a ++ Spec.chars b.
Proof.
  induction a as [| x a IH]; [reflexivity |].
  change (String x a +:+ b) with (String x (a +:+ b)).
  cbn [Spec.chars]. by rewrite IH.
Qed.

Lemma escape_char_no_markup (c : ascii) :
  forallb (fun x => negb (Spec.is_markup x)) (Spec.chars (Spec.escape_char c))
  = true.
Proof. destruct c as [[] [] [] [] [] [] [] []]; reflexivity. Qed.

End FrontendMore.

Section FrontendExtras.

Import Frontend.

(** X25.  For a string, the five replacements of [escapeXML], made one after the
    other over the whole text, give what replacing every character on its
    own gives: the ampersands the later replacements write are not escaped
    a second time. *)
Theorem escapeXML_escapes_each_character_once
    (String_ : Json -> string) (text : string) :
  escapeXML String_ (Some (JString text)) = Spec.escape_each text.
Proof. cbn [escapeXML]. apply escape_each_character. Qed.

(** X26.  What [escapeXML] makes of a string holds none of the characters
    [<], [>], double quote and apostrophe. *)
Theorem escapeXML_leaves_no_markup
    (String_ : Json -> string) (text : string) :
  forallb (fun c => negb (Spec.is_markup c))
    (Spec.chars (escapeXML String_ (Some (JString text)))) = true.
Proof.
  cbn [escapeXML]. rewrite escape_each_character.
  induction text as [| c text IH]; [reflexivity |].
  cbn [Spec.escape_each]. rewrite chars_app, forallb_app, IH.
  by rewrite escape_char_no_markup.
Qed.

(** X27.  [escapeXML] loses nothing of a string: two strings with the same
    escaped text are the same string. *)
Theorem escapeXML_is_injective
    (String_ : Json -> string) (text1 text2 : string) :
  escapeXML String_ (Some (JString text1)) = escapeXML String_ (Some (JString text2)) ->
  text1 = text2.
Proof.
  cbn [escapeXML]. rewrite !escape_each_character.
  revert text2. induction text1 as [| c1 text1 IH]; intros [| c2 text2] H.
  - reflexivity.
  - apply (f_equal Spec.read_back) in H. cbn [Spec.escape_each] in H.
    rewrite read_back_escape_char in H. discriminate.
  - apply (f_equal Spec.read_back) in H. cbn [Spec.escape_each] in H.
    rewrite read_back_escape_char in H. discriminate.
  - apply (f_equal Spec.read_back) in H. cbn [Spec.escape_each] in H.
    rewrite !read_back_escape_char in H.
    injection H as -> H. f_equal. by apply IH.
Qed.

Lemma escapeXML_is_injective_witness :
  "a<b" = "a<b".
Proof.
  apply (escapeXML_is_injective (fun _ => "") "a<b" "a<b"). reflexivity.
Defined.

End FrontendExtras.
